(** * M29F160xT / MX29F800x flash driver (fw/m29f160xt.c)

    A shallow embedding of the driver's command, status-poll, program and
    erase logic, with the properties of its specification stated over it.

    Modelling conventions
    - C unsigned integers are [Z] with the wrap-around written out
      ([wrap32], [wrap64]); bit operations are [Z.land], [Z.lor], [Z.lxor],
      [Z.shiftl], [Z.shiftr].
    - The file-scope variables of the driver ([ee_mode], [ee_cmd_mask],
      [ee_status], ...) are the fields of one record, [driver], threaded
      through every operation by a small state monad.
    - The hardware is an oracle ([platform]): the k-th sample of the data
      pins and the k-th reading of the tick counter are given by functions
      of k, so a statement quantified over all platforms holds for every
      device behaviour.  Each bus cycle, delay, interrupt-mask change and
      console message is appended to [trace], oldest first.
    - The GPIO register writes inside [ee_read_word] and [ee_write_word]
      are folded into one [EvRead] / [EvWrite] event per bus cycle.
    - Loops whose exit depends on the hardware (the status poll) take a
      [fuel] bound on their iterations and return [None] when it runs out.
      Loops that the data bounds (the [goto try_again] of ee_write(), the
      block loops of ee_erase()) recurse on a [gas] argument that their
      callers set high enough; the lemmas [write_word_try_gas] and
      [erase_sectors_run] show that it never runs out.
    - Console output is recorded by its format string only.
    - ee_print_bits() and ee_snoop() return what they print as a list.
      ee_snoop() runs on the observations of its passes
      ([snoop_input]): the level of OE#, the address on the pins and
      whether a break is pending.
    - The functions that move the socket pins (address_output() to
      data_output_disable()) are modelled on the GPIO registers they
      write, in the module [Pins], for both board revisions; the driver
      operations above use them only through the events [EvBusEnable],
      [EvBusDisable], [EvRead] and [EvWrite].
*)

From Stdlib Require Import ZArith List Bool Lia String Btauto Sorted.
Import ListNotations.
Local Open Scope Z_scope.

(** ** Machine integers *)

Definition wrap32 (x : Z) : Z := x mod 2 ^ 32.
Definition wrap64 (x : Z) : Z := x mod 2 ^ 64.
Definition wrap16 (x : Z) : Z := x mod 2 ^ 16.

(** [~x] on a [uint32_t]. *)
Definition not32 (x : Z) : Z := wrap32 (Z.lnot x).

(** Modelled from the spec: the [BIT] macro of the missing header utils.h,
    the single-bit mask of the given position. *)
Definition BIT (n : Z) : Z := Z.shiftl 1 n.

(** ** Constants of the driver *)

Definition EE_DEVICE_SIZE : Z := Z.shiftl 1 20.
Definition MX_ERASE_SECTOR_SIZE : Z := Z.shiftl 32 10.

Definition EE_MODE_ERASE : Z := 0.
Definition EE_MODE_PROGRAM : Z := 1.

Definition EE_STATUS_NORMAL : Z := 0.
Definition EE_STATUS_ERASE_TIMEOUT : Z := 1.
Definition EE_STATUS_PROG_TIMEOUT : Z := 2.
Definition EE_STATUS_ERASE_FAILURE : Z := 3.
Definition EE_STATUS_PROG_FAILURE : Z := 4.

(** Modelled from the spec: the erase modes of the missing header
    m29f160xt.h.  [ee_erase] rejects every mode above
    [MX_ERASE_MODE_SECTOR], so the chip mode is the one below it. *)
Definition MX_ERASE_MODE_CHIP : Z := 0.
Definition MX_ERASE_MODE_SECTOR : Z := 1.

(** Modelled from the spec: the bus-width modes of the missing header
    m29f160xt.h.  [ee_enable] compares [ee_mode] with 0 (32-bit) and
    1 (16-bit low); every other value is the 16-bit high device. *)
Inductive bus_mode : Type :=
| EE_MODE_32
| EE_MODE_16_LOW
| EE_MODE_16_HIGH.

Definition bus_mode_eqb (a b : bus_mode) : bool :=
  match a, b with
  | EE_MODE_32, EE_MODE_32 => true
  | EE_MODE_16_LOW, EE_MODE_16_LOW => true
  | EE_MODE_16_HIGH, EE_MODE_16_HIGH => true
  | _, _ => false
  end.

(** ** The platform and the driver state *)

Inductive event : Type :=
| EvRead (addr value : Z)      (* one read cycle and the word sampled *)
| EvWrite (addr data : Z)      (* one write cycle and the word driven *)
| EvDelayUsec (n : Z)
| EvIrqMask
| EvIrqUnmask
| EvPrint (msg : string)
| EvBusEnable                  (* address, WE# and OE# drivers switched on *)
| EvBusDisable.                (* all drivers tri-stated *)

Record platform : Type := {
  timer_ticks : nat -> Z;          (* k-th timer_tick_get() of the driver *)
  timer_tick_to_usec : Z -> Z;
  timer_nsec_to_tick : Z -> Z;
  bus_data : nat -> Z              (* k-th sample of the data pins *)
}.

Record driver : Type := {
  hw : platform;
  ee_mode : bus_mode;
  ee_cmd_mask : Z;
  ee_status : Z;
  ticks_per_15_nsec : Z;
  ticks_per_20_nsec : Z;
  ticks_per_30_nsec : Z;
  ee_last_access : Z;
  ee_enabled : bool;
  n_ticks : nat;                   (* timer readings taken so far *)
  n_reads : nat;                   (* data-pin samples taken so far *)
  trace : list event
}.

Definition set_ee_mode (m : bus_mode) (s : driver) : driver :=
  {| hw := hw s; ee_mode := m; ee_cmd_mask := ee_cmd_mask s;
     ee_status := ee_status s; ticks_per_15_nsec := ticks_per_15_nsec s;
     ticks_per_20_nsec := ticks_per_20_nsec s;
     ticks_per_30_nsec := ticks_per_30_nsec s;
     ee_last_access := ee_last_access s; ee_enabled := ee_enabled s;
     n_ticks := n_ticks s; n_reads := n_reads s; trace := trace s |}.

Definition set_ee_cmd_mask (v : Z) (s : driver) : driver :=
  {| hw := hw s; ee_mode := ee_mode s; ee_cmd_mask := v;
     ee_status := ee_status s; ticks_per_15_nsec := ticks_per_15_nsec s;
     ticks_per_20_nsec := ticks_per_20_nsec s;
     ticks_per_30_nsec := ticks_per_30_nsec s;
     ee_last_access := ee_last_access s; ee_enabled := ee_enabled s;
     n_ticks := n_ticks s; n_reads := n_reads s; trace := trace s |}.

Definition set_ee_status (v : Z) (s : driver) : driver :=
  {| hw := hw s; ee_mode := ee_mode s; ee_cmd_mask := ee_cmd_mask s;
     ee_status := v; ticks_per_15_nsec := ticks_per_15_nsec s;
     ticks_per_20_nsec := ticks_per_20_nsec s;
     ticks_per_30_nsec := ticks_per_30_nsec s;
     ee_last_access := ee_last_access s; ee_enabled := ee_enabled s;
     n_ticks := n_ticks s; n_reads := n_reads s; trace := trace s |}.

Definition set_tick_constants (t15 t20 t30 : Z) (s : driver) : driver :=
  {| hw := hw s; ee_mode := ee_mode s; ee_cmd_mask := ee_cmd_mask s;
     ee_status := ee_status s; ticks_per_15_nsec := t15;
     ticks_per_20_nsec := t20; ticks_per_30_nsec := t30;
     ee_last_access := ee_last_access s; ee_enabled := ee_enabled s;
     n_ticks := n_ticks s; n_reads := n_reads s; trace := trace s |}.

Definition set_ee_last_access (v : Z) (s : driver) : driver :=
  {| hw := hw s; ee_mode := ee_mode s; ee_cmd_mask := ee_cmd_mask s;
     ee_status := ee_status s; ticks_per_15_nsec := ticks_per_15_nsec s;
     ticks_per_20_nsec := ticks_per_20_nsec s;
     ticks_per_30_nsec := ticks_per_30_nsec s;
     ee_last_access := v; ee_enabled := ee_enabled s;
     n_ticks := n_ticks s; n_reads := n_reads s; trace := trace s |}.

Definition set_ee_enabled (v : bool) (s : driver) : driver :=
  {| hw := hw s; ee_mode := ee_mode s; ee_cmd_mask := ee_cmd_mask s;
     ee_status := ee_status s; ticks_per_15_nsec := ticks_per_15_nsec s;
     ticks_per_20_nsec := ticks_per_20_nsec s;
     ticks_per_30_nsec := ticks_per_30_nsec s;
     ee_last_access := ee_last_access s; ee_enabled := v;
     n_ticks := n_ticks s; n_reads := n_reads s; trace := trace s |}.

Definition set_n_ticks (v : nat) (s : driver) : driver :=
  {| hw := hw s; ee_mode := ee_mode s; ee_cmd_mask := ee_cmd_mask s;
     ee_status := ee_status s; ticks_per_15_nsec := ticks_per_15_nsec s;
     ticks_per_20_nsec := ticks_per_20_nsec s;
     ticks_per_30_nsec := ticks_per_30_nsec s;
     ee_last_access := ee_last_access s; ee_enabled := ee_enabled s;
     n_ticks := v; n_reads := n_reads s; trace := trace s |}.

Definition set_n_reads (v : nat) (s : driver) : driver :=
  {| hw := hw s; ee_mode := ee_mode s; ee_cmd_mask := ee_cmd_mask s;
     ee_status := ee_status s; ticks_per_15_nsec := ticks_per_15_nsec s;
     ticks_per_20_nsec := ticks_per_20_nsec s;
     ticks_per_30_nsec := ticks_per_30_nsec s;
     ee_last_access := ee_last_access s; ee_enabled := ee_enabled s;
     n_ticks := n_ticks s; n_reads := v; trace := trace s |}.

Definition set_trace (v : list event) (s : driver) : driver :=
  {| hw := hw s; ee_mode := ee_mode s; ee_cmd_mask := ee_cmd_mask s;
     ee_status := ee_status s; ticks_per_15_nsec := ticks_per_15_nsec s;
     ticks_per_20_nsec := ticks_per_20_nsec s;
     ticks_per_30_nsec := ticks_per_30_nsec s;
     ee_last_access := ee_last_access s; ee_enabled := ee_enabled s;
     n_ticks := n_ticks s; n_reads := n_reads s; trace := v |}.

(** ** The state monad of the driver *)

Definition M (A : Type) : Type := driver -> option (A * driver).

Definition ret {A : Type} (a : A) : M A := fun s => Some (a, s).

Definition bind {A B : Type} (c : M A) (k : A -> M B) : M B :=
  fun s => match c s with
           | Some (a, s') => k a s'
           | None => None
           end.

Definition out_of_fuel {A : Type} : M A := fun _ => None.

Definition gets {A : Type} (f : driver -> A) : M A := fun s => Some (f s, s).

Definition modify (f : driver -> driver) : M unit := fun s => Some (tt, f s).

Declare Scope drv_scope.
Delimit Scope drv_scope with drv.
Notation "x <- c ;; k" := (bind c (fun x => k))
  (at level 100, c at next level, right associativity) : drv_scope.
Notation "c ;; k" := (bind c (fun _ => k))
  (at level 100, right associativity) : drv_scope.
Local Open Scope drv_scope.

Definition emit (e : event) : M unit :=
  modify (fun s => set_trace (trace s ++ [e]) s).

Definition printf (msg : string) : M unit := emit (EvPrint msg).
Definition timer_delay_usec (n : Z) : M unit := emit (EvDelayUsec n).
Definition usb_mask_interrupts : M unit := emit EvIrqMask.
Definition usb_unmask_interrupts : M unit := emit EvIrqUnmask.

(** timer_tick_get(): the next reading of the 64-bit tick counter. *)
Definition timer_tick_get : M Z :=
  fun s => Some (wrap64 (timer_ticks (hw s) (n_ticks s)),
                 set_n_ticks (S (n_ticks s)) s).

(** data_input(): the next sample of the 32 data pins. *)
Definition data_input : M Z :=
  fun s => Some (wrap32 (bus_data (hw s) (n_reads s)),
                 set_n_reads (S (n_reads s)) s).

Arguments ret {A} a _ /.
Arguments bind {A B} c k _ /.
Arguments gets {A} f _ /.
Arguments modify f _ /.
Arguments emit e _ /.
Arguments printf msg _ /.
Arguments timer_delay_usec n _ /.
Arguments usb_mask_interrupts _ /.
Arguments usb_unmask_interrupts _ /.
Arguments timer_tick_get _ /.
Arguments data_input _ /.

(** ** Bus cycles *)

Definition ee_read_word (addr : Z) : M Z :=
  data <- data_input ;;
  emit (EvRead addr data) ;;
  ret data.

Definition ee_write_word (addr data : Z) : M unit :=
  mask <- gets ee_cmd_mask ;;
  emit (EvWrite addr (Z.land data mask)).

Arguments ee_read_word addr _ /.
Arguments ee_write_word addr data _ /.

(** ** Commands *)

Definition ee_cmd (addr cmd : Z) : M unit :=
  now <- timer_tick_get ;;
  modify (set_ee_last_access now) ;;
  mode <- gets ee_mode ;;
  let cmd :=
    match mode with
    | EE_MODE_32 =>
        if Z.shiftr cmd 16 =? 0 then Z.lor cmd (wrap32 (Z.shiftl cmd 16))
        else cmd
    | EE_MODE_16_LOW => cmd
    | EE_MODE_16_HIGH =>
        if Z.shiftr cmd 16 =? 0 then Z.lor cmd (wrap32 (Z.shiftl cmd 16))
        else cmd
    end in
  let op := Z.land cmd 0xffff in
  (if (op =? 0x98) || (op =? 0xf0) || (op =? 0xb0) || (op =? 0x30)
   then ee_write_word addr cmd
   else
     usb_mask_interrupts ;;
     ee_write_word 0x00555 0x00aa00aa ;;
     ee_write_word 0x002aa 0x00550055 ;;
     ee_write_word addr cmd ;;
     usb_unmask_interrupts) ;;
  timer_delay_usec 2.

Definition ee_read_mode : M unit := ee_cmd 0x00555 0x00f000f0.

Definition ee_status_clear : M unit :=
  ee_cmd 0x00000 0x00f000f0 ;;
  ee_read_mode.

(** ** Enable and disable *)

Definition ee_enable : M unit :=
  enabled <- gets ee_enabled ;;
  if enabled then ret tt
  else
    plat <- gets hw ;;
    modify (set_tick_constants (timer_nsec_to_tick plat 15)
                               (timer_nsec_to_tick plat 20)
                               (timer_nsec_to_tick plat 30)) ;;
    emit EvBusEnable ;;
    modify (set_ee_enabled true) ;;
    ee_read_mode ;;
    mode <- gets ee_mode ;;
    match mode with
    | EE_MODE_32 => modify (set_ee_cmd_mask 0xffffffff)
    | EE_MODE_16_LOW => modify (set_ee_cmd_mask 0x0000ffff)
    | EE_MODE_16_HIGH => modify (set_ee_cmd_mask 0xffff0000)
    end.

Definition ee_disable : M unit :=
  emit EvBusDisable ;;
  timer_delay_usec 50 ;;
  modify (set_ee_enabled false).

(** ** Reading *)

Fixpoint read_words (count : nat) (addr : Z) (conv : Z -> Z) : M (list Z) :=
  match count with
  | O => ret []
  | S count' =>
      value <- ee_read_word addr ;;
      rest <- read_words count' (wrap32 (addr + 1)) conv ;;
      ret (conv value :: rest)
  end.

(** ee_read(): the result code and the words stored through [datap]. *)
Definition ee_read (addr count : Z) : M (Z * list Z) :=
  if wrap32 (addr + count) >? EE_DEVICE_SIZE then ret (1, [])
  else
    mode <- gets ee_mode ;;
    if bus_mode_eqb mode EE_MODE_32 then
      usb_mask_interrupts ;;
      data <- read_words (Z.to_nat count) addr (fun value => value) ;;
      usb_unmask_interrupts ;;
      ret (0, data)
    else
      usb_mask_interrupts ;;
      data <- read_words (Z.to_nat count) addr
                (fun value => if bus_mode_eqb mode EE_MODE_16_LOW
                              then wrap16 value
                              else Z.shiftr value 16) ;;
      usb_unmask_interrupts ;;
      ret (0, data).

(** ** The completion monitor *)

(** [BIT(5) | BIT(5 + 16)]: the program / erase failure indicator of the
    low and of the high device. *)
Definition FAIL_BITS : Z := Z.lor (BIT 5) (BIT (5 + 16)).

Inductive poll_exit : Type :=
| PollDone                       (* returned 0 from inside the loop *)
| PollLeft (usecs status : Z).   (* left the loop: timeout or break *)

Definition when (b : bool) (c : M unit) : M unit := if b then c else ret tt.

Arguments when b c _ /.

(** The [while (usecs < timeout_usec)] loop of ee_wait_for_done_status();
    [fuel] bounds the number of polls. *)
Fixpoint poll_loop (fuel : nat) (start timeout_usec verbose : Z)
    (usecs status lstatus same_count see_fail_count report_time : Z)
    : M poll_exit :=
  if usecs <? timeout_usec then
    match fuel with
    | O => out_of_fuel
    | S fuel' =>
        now <- timer_tick_get ;;
        plat <- gets hw ;;
        let usecs := wrap64 (timer_tick_to_usec plat (wrap64 (now - start))) in
        raw <- ee_read_word 0 ;;
        mask <- gets ee_cmd_mask ;;
        let status := Z.land raw mask in
        cont <- (if status =? lstatus then
                   if 1 <=? same_count then
                     (* Same for 2 tries *)
                     when (negb (verbose =? 0)) (printf "    Done\n") ;;
                     modify (set_ee_status EE_STATUS_NORMAL) ;;
                     ret None
                   else ret (Some (same_count + 1, lstatus))
                 else
                   when (negb (same_count =? 0)) (printf "S") ;;
                   ret (Some (0, status))) ;;
        match cont with
        | None => ret PollDone
        | Some (same_count, lstatus) =>
            let failing := negb (Z.land status FAIL_BITS =? 0) in
            if failing && (5 <? see_fail_count) then ret (PollLeft usecs status)
            else
              let see_fail_count :=
                if failing then see_fail_count + 1 else see_fail_count in
              let report := negb (verbose =? 0)
                            && (report_time <? usecs / 1000000) in
              when report (printf "\r%08lx %u") ;;
              let report_time :=
                if report then wrap32 (usecs / 1000000) else report_time in
              poll_loop fuel' start timeout_usec verbose
                        usecs status lstatus same_count see_fail_count
                        report_time
        end
    end
  else ret (PollLeft usecs status).

Definition ee_wait_for_done_status (fuel : nat)
    (timeout_usec verbose mode : Z) : M Z :=
  start <- timer_tick_get ;;
  r <- poll_loop fuel start timeout_usec verbose 0 0 0 0 0 0 ;;
  match r with
  | PollDone => ret 0
  | PollLeft usecs status =>
      when (negb (verbose =? 0)) (printf "\r%08lx %u.%03u sec") ;;
      if negb (Z.land status FAIL_BITS =? 0) then
        (* Program / erase failure *)
        modify (set_ee_status (if mode =? EE_MODE_ERASE
                               then EE_STATUS_ERASE_FAILURE
                               else EE_STATUS_PROG_FAILURE)) ;;
        printf (if mode =? EE_MODE_ERASE then "    Erase Failure\n"
                else "    Program Failure\n") ;;
        ee_status_clear ;;
        ret 1
      else
        modify (set_ee_status (if mode =? EE_MODE_ERASE
                               then EE_STATUS_ERASE_TIMEOUT
                               else EE_STATUS_PROG_TIMEOUT)) ;;
        printf (if mode =? EE_MODE_ERASE then "    Erase Timeout\n"
                else "    Program Timeout\n") ;;
        ee_status_clear ;;
        ret 1
  end.

(** ** Programming *)

Definition ee_program_word (fuel : nat) (addr word : Z) : M Z :=
  usb_mask_interrupts ;;
  ee_write_word 0x00555 0x00aa00aa ;;
  ee_write_word 0x002aa 0x00550055 ;;
  ee_write_word 0x00555 0x00a000a0 ;;
  ee_write_word addr word ;;
  usb_unmask_interrupts ;;
  ee_wait_for_done_status fuel 360 0 EE_MODE_PROGRAM.

(** The word programmed for one buffer element ([switch (ee_mode)] after
    the [try_again] label). *)
Definition load_value (mode : bus_mode) (d : Z) : Z :=
  match mode with
  | EE_MODE_32 => wrap32 d
  | EE_MODE_16_LOW => wrap16 d
  | EE_MODE_16_HIGH => wrap32 (Z.shiftl (wrap16 d) 16)
  end.

(** One pass through the body of the [while (count > 0)] loop of
    ee_write() from the [try_again] label on: 0 when the word verified,
    3 or 4 when ee_write() returns that code.  Every [goto try_again] is
    a recursive call; [gas] bounds their number. *)
Fixpoint write_word_try (gas fuel : nat) (addr d try_count : Z) : M Z :=
  match gas with
  | O => out_of_fuel
  | S gas' =>
      mode <- gets ee_mode ;;
      let value := load_value mode d in
      rc <- ee_program_word fuel addr value ;;
      if negb (rc =? 0) then
        if try_count <? 2 then
          write_word_try gas' fuel addr d (try_count + 1)
        else
          printf "  Program failed at 0x%lx\n" ;;
          ret 3
      else
        (* Verify write was successful *)
        rvalue <- ee_read_word addr ;;
        mask <- gets ee_cmd_mask ;;
        let xvalue := Z.land (Z.lxor value rvalue) mask in
        if negb (xvalue =? 0) then
          (* Mismatch *)
          if (try_count <? 2) && (Z.land xvalue (not32 rvalue) =? 0) then
            (* Can try again -- bits are not 0 which need to be 1 *)
            write_word_try gas' fuel addr d (try_count + 1)
          else
            printf "  Program mismatch at 0x%lx\n" ;;
            ret 4
        else ret 0
  end.

Fixpoint write_loop (count fuel : nat) (addr : Z) (data : list Z) : M Z :=
  match count with
  | O => ee_read_mode ;; ret 0
  | S count' =>
      rc <- write_word_try 3 fuel addr (hd 0 data) 0 ;;
      if rc =? 0 then write_loop count' fuel (wrap32 (addr + 1)) (tl data)
      else ret rc
  end.

(** ee_write(): [data] holds one buffer element per word to program. *)
Definition ee_write (fuel : nat) (addr : Z) (data : list Z) (count : Z)
    : M Z :=
  if wrap32 (addr + count) >? EE_DEVICE_SIZE then ret 1
  else write_loop (Z.to_nat count) fuel addr data.

(** ** Chip geometry *)

Record chip_blocks_t : Type := {
  cb_chipid : Z;
  cb_bbnum : Z;    (* Boot block number (0=Bottom boot) *)
  cb_bsize : Z;    (* Common block size in Kwords (typical 32K) *)
  cb_ssize : Z;    (* Boot block sector size in Kwords (typical 4K) *)
  cb_map : Z       (* Boot block sector erase map *)
}.

Definition mk_chip (id bbnum bsize ssize map : Z) : chip_blocks_t :=
  {| cb_chipid := id; cb_bbnum := bbnum; cb_bsize := bsize;
     cb_ssize := ssize; cb_map := map |}.

Definition chip_default : chip_blocks_t := mk_chip 0x00000000 0 32 4 0x1d.

Definition chip_blocks : list chip_blocks_t :=
  [ mk_chip 0x000122D2 31 32 4 0x71;   (* M29F160FT  01110001 16K 4K 4K 8K *)
    mk_chip 0x000122D8  0 32 4 0x1d;   (* M29F160FB  00011101 8K 4K 4K 16K *)
    mk_chip 0x000122D6 15 32 4 0x71;   (* M29F800FT  01110001 16K 4K 4K 8K *)
    mk_chip 0x00012258  0 32 4 0x1d;   (* M29F800FB  00011101 8K 4K 4K 16K *)
    mk_chip 0x00c222D6 15 32 4 0x71;   (* MX29F800CT 01110001 16K 4K 4K 8K *)
    mk_chip 0x00c22258  0 32 4 0x1d;   (* MX29F800CB 00011101 8K 4K 4K 16K *)
    chip_default ].                    (* No match: default to bottom boot *)

(** The [for] loop of get_chip_block_info(): [n] positions remain to be
    compared, starting at [pos]. *)
Fixpoint chip_scan (n pos : nat) (chipid : Z) : nat :=
  match n with
  | O => pos
  | S n' =>
      if cb_chipid (nth pos chip_blocks chip_default) =? chipid then pos
      else chip_scan n' (S pos) chipid
  end.

Definition get_chip_block_info (chipid : Z) : chip_blocks_t :=
  nth (chip_scan (List.length chip_blocks - 1) 0 chipid) chip_blocks chip_default.

(** ee_id(): [(part1, part2)]. *)
Definition ee_id : M (Z * Z) :=
  ee_cmd 0x00555 0x00900090 ;;
  low <- ee_read_word 0x00000 ;;
  high <- ee_read_word 0x00001 ;;
  ee_read_mode ;;
  mode <- gets ee_mode ;;
  let a := Z.lor (wrap32 (Z.shiftl low 16)) (wrap16 high) in
  let b := Z.lor (Z.land low 0xffff0000) (Z.shiftr high 16) in
  match mode with
  | EE_MODE_32 | EE_MODE_16_LOW => ret (a, b)
  | EE_MODE_16_HIGH => ret (b, a)
  end.

(** ** Erasing *)

(** The [do ... while (snum < 8)] walk over the boot block's erase map:
    [bsize] and [snum] are the values on entry to the body. *)
Fixpoint boot_walk (gas : nat) (cb : chip_blocks_t) (bsize snum : Z) : Z :=
  match gas with
  | O => bsize
  | S gas' =>
      let bsize := bsize + Z.shiftl (cb_ssize cb) 10 in
      let snum := snum + 1 in
      if negb (Z.land (cb_map cb) (BIT snum) =? 0) then bsize  (* At next block *)
      else if snum <? 8 then boot_walk gas' cb bsize snum
      else bsize
  end.

(** The erase unit [bsize] that the sector loop of ee_erase() computes for
    the current [addr]. *)
Definition unit_size (cb : chip_blocks_t) (addr : Z) : Z :=
  let bsize := Z.shiftl (cb_bsize cb) 10 in
  let bnum := addr / bsize in
  if bnum =? cb_bbnum cb then
    (* Boot block has variable block size *)
    let soff := wrap32 (addr - wrap32 (bnum * bsize)) in
    let snum := soff / Z.shiftl (cb_ssize cb) 10 in
    boot_walk 8 cb 0 snum
  else bsize.

(** The address the sector-erase command word is written to. *)
Definition erase_address (cb : chip_blocks_t) (addr : Z) : Z :=
  let bsize := unit_size cb addr in
  let addr_mask := not32 (wrap32 (bsize - 1)) in
  Z.land addr addr_mask.

Definition SECTOR_ERASE_CMD : Z := 0x00300030.

(** The inner [while (len > 0)] loop (block erase, supports multiple
    blocks): the final [(addr, len, timeout)]. *)
Fixpoint erase_sectors (gas : nat) (cb : chip_blocks_t)
    (addr len timeout : Z) : M (Z * Z * Z) :=
  if 0 <? len then
    match gas with
    | O => out_of_fuel
    | S gas' =>
        let bsize := unit_size cb addr in
        ee_write_word (erase_address cb addr) SECTOR_ERASE_CMD ;;
        let timeout := timeout + 1000000 in   (* Add 1 second per block *)
        if len <? bsize then
          (* Nothing left to do -- allow erase to start *)
          ret (addr, 0, timeout)
        else erase_sectors gas' cb (wrap32 (addr + bsize)) (len - bsize) timeout
    end
  else ret (addr, len, timeout).

(** The outer [while (len > 0)] loop of ee_erase(); the result is [rc]. *)
Fixpoint erase_passes (gas fuel : nat) (cb : chip_blocks_t)
    (mode addr len verbose rc : Z) : M Z :=
  if 0 <? len then
    match gas with
    | O => out_of_fuel
    | S gas' =>
        if EE_DEVICE_SIZE <=? addr then
          (* Exceeded the address range of the EEPROM *)
          ret 1
        else
          usb_mask_interrupts ;;
          ee_write_word 0x00555 0x00aa00aa ;;
          ee_write_word 0x002aa 0x00550055 ;;
          ee_write_word 0x00555 0x00800080 ;;
          ee_write_word 0x00555 0x00aa00aa ;;
          ee_write_word 0x002aa 0x00559055 ;;
          q <- (if mode =? MX_ERASE_MODE_CHIP then
                  ee_write_word 0x00555 0x00100010 ;;
                  ret (addr, 0, 32000000)
                else
                  erase_sectors (Z.to_nat len) cb addr len 1000000) ;;
          let '(addr, len, timeout) := q in
          timer_delay_usec 100 ;;
          rc <- ee_wait_for_done_status fuel (wrap32 timeout) verbose
                                        EE_MODE_ERASE ;;
          if negb (rc =? 0) then ret rc
          else erase_passes gas' fuel cb mode addr len verbose rc
    end
  else ret rc.

Definition ee_erase (fuel : nat) (mode addr len verbose : Z) : M Z :=
  if MX_ERASE_MODE_SECTOR <? mode then
    printf "BUG: Invalid erase mode %d\n" ;;
    ret 1
  else
    let len := if (len =? 0) || (mode =? MX_ERASE_MODE_CHIP) then 1 else len in
    (* Need to figure out if this is a top boot or bottom boot part *)
    parts <- ee_id ;;
    let cb := get_chip_block_info (fst parts) in
    ee_status_clear ;;
    rc <- erase_passes (Z.to_nat len) fuel cb mode addr len verbose 0 ;;
    ee_read_mode ;;
    ret rc.

(** ** The idle manager *)

(** ee_poll(): cuts the drivers after more than one second without a
    command. *)
Definition ee_poll : M unit :=
  last <- gets ee_last_access ;;
  if negb (last =? 0) then
    now <- timer_tick_get ;;
    plat <- gets hw ;;
    let usec := wrap64 (timer_tick_to_usec plat (wrap64 (now - last))) in
    if 1000000 <? usec then
      ee_disable ;;
      modify (set_ee_last_access 0)
    else ret tt
  else ret tt.

(** ** The status report *)

(** snprintf() of a text without conversions into a buffer of [size]
    bytes: nothing is stored for a size of 0, otherwise the first
    [size - 1] characters (and the terminator). *)
Definition snprintf (size : Z) (text : string) : option string :=
  if size =? 0 then None
  else Some (substring 0 (Z.to_nat (size - 1)) text).

(** The [switch (ee_status)] of ee_status_read(). *)
Definition status_text (status : Z) : string :=
  if status =? EE_STATUS_NORMAL then "Normal"
  else if status =? EE_STATUS_ERASE_TIMEOUT then "Erase Timeout"
  else if status =? EE_STATUS_PROG_TIMEOUT then "Program Timeout"
  else if status =? EE_STATUS_ERASE_FAILURE then "Erase Failure"
  else if status =? EE_STATUS_PROG_FAILURE then "Program Failure"
  else "Unknown".

(** ee_status_read(): the text stored through [status] ([None] when the
    buffer is left untouched) and the value returned. *)
Definition ee_status_read (status_len : Z) : M (option string * Z) :=
  ee_cmd 0x00555 0x00700070 ;;
  data <- ee_read_word 0x00000 ;;
  ee_read_mode ;;
  status <- gets ee_status ;;
  ret (snprintf status_len (status_text status), wrap16 status).

(** ** Diagnostics *)

(** The [for] loop of ee_print_bits(): the bit numbers printed, in the
    order printed; [count] passes remain and [bit] is the loop
    variable. *)
Fixpoint print_bits_loop (count : nat) (value bit : Z) : list Z :=
  match count with
  | O => []
  | S count' =>
      (if negb (Z.land value (Z.shiftl 1 bit) =? 0) then [bit] else [])
      ++ print_bits_loop count' value (bit - 1)
  end.

Definition ee_print_bits (value high_bit : Z) : list Z :=
  print_bits_loop (Z.to_nat (high_bit + 1)) value high_bit.

(** ** The bus snoop *)

(** [ARRAY_SIZE(captures)]. *)
Definition CAPTURES : Z := 32.

(** The local variables of ee_snoop(). *)
Record snoop_state : Type := {
  sn_cons : Z;
  sn_prod : Z;
  sn_iters : Z;
  sn_no_data : Z;
  sn_captures : list Z;
  sn_laddr : Z
}.

(** What one pass of the [while (1)] loop can see of the platform: the
    level of the socket's OE# pin, the value address_input() returns and
    the answer of input_break_pending(), each consulted at most once per
    pass. *)
Record snoop_input : Type := {
  oe_pin : bool;
  address_pins : Z;
  break_pending : bool
}.

Inductive snoop_out : Type :=
| SnoopAddr (addr : Z)     (* printf(" %lx", captures[cons]) *)
| SnoopNewline             (* printf("\n") *)
| SnoopBreak.              (* printf("^C\n") *)

Definition oe_input (i : snoop_input) : Z := if oe_pin i then 1 else 0.

(** [captures[i] = v]. *)
Fixpoint store (l : list Z) (i : nat) (v : Z) : list Z :=
  match l, i with
  | [], _ => []
  | _ :: rest, O => v :: rest
  | x :: rest, S i' => x :: store rest i' v
  end.

(** An index advanced by one slot, wrapping at the end of the array. *)
Definition ring_next (x : Z) : Z :=
  let n := wrap32 (x + 1) in
  if CAPTURES <=? n then 0 else n.

(** The [while (cons != prod)] loop that prints the captures: the
    output and the final [cons].  [gas] bounds the passes; the lemma
    [snoop_drain_spec] shows that [CAPTURES] passes always suffice. *)
Fixpoint snoop_drain (gas : nat) (captures : list Z) (cons prod : Z)
    : list snoop_out * Z :=
  if cons =? prod then ([], cons)
  else
    match gas with
    | O => ([], cons)
    | S gas' =>
        let out := SnoopAddr (nth (Z.to_nat cons) captures 0) in
        let r := snoop_drain gas' captures (ring_next cons) prod in
        (out :: fst r, snd r)
    end.

(** One pass of the [while (1)] loop: the state for the next pass, or
    [None] when the loop is left, and the output of the pass. *)
Definition snoop_iter (st : snoop_state) (i : snoop_input)
    : option snoop_state * list snoop_out :=
  if oe_input i =? 0 then
    let addr := address_pins i in
    let captured :=
      if negb (addr =? sn_laddr st) then
        let nprod := ring_next (sn_prod st) in
        if nprod =? sn_cons st then None     (* FIFO full *)
        else Some {| sn_cons := sn_cons st; sn_prod := nprod;
                     sn_iters := sn_iters st; sn_no_data := sn_no_data st;
                     sn_captures := store (sn_captures st)
                                          (Z.to_nat (sn_prod st)) addr;
                     sn_laddr := addr |}
      else Some st in
    match captured with
    | None => (Some st, [])
    | Some st1 =>
        if 30 <=? sn_iters st1 then
          if break_pending i then (None, [])
          else (Some {| sn_cons := sn_cons st1; sn_prod := sn_prod st1;
                        sn_iters := 0; sn_no_data := 0;
                        sn_captures := sn_captures st1;
                        sn_laddr := sn_laddr st1 |}, [])
        else (Some {| sn_cons := sn_cons st1; sn_prod := sn_prod st1;
                      sn_iters := wrap32 (sn_iters st1 + 1); sn_no_data := 0;
                      sn_captures := sn_captures st1;
                      sn_laddr := sn_laddr st1 |}, [])
    end
  else
    let no_data := wrap32 (sn_no_data st + 1) in
    if sn_no_data st <? 30 then
      (Some {| sn_cons := sn_cons st; sn_prod := sn_prod st;
               sn_iters := sn_iters st; sn_no_data := no_data;
               sn_captures := sn_captures st; sn_laddr := sn_laddr st |}, [])
    else
      let d := snoop_drain (Z.to_nat CAPTURES) (sn_captures st)
                           (sn_cons st) (sn_prod st) in
      let out := if negb (sn_cons st =? sn_prod st)
                 then fst d ++ [SnoopNewline] else [] in
      if break_pending i then (None, out)
      else (Some {| sn_cons := snd d; sn_prod := sn_prod st;
                    sn_iters := 0; sn_no_data := no_data;
                    sn_captures := sn_captures st;
                    sn_laddr := sn_laddr st |}, out).

(** The loop over the passes that [inputs] describes: the output so far
    and the state, [None] once ee_snoop() has returned. *)
Fixpoint snoop_loop (inputs : list snoop_input) (st : snoop_state)
    : list snoop_out * option snoop_state :=
  match inputs with
  | [] => ([], Some st)
  | i :: rest =>
      match snoop_iter st i with
      | (None, out) => (out ++ [SnoopBreak], None)
      | (Some st', out) =>
          let r := snoop_loop rest st' in (out ++ fst r, snd r)
      end
  end.

(** The initialisers of the local variables; [captures] is the content
    of the uninitialised array. *)
Definition snoop_init (captures : list Z) : snoop_state :=
  {| sn_cons := 0; sn_prod := 0; sn_iters := 0; sn_no_data := 0;
     sn_captures := captures; sn_laddr := 0xffffffff |}.

Definition ee_snoop (captures : list Z) (inputs : list snoop_input)
    : list snoop_out * option snoop_state :=
  snoop_loop inputs (snoop_init captures).

(** ** Socket pins *)

Module Pins.


(** The two pin layouts: [#if BOARD_REV == 1] and its [#else] branch
    (BOARD_REV 2+). *)
Inductive board_rev : Type :=
| BOARD_REV_1
| BOARD_REV_2.

Inductive gpio_port : Type := GPIOA | GPIOB | GPIOC | GPIOD | GPIOE.

Definition gpio_port_eqb (a b : gpio_port) : bool :=
  match a, b with
  | GPIOA, GPIOA | GPIOB, GPIOB | GPIOC, GPIOC | GPIOD, GPIOD
  | GPIOE, GPIOE => true
  | _, _ => false
  end.

(** Modelled from the spec: the port macros of the missing header
    board.h, with the pin assignment that the comments of the driver
    give.  BOARD_REV 1: D0-D15 = PD0-PD15, D16-D23 = PA0-PA7,
    D24-D27 = PC0-PC3, D28 = PC10, D29 = PB5, D30-D31 = PB8-PB9,
    A16-A19 = PC6-PC9, and A0-A15 on the 16 pins of the one port left.
    BOARD_REV 2+: A0-A12 = PC0-PC12, A13-A19 = PA1-PA7,
    D0-D15 = PD0-PD15, D16-D31 = PE0-PE15. *)
Definition SOCKET_A0_PORT (rev : board_rev) : gpio_port :=
  match rev with BOARD_REV_1 => GPIOE | BOARD_REV_2 => GPIOC end.
Definition SOCKET_A13_PORT : gpio_port := GPIOA.     (* BOARD_REV 2+ *)
Definition SOCKET_A16_PORT : gpio_port := GPIOC.     (* BOARD_REV 1 *)
Definition SOCKET_D0_PORT : gpio_port := GPIOD.
Definition SOCKET_D16_PORT (rev : board_rev) : gpio_port :=
  match rev with BOARD_REV_1 => GPIOA | BOARD_REV_2 => GPIOE end.
Definition SOCKET_D24_PORT : gpio_port := GPIOC.     (* BOARD_REV 1 *)
Definition SOCKET_D28_PORT : gpio_port := GPIOC.     (* BOARD_REV 1 *)
Definition SOCKET_D29_PORT : gpio_port := GPIOB.     (* BOARD_REV 1 *)
Definition SOCKET_D30_PORT : gpio_port := GPIOB.     (* BOARD_REV 1 *)

(** The registers of one STM32F1 GPIO port that the driver writes: the
    two configuration registers (4 bits per pin, pins 0-7 in CRL and
    8-15 in CRH) and the 16-bit output latch. *)
Record gpio_regs : Type := {
  CRL : Z;
  CRH : Z;
  ODR : Z
}.

Definition gpio_state : Type := gpio_port -> gpio_regs.

Definition gpio_update (p : gpio_port) (r : gpio_regs) (g : gpio_state)
    : gpio_state :=
  fun q => if gpio_port_eqb q p then r else g q.

(** [GPIO_CRL(p) = v], [GPIO_CRH(p) = v], [GPIO_ODR(p) = v]. *)
Definition write_CRL (p : gpio_port) (v : Z) (g : gpio_state) : gpio_state :=
  gpio_update p {| CRL := wrap32 v; CRH := CRH (g p); ODR := ODR (g p) |} g.

Definition write_CRH (p : gpio_port) (v : Z) (g : gpio_state) : gpio_state :=
  gpio_update p {| CRL := CRL (g p); CRH := wrap32 v; ODR := ODR (g p) |} g.

Definition write_ODR (p : gpio_port) (v : Z) (g : gpio_state) : gpio_state :=
  gpio_update p {| CRL := CRL (g p); CRH := CRH (g p);
                   ODR := wrap16 v |} g.

(** [GPIO_BSRR(p) = v]: the low half of [v] sets bits of the output
    latch, the high half resets bits; a bit named in both is set. *)
Definition write_BSRR (p : gpio_port) (v : Z) (g : gpio_state) : gpio_state :=
  gpio_update p
    {| CRL := CRL (g p); CRH := CRH (g p);
       ODR := Z.lor (Z.land (ODR (g p)) (Z.lnot (Z.shiftr v 16)))
                    (Z.land v 0xffff) |} g.

Definition GPIO_CRL (g : gpio_state) (p : gpio_port) : Z := CRL (g p).
Definition GPIO_CRH (g : gpio_state) (p : gpio_port) : Z := CRH (g p).
Definition GPIO_ODR (g : gpio_state) (p : gpio_port) : Z := ODR (g p).

(** [GPIO_IDR(p)]: every pin is taken to follow its output latch, as it
    does when it is driven push-pull, or pulled up or down by the latch
    with nothing else driving the line. *)
Definition GPIO_IDR (g : gpio_state) (p : gpio_port) : Z := ODR (g p).

(** address_output(): writes the address to the address pins. *)
Definition address_output (rev : board_rev) (addr : Z) (g : gpio_state)
    : gpio_state :=
  match rev with
  | BOARD_REV_1 =>
      let g := write_ODR (SOCKET_A0_PORT rev) (Z.land addr 0xffff) g in
      write_BSRR SOCKET_A16_PORT
                 (Z.lor 0x03c00000 (Z.land (Z.shiftr addr 10) 0x03c0)) g
  | BOARD_REV_2 =>
      let g := write_ODR (SOCKET_A0_PORT rev) (Z.land addr 0xffff) g in
      write_BSRR SOCKET_A13_PORT
                 (Z.lor 0x00fe0000 (Z.land (Z.shiftr addr 12) 0x00fe)) g
  end.

(** address_input(): the value present on the address pins. *)
Definition address_input (rev : board_rev) (g : gpio_state) : Z :=
  match rev with
  | BOARD_REV_1 =>
      Z.lor (GPIO_IDR g (SOCKET_A0_PORT rev))
            (wrap32 (Z.shiftl (Z.land (GPIO_IDR g SOCKET_A16_PORT) 0x03c0)
                              (16 - 6)))
  | BOARD_REV_2 =>
      Z.lor (Z.land (GPIO_IDR g (SOCKET_A0_PORT rev)) 0x1fff)
            (wrap32 (Z.shiftl (Z.land (GPIO_IDR g SOCKET_A13_PORT) 0x00fe)
                              (13 - 1)))
  end.

(** address_output_enable(): the address pins become outputs. *)
Definition address_output_enable (rev : board_rev) (g : gpio_state)
    : gpio_state :=
  match rev with
  | BOARD_REV_1 =>
      let g := write_CRL (SOCKET_A0_PORT rev) 0x11111111 g in
      let g := write_CRH (SOCKET_A0_PORT rev) 0x11111111 g in
      let g := write_CRL SOCKET_A16_PORT
                 (Z.lor (Z.land (GPIO_CRL g SOCKET_A16_PORT) 0x00ffffff)
                        0x11000000) g in
      write_CRH SOCKET_A16_PORT
                (Z.lor (Z.land (GPIO_CRH g SOCKET_A16_PORT) 0xffffff00)
                       0x00000011) g
  | BOARD_REV_2 =>
      let g := write_CRL (SOCKET_A0_PORT rev) 0x11111111 g in
      let g := write_CRH (SOCKET_A0_PORT rev) 0x00011111 g in
      write_CRL SOCKET_A13_PORT 0x11111110 g
  end.

(** address_output_disable(): the address pins go back to inputs. *)
Definition address_output_disable (rev : board_rev) (g : gpio_state)
    : gpio_state :=
  match rev with
  | BOARD_REV_1 =>
      let g := write_CRL (SOCKET_A0_PORT rev) 0x88888888 g in
      let g := write_CRH (SOCKET_A0_PORT rev) 0x88888888 g in
      let g := write_CRL SOCKET_A16_PORT
                 (Z.lor (Z.land (GPIO_CRL g SOCKET_A16_PORT) 0x00ffffff)
                        0x88000000) g in
      let g := write_CRH SOCKET_A16_PORT
                 (Z.lor (Z.land (GPIO_CRH g SOCKET_A16_PORT) 0xffffff00)
                        0x00000088) g in
      let g := write_ODR (SOCKET_A0_PORT rev) 0x00000000 g in
      write_ODR SOCKET_A16_PORT
                (Z.land (GPIO_ODR g SOCKET_A16_PORT) 0xfffffc3f) g
  | BOARD_REV_2 =>
      let g := write_CRL (SOCKET_A0_PORT rev) 0x88888888 g in
      let g := write_CRH (SOCKET_A0_PORT rev) 0x00088888 g in
      write_CRL SOCKET_A13_PORT 0x88888880 g
  end.

(** data_output(): writes the value to the data pins. *)
Definition data_output (rev : board_rev) (data : Z) (g : gpio_state)
    : gpio_state :=
  match rev with
  | BOARD_REV_1 =>
      let g := write_ODR SOCKET_D0_PORT data g in
      let g := write_BSRR (SOCKET_D16_PORT rev)
                 (Z.lor 0x00ff0000 (Z.land (Z.shiftr data 16) 0x00ff)) g in
      let g := write_BSRR SOCKET_D24_PORT
                 (Z.lor 0x000f0000 (Z.land (Z.shiftr data 24) 0x000f)) g in
      let g := write_BSRR SOCKET_D28_PORT
                 (Z.lor 0x04000000 (Z.land (Z.shiftr data 18) 0x0400)) g in
      write_BSRR SOCKET_D29_PORT
                 (Z.lor (Z.lor 0x03200000
                               (Z.land (Z.shiftr data 24) 0x0020))
                        (Z.land (Z.shiftr data 22) 0x0300)) g
  | BOARD_REV_2 =>
      let g := write_ODR SOCKET_D0_PORT data g in
      write_ODR (SOCKET_D16_PORT rev) (Z.shiftr data 16) g
  end.

(** data_input(): the value present on the data pins. *)
Definition data_input (rev : board_rev) (g : gpio_state) : Z :=
  match rev with
  | BOARD_REV_1 =>
      Z.lor (Z.lor (Z.lor (Z.lor (Z.lor
        (GPIO_IDR g SOCKET_D0_PORT)
        (wrap32 (Z.shiftl (Z.land (GPIO_IDR g (SOCKET_D16_PORT rev)) 0x00ff) 16)))
        (wrap32 (Z.shiftl (Z.land (GPIO_IDR g SOCKET_D24_PORT) 0x000f) 24)))
        (wrap32 (Z.shiftl (Z.land (GPIO_IDR g SOCKET_D28_PORT) 0x0400) 18)))
        (wrap32 (Z.shiftl (Z.land (GPIO_IDR g SOCKET_D29_PORT) 0x0020) 24)))
        (wrap32 (Z.shiftl (Z.land (GPIO_IDR g SOCKET_D30_PORT) 0x0300) 22))
  | BOARD_REV_2 =>
      Z.lor (GPIO_IDR g SOCKET_D0_PORT)
            (wrap32 (Z.shiftl (GPIO_IDR g (SOCKET_D16_PORT rev)) 16))
  end.

(** data_output_enable(): the data pins become outputs. *)
Definition data_output_enable (rev : board_rev) (g : gpio_state)
    : gpio_state :=
  match rev with
  | BOARD_REV_1 =>
      let g := write_CRL SOCKET_D0_PORT 0x11111111 g in
      let g := write_CRH SOCKET_D0_PORT 0x11111111 g in
      let g := write_CRL (SOCKET_D16_PORT rev) 0x11111111 g in
      let g := write_CRL SOCKET_D24_PORT
                 (Z.lor 0x00001111
                        (Z.land (GPIO_CRL g SOCKET_D24_PORT)
                                (not32 0x0000ffff))) g in
      let g := write_CRH SOCKET_D28_PORT
                 (Z.lor 0x00000100
                        (Z.land (GPIO_CRH g SOCKET_D28_PORT)
                                (not32 0x00000f00))) g in
      let g := write_CRL SOCKET_D29_PORT
                 (Z.lor 0x00100000
                        (Z.land (GPIO_CRL g SOCKET_D29_PORT)
                                (not32 0x00f00000))) g in
      write_CRH SOCKET_D30_PORT
                (Z.lor 0x00000011
                       (Z.land (GPIO_CRH g SOCKET_D30_PORT)
                               (not32 0x000000ff))) g
  | BOARD_REV_2 =>
      let g := write_CRL SOCKET_D0_PORT 0x11111111 g in
      let g := write_CRH SOCKET_D0_PORT 0x11111111 g in
      let g := write_CRL (SOCKET_D16_PORT rev) 0x11111111 g in
      write_CRH (SOCKET_D16_PORT rev) 0x11111111 g
  end.

(** data_output_disable(): the data pins go back to inputs, pulled
    down. *)
Definition data_output_disable (rev : board_rev) (g : gpio_state)
    : gpio_state :=
  let g :=
    match rev with
    | BOARD_REV_1 =>
        let g := write_CRL SOCKET_D0_PORT 0x88888888 g in
        let g := write_CRH SOCKET_D0_PORT 0x88888888 g in
        let g := write_CRL (SOCKET_D16_PORT rev) 0x88888888 g in
        let g := write_CRL SOCKET_D24_PORT
                   (Z.lor 0x00008888
                          (Z.land (GPIO_CRL g SOCKET_D24_PORT)
                                  (not32 0x0000ffff))) g in
        let g := write_CRH SOCKET_D28_PORT
                   (Z.lor 0x00000800
                          (Z.land (GPIO_CRH g SOCKET_D28_PORT)
                                  (not32 0x00000f00))) g in
        let g := write_CRL SOCKET_D29_PORT
                   (Z.lor 0x00800000
                          (Z.land (GPIO_CRL g SOCKET_D29_PORT)
                                  (not32 0x00f00000))) g in
        write_CRH SOCKET_D30_PORT
                  (Z.lor 0x00000088
                         (Z.land (GPIO_CRH g SOCKET_D30_PORT)
                                 (not32 0x000000ff))) g
    | BOARD_REV_2 =>
        let g := write_CRL SOCKET_D0_PORT 0x88888888 g in
        let g := write_CRH SOCKET_D0_PORT 0x88888888 g in
        let g := write_CRL (SOCKET_D16_PORT rev) 0x88888888 g in
        write_CRH (SOCKET_D16_PORT rev) 0x88888888 g
    end in
  data_output rev 0 g.

(** The configuration of pin [k] of port [p]: its 4 bits of CRL or
    CRH. *)
Definition pin_mode (g : gpio_state) (p : gpio_port) (k : Z) : Z :=
  if k <? 8 then Z.land (Z.shiftr (GPIO_CRL g p) (4 * k)) 0xf
  else Z.land (Z.shiftr (GPIO_CRH g p) (4 * (k - 8))) 0xf.

End Pins.

(** ** Vocabulary of the specification *)

(** The command mask that ee_enable() derives from the bus-width mode. *)
Definition mask_of_mode (m : bus_mode) : Z :=
  match m with
  | EE_MODE_32 => 0xffffffff
  | EE_MODE_16_LOW => 0x0000ffff
  | EE_MODE_16_HIGH => 0xffff0000
  end.

Definition valid_mask (mask : Z) : Prop :=
  mask = 0xffffffff \/ mask = 0x0000ffff \/ mask = 0xffff0000.

(** *** The completion monitor *)

(** The k-th masked status word that a poll loop entered in state [s]
    reads, and the elapsed time it computes in its k-th iteration. *)
Definition status_at (s : driver) (k : nat) : Z :=
  Z.land (wrap32 (bus_data (hw s) (n_reads s + k))) (ee_cmd_mask s).

Definition usecs_at (s : driver) (start : Z) (k : nat) : Z :=
  wrap64 (timer_tick_to_usec (hw s)
            (wrap64 (wrap64 (timer_ticks (hw s) (n_ticks s + k)) - start))).

(** The same two sequences for a call of ee_wait_for_done_status()
    entered in state [s]: the call first reads the timer once. *)
Definition mon_status (s : driver) (k : nat) : Z := status_at s k.

Definition mon_usecs (s : driver) (k : nat) : Z :=
  wrap64 (timer_tick_to_usec (hw s)
            (wrap64 (wrap64 (timer_ticks (hw s) (S (n_ticks s) + k))
                     - wrap64 (timer_ticks (hw s) (n_ticks s))))).

Definition failing (status : Z) : bool := negb (Z.land status FAIL_BITS =? 0).

(** Number of samples among the first [k] that show a failure bit. *)
Fixpoint fail_count (st : nat -> Z) (k : nat) : Z :=
  match k with
  | O => 0
  | S k' => (if failing (st 0%nat) then 1 else 0)
            + fail_count (fun j => st (S j)) k'
  end.

(** Read [k] equals the value the monitor remembers from before: the
    previous read, or [l0] (the initial [lstatus]) for the first read. *)
Definition same_as_last (l0 : Z) (st : nat -> Z) (k : nat) : bool :=
  st k =? match k with O => l0 | S k' => st k' end.

(** The monitor's completion condition at read [k]: the comparison with
    the remembered value succeeds at [k] and had succeeded just before
    ([c0] is the initial [same_count]). *)
Definition settled (l0 c0 : Z) (st : nat -> Z) (k : nat) : bool :=
  same_as_last l0 st k
  && match k with O => 1 <=? c0 | S k' => same_as_last l0 st k' end.

(** The elapsed time the loop condition sees before iteration [k]. *)
Definition usecs_before (u0 : Z) (us : nat -> Z) (k : nat) : Z :=
  match k with O => u0 | S k' => us k' end.

(** The platform's clock lets every poll of at most [fuel] iterations
    reach [timeout]. *)
Definition clock_live (p : platform) (fuel : nat) (timeout : Z) : Prop :=
  forall n : nat, exists j : nat,
    (j < fuel)%nat /\
    timeout <= wrap64 (timer_tick_to_usec p
                 (wrap64 (wrap64 (timer_ticks p (S n + j))
                          - wrap64 (timer_ticks p n)))).

(** The status the monitor persists when it gives up: a failure when the
    last status word shows a failure bit, a timeout otherwise. *)
Definition fault_status (mode last : Z) : Z :=
  if failing last then
    if mode =? EE_MODE_ERASE then EE_STATUS_ERASE_FAILURE
    else EE_STATUS_PROG_FAILURE
  else
    if mode =? EE_MODE_ERASE then EE_STATUS_ERASE_TIMEOUT
    else EE_STATUS_PROG_TIMEOUT.

(** The events a status poll adds by itself: read cycles and console
    messages. *)
Definition poll_event (e : event) : Prop :=
  match e with
  | EvRead _ _ | EvPrint _ => True
  | _ => False
  end.

(** [P] holds of every index below [n]. *)
Fixpoint all_below (P : nat -> Prop) (n : nat) : Prop :=
  match n with
  | O => True
  | S n' => all_below P n' /\ P n'
  end.

(** *** Program verify *)

(** Bit-level reading of a verify mismatch: [value] is the word to
    program, [rvalue] the word read back. *)
Definition differs (mask value rvalue i : Z) : Prop :=
  Z.testbit mask i = true /\ Z.testbit value i <> Z.testbit rvalue i.

Definition must_clear (value rvalue i : Z) : Prop :=   (* 1 -> 0 *)
  Z.testbit rvalue i = true /\ Z.testbit value i = false.

Definition must_set (value rvalue i : Z) : Prop :=     (* 0 -> 1 *)
  Z.testbit rvalue i = false /\ Z.testbit value i = true.

(** *** Erase units and sectors *)

(** The geometries the erase loop is meant for: non-empty blocks and
    boot sectors, at most 8 boot sectors per block (one per bit of the
    erase map). *)
Definition geometry_ok (cb : chip_blocks_t) : Prop :=
  0 < cb_ssize cb /\ 0 < cb_bsize cb /\
  cb_bsize cb <= 8 * cb_ssize cb /\ cb_bsize cb < 2 ^ 22.

(** The first [n] erase units from [addr] on: the address each
    sector-erase command is written to and the unit's size. *)
Fixpoint unit_chain (cb : chip_blocks_t) (addr : Z) (n : nat)
    : list (Z * Z) :=
  match n with
  | O => []
  | S n' =>
      (erase_address cb addr, unit_size cb addr)
      :: unit_chain cb (wrap32 (addr + unit_size cb addr)) n'
  end.

Definition sum_sizes (units : list (Z * Z)) : Z :=
  fold_right (fun u acc => snd u + acc) 0 units.

Definition erase_cmd_events (mask : Z) (units : list (Z * Z)) : list event :=
  map (fun u => EvWrite (fst u) (Z.land SECTOR_ERASE_CMD mask)) units.

Definition is_sector_erase_cmd (mask : Z) (e : event) : bool :=
  match e with
  | EvWrite _ data => data =? Z.land SECTOR_ERASE_CMD mask
  | _ => false
  end.

Definition count_erase_cmds (mask : Z) (evs : list event) : nat :=
  List.length (filter (is_sector_erase_cmd mask) evs).

(** Specification of the sector layout, following the chip table's
    comments: bit j of the erase map set means that an erase sector
    starts at sub-sector j of the boot block.  [spec_first_sub] is the
    first sub-sector of the sector that contains sub-sector [snum]. *)
Fixpoint spec_first_sub (map : Z) (snum : nat) : nat :=
  match snum with
  | O => O
  | S j => if Z.testbit map (Z.of_nat snum) then snum
           else spec_first_sub map j
  end.

(** Specification: the boundary (first word) of the erase sector that
    encloses [addr]. *)
Definition spec_sector_start (cb : chip_blocks_t) (addr : Z) : Z :=
  let bsize := cb_bsize cb * 1024 in
  let ssize := cb_ssize cb * 1024 in
  let bnum := addr / bsize in
  if bnum =? cb_bbnum cb then
    bnum * bsize
    + ssize * Z.of_nat (spec_first_sub (cb_map cb)
                          (Z.to_nat ((addr mod bsize) / ssize)))
  else bnum * bsize.

(** Specification: the erase map says that a sector ends at sub-sector
    [m], the first index after [snum] that is marked or is the end of
    the boot block. *)
Definition spec_next_boundary (map snum m : Z) : Prop :=
  snum < m <= 8 /\
  (m = 8 \/ Z.testbit map m = true) /\
  (forall j, snum < j < m -> Z.testbit map j = false).

(** *** Words on the bus *)

(** The [n] words the driver reads from the [k]-th read on. *)
Fixpoint bus_samples (p : platform) (k n : nat) : list Z :=
  match n with
  | O => []
  | S n' => wrap32 (bus_data p k) :: bus_samples p (S k) n'
  end.

(** One read cycle per value, at consecutive addresses from [addr]. *)
Fixpoint read_cycles (addr : Z) (vals : list Z) : list event :=
  match vals with
  | [] => []
  | v :: rest => EvRead addr v :: read_cycles (addr + 1) rest
  end.

(** The word ee_read() stores for a sample, by bus-width mode. *)
Definition stored_word (m : bus_mode) (value : Z) : Z :=
  match m with
  | EE_MODE_32 => value
  | EE_MODE_16_LOW => value mod 2 ^ 16
  | EE_MODE_16_HIGH => value / 2 ^ 16
  end.

(** The word a 16-bit command code puts on the data bus, by bus-width
    mode: on both halves, on the low half, on the high half. *)
Definition bus_word (m : bus_mode) (c : Z) : Z :=
  match m with
  | EE_MODE_32 => 65536 * c + c
  | EE_MODE_16_LOW => c
  | EE_MODE_16_HIGH => 65536 * c
  end.

(** The low and the high half of a 32-bit word. *)
Definition lo16 (x : Z) : Z := x mod 65536.

Definition hi16 (x : Z) : Z := x / 65536.

(** The two identification words of ee_id(): the codes of the device
    that ee_mode selects first, those of the other device second. *)
Definition id_parts (m : bus_mode) (low high : Z) : Z * Z :=
  let low_device := 65536 * lo16 low + lo16 high in
  let high_device := 65536 * hi16 low + hi16 high in
  match m with
  | EE_MODE_16_HIGH => (high_device, low_device)
  | _ => (low_device, high_device)
  end.

(** *** Interrupts and program sequences *)

(** Whether the USB interrupts are masked after [evs], given whether
    they were before: the last mask or unmask decides. *)
Definition irq_masked (evs : list event) (before : bool) : bool :=
  fold_left (fun b e => match e with
                        | EvIrqMask => true
                        | EvIrqUnmask => false
                        | _ => b
                        end) evs before.

(** Number of program sequences among [evs]: ee_write() masks the
    interrupts once per sequence and nowhere else. *)
Definition count_programs (evs : list event) : nat :=
  List.length (filter (fun e => match e with EvIrqMask => true | _ => false end)
                      evs).

(** What the verify step of ee_write() makes of a word [value] that
    reads back as [rvalue]: accepted, mismatch that can be retried,
    mismatch that cannot. *)
Inductive verify_verdict : Type := VerifyOk | VerifyRetry | VerifyFail.

Definition verify (mask value rvalue : Z) : verify_verdict :=
  let xvalue := Z.land (Z.lxor value rvalue) mask in
  if xvalue =? 0 then VerifyOk
  else if Z.land xvalue (not32 rvalue) =? 0 then VerifyRetry
  else VerifyFail.

(** *** Platforms *)

(** A device that answers every read with the word [r]. *)
Definition steady_device (p : platform) (r : Z) : Prop :=
  forall k : nat, wrap32 (bus_data p k) = r.

(** Up to four consecutive timer readings are less than [T]
    microseconds apart. *)
Definition clock_fast (p : platform) (T : Z) : Prop :=
  forall (n k : nat), (k <= 3)%nat ->
    wrap64 (timer_tick_to_usec p
              (wrap64 (wrap64 (timer_ticks p (n + k))
                       - wrap64 (timer_ticks p n)))) < T.

(** *** Sector layout *)

(** The sector layout of a geometry, checked sub-sector by sub-sector:
    at every sector boundary [a] of the device the erase command goes to
    [a] itself, the erase unit is the sector (every sub-sector up to
    [a + unit_size] belongs to it) and ends on a boundary inside the
    device. *)
Definition sector_layout_ok (cb : chip_blocks_t) : bool :=
  forallb (fun i =>
    let a := 4096 * Z.of_nat i in
    let u := unit_size cb a in
    if spec_sector_start cb a =? a then
      (erase_address cb a =? a) && (u mod 4096 =? 0) && (0 <? u)
      && (a + u <=? EE_DEVICE_SIZE)
      && (spec_sector_start cb (a + u) =? a + u)
      && forallb (fun j => spec_sector_start cb (a + 4096 * Z.of_nat j) =? a)
                 (seq 0 (Z.to_nat (u / 4096)))
    else true) (seq 0 256).

(** *** The snoop as a bounded queue *)

(** The queue of addresses that ee_snoop() implements with its ring
    buffer: the captures not yet printed, and the three counters. *)
Record snoop_queue : Type := {
  q_pending : list Z;      (* captured and not yet printed, oldest first *)
  q_laddr : Z;
  q_iters : Z;
  q_no_data : Z
}.

(** One pass of the loop on the queue: with OE# high for more than 30
    passes in a row the queue is printed on one line and emptied; with
    OE# low an address that differs from the last one captured is
    appended, unless 31 addresses wait already, in which case the pass
    changes nothing. *)
Definition queue_iter (q : snoop_queue) (i : snoop_input)
    : option snoop_queue * list snoop_out :=
  if oe_pin i then
    if q_no_data q <? 30 then
      (Some {| q_pending := q_pending q; q_laddr := q_laddr q;
               q_iters := q_iters q;
               q_no_data := wrap32 (q_no_data q + 1) |}, [])
    else
      let out := match q_pending q with
                 | [] => []
                 | _ => map SnoopAddr (q_pending q) ++ [SnoopNewline]
                 end in
      if break_pending i then (None, out)
      else (Some {| q_pending := []; q_laddr := q_laddr q; q_iters := 0;
                    q_no_data := wrap32 (q_no_data q + 1) |}, out)
  else
    let addr := address_pins i in
    let changed := negb (addr =? q_laddr q) in
    if changed && (31 <=? List.length (q_pending q))%nat then (Some q, [])
    else
      let pending := if changed then q_pending q ++ [addr] else q_pending q in
      if 30 <=? q_iters q then
        if break_pending i then (None, [])
        else (Some {| q_pending := pending; q_laddr := addr; q_iters := 0;
                      q_no_data := 0 |}, [])
      else (Some {| q_pending := pending; q_laddr := addr;
                    q_iters := wrap32 (q_iters q + 1); q_no_data := 0 |}, []).

Fixpoint queue_loop (inputs : list snoop_input) (q : snoop_queue)
    : list snoop_out * option snoop_queue :=
  match inputs with
  | [] => ([], Some q)
  | i :: rest =>
      match queue_iter q i with
      | (None, out) => (out ++ [SnoopBreak], None)
      | (Some q', out) =>
          let r := queue_loop rest q' in (out ++ fst r, snd r)
      end
  end.

Definition queue_init : snoop_queue :=
  {| q_pending := []; q_laddr := 0xffffffff; q_iters := 0; q_no_data := 0 |}.

(** The state of the loop is well formed: both indices inside the
    array. *)
Definition snoop_inv (st : snoop_state) : Prop :=
  0 <= sn_cons st < CAPTURES /\ 0 <= sn_prod st < CAPTURES /\
  List.length (sn_captures st) = Z.to_nat CAPTURES.

(** The captures between [cons] and [prod]. *)
Fixpoint ring_slice (captures : list Z) (from : Z) (n : nat) : list Z :=
  match n with
  | O => []
  | S n' => nth (Z.to_nat from) captures 0
            :: ring_slice captures (ring_next from) n'
  end.

(** The number of captures between [cons] and [prod], and the captures
    themselves, oldest first. *)
Definition ring_count (st : snoop_state) : nat :=
  Z.to_nat ((sn_prod st - sn_cons st) mod CAPTURES).

Definition ring_pending (st : snoop_state) : list Z :=
  ring_slice (sn_captures st) (sn_cons st) (ring_count st).

(** The queue that a state of the loop implements. *)
Definition queue_of (st : snoop_state) : snoop_queue :=
  {| q_pending := ring_pending st; q_laddr := sn_laddr st;
     q_iters := sn_iters st; q_no_data := sn_no_data st |}.

(** *** Pins of the two buses *)

(** The pins of the address bus and of the data bus, by layout. *)
Definition address_pin (rev : Pins.board_rev) (p : Pins.gpio_port) (k : Z)
    : bool :=
  match rev, p with
  | Pins.BOARD_REV_1, Pins.GPIOE => true
  | Pins.BOARD_REV_1, Pins.GPIOC => (6 <=? k) && (k <=? 9)
  | Pins.BOARD_REV_2, Pins.GPIOC => k <=? 12
  | Pins.BOARD_REV_2, Pins.GPIOA => (1 <=? k) && (k <=? 7)
  | _, _ => false
  end.

Definition data_pin (rev : Pins.board_rev) (p : Pins.gpio_port) (k : Z)
    : bool :=
  match rev, p with
  | Pins.BOARD_REV_1, Pins.GPIOD => true
  | Pins.BOARD_REV_1, Pins.GPIOA => k <=? 7
  | Pins.BOARD_REV_1, Pins.GPIOC => (k <=? 3) || (k =? 10)
  | Pins.BOARD_REV_1, Pins.GPIOB => (k =? 5) || (k =? 8) || (k =? 9)
  | Pins.BOARD_REV_2, Pins.GPIOD => true
  | Pins.BOARD_REV_2, Pins.GPIOE => true
  | _, _ => false
  end.

(** Pins outside the address bus whose configuration the BOARD_REV 2+
    code writes along with it. *)
Definition stray_pin (rev : Pins.board_rev) (p : Pins.gpio_port) (k : Z)
    : bool :=
  match rev, p with
  | Pins.BOARD_REV_2, Pins.GPIOC => 13 <=? k
  | Pins.BOARD_REV_2, Pins.GPIOA => k =? 0
  | _, _ => false
  end.

(** ** Bus traffic of the commands *)

(** The state a command leaves behind: the tick counter was read once
    for [ee_last_access] and [evs] went over the bus. *)
Definition after_cmd (s : driver) (evs : list event) : driver :=
  set_trace (trace s ++ evs)
    (set_ee_last_access (wrap64 (timer_ticks (hw s) (n_ticks s)))
       (set_n_ticks (S (n_ticks s)) s)).

(** Commands that ee_cmd() sends without the unlock sequence. *)
Definition no_unlock (cmd : Z) : bool :=
  let op := Z.land cmd 0xffff in
  (op =? 0x98) || (op =? 0xf0) || (op =? 0xb0) || (op =? 0x30).

(** The status-clear command: read/reset written to word 0, then the
    read-mode command. *)
Definition status_clear_events (mask : Z) : list event :=
  [EvWrite 0x000 (Z.land 0x00f000f0 mask); EvDelayUsec 2;
   EvWrite 0x555 (Z.land 0x00f000f0 mask); EvDelayUsec 2].

(** The bus traffic of ee_id() and of the five unlock cycles that open
    every erase. *)
Definition id_events (mask low high : Z) : list event :=
  [EvIrqMask;
   EvWrite 0x555 (Z.land 0x00aa00aa mask);
   EvWrite 0x2aa (Z.land 0x00550055 mask);
   EvWrite 0x555 (Z.land 0x00900090 mask);
   EvIrqUnmask; EvDelayUsec 2;
   EvRead 0 low; EvRead 1 high;
   EvWrite 0x555 (Z.land 0x00f000f0 mask); EvDelayUsec 2].

Definition erase_unlock_events (mask : Z) : list event :=
  [EvIrqMask;
   EvWrite 0x555 (Z.land 0x00aa00aa mask);
   EvWrite 0x2aa (Z.land 0x00550055 mask);
   EvWrite 0x555 (Z.land 0x00800080 mask);
   EvWrite 0x555 (Z.land 0x00aa00aa mask);
   EvWrite 0x2aa (Z.land 0x00559055 mask)].

(** The read-mode command on the bus. *)
Definition read_mode_events (mask : Z) : list event :=
  [EvWrite 0x555 (Z.land 0x00f000f0 mask); EvDelayUsec 2].

(** The command cycles of one erase pass: the chip-erase command, or one
    sector-erase command per unit. *)
Definition erase_pass_cmds (mask mode : Z) (units : list (Z * Z)) : list event :=
  if mode =? MX_ERASE_MODE_CHIP then [EvWrite 0x555 (Z.land 0x00100010 mask)]
  else erase_cmd_events mask units.

(** The bus cycles of one word program: unlock, program command, the
    word itself, under masked interrupts. *)
Definition program_events (mask addr word : Z) : list event :=
  [EvIrqMask;
   EvWrite 0x555 (Z.land 0x00aa00aa mask);
   EvWrite 0x2aa (Z.land 0x00550055 mask);
   EvWrite 0x555 (Z.land 0x00a000a0 mask);
   EvWrite addr (Z.land word mask);
   EvIrqUnmask].

(** The bus traffic of ee_status_read(): the status command behind the
    unlock cycles, one read of word 0, the read-mode command. *)
Definition status_read_events (mask data : Z) : list event :=
  [EvIrqMask;
   EvWrite 0x555 (Z.land 0x00aa00aa mask);
   EvWrite 0x2aa (Z.land 0x00550055 mask);
   EvWrite 0x555 (Z.land 0x00700070 mask);
   EvIrqUnmask; EvDelayUsec 2;
   EvRead 0 data;
   EvWrite 0x555 (Z.land 0x00f000f0 mask); EvDelayUsec 2].

(** *** The attempts of ee_write() *)

(** What one attempt at a word shows on the bus: the reads and messages
    of the completion monitor, whether the monitor reported a program
    failure, and the word read back for the verify (read only when it
    did not). *)
Record attempt : Type := {
  a_poll : list event;
  a_failed : bool;
  a_rvalue : Z
}.

(** The bus traffic of an attempt to program [value] at [addr]: the
    program sequence and the poll, then the status-clear command after
    a program failure, the read back otherwise. *)
Definition attempt_events (mask addr value : Z) (a : attempt) : list event :=
  program_events mask addr value ++ a_poll a
  ++ (if a_failed a then status_clear_events mask
      else [EvRead addr (a_rvalue a)]).

(** The verify step in the words of the specification: the word read
    back differs under the mask; every differing bit has to go from 1
    to 0; some differing bit has to go from 0 to 1. *)
Definition mismatch (mask value rvalue : Z) : Prop :=
  exists i, differs mask value rvalue i.

Definition only_clears (mask value rvalue : Z) : Prop :=
  forall i, differs mask value rvalue i -> must_clear value rvalue i.

Definition needs_set (mask value rvalue : Z) : Prop :=
  exists i, differs mask value rvalue i /\ must_set value rvalue i.

(** An attempt that may be repeated: a program failure reported by the
    monitor, or a mismatch in which every differing bit has to go from
    1 to 0. *)
Definition retryable (mask value : Z) (a : attempt) : Prop :=
  Forall poll_event (a_poll a) /\
  (a_failed a = true \/
   (a_failed a = false /\ mismatch mask value (a_rvalue a) /\
    only_clears mask value (a_rvalue a))).

(** The last attempt at a word, made after [retries] retries, and the
    result [rc] it gives: 0 for a word that verifies; 3 for a program
    failure when both retries are used up; 4 for a mismatch with a bit
    that has to go from 0 to 1, or for any mismatch when both retries
    are used up. *)
Definition final_attempt (mask value : Z) (retries : nat) (a : attempt)
    (rc : Z) : Prop :=
  Forall poll_event (a_poll a) /\
  ((rc = 0 /\ a_failed a = false /\ ~ mismatch mask value (a_rvalue a)) \/
   (rc = 3 /\ a_failed a = true /\ retries = 2%nat) \/
   (rc = 4 /\ a_failed a = false /\
    (needs_set mask value (a_rvalue a) \/
     (mismatch mask value (a_rvalue a) /\ retries = 2%nat)))).

(** The attempts at one word that ends with result [rc], the first
    made after [tries] retries: at most two retries in all, each after a
    [retryable] attempt. *)
Definition word_log_from (tries : nat) (mask value : Z) (log : list attempt)
    (rc : Z) : Prop :=
  exists pre last,
    log = pre ++ [last] /\ (tries + List.length pre <= 2)%nat /\
    Forall (retryable mask value) pre /\
    final_attempt mask value (tries + List.length pre) last rc.

Definition word_log : Z -> Z -> list attempt -> Z -> Prop := word_log_from 0.

(** The bus traffic of the attempts [logs], one list per word, from
    [addr] on. *)
Fixpoint write_events (mask : Z) (mode : bus_mode) (addr : Z)
    (data : list Z) (logs : list (list attempt)) : list event :=
  match logs with
  | [] => []
  | log :: rest =>
      flat_map (attempt_events mask addr (load_value mode (hd 0 data))) log
      ++ write_events mask mode (addr + 1) (tl data) rest
  end.

(** [logs] holds the attempts of a write of [n] words that returns
    [rc]: one list per word in buffer order, every word verified but
    the last one when [rc] is not 0, and no word after that one. *)
Fixpoint write_log (mask : Z) (mode : bus_mode) (data : list Z) (n : nat)
    (logs : list (list attempt)) (rc : Z) : Prop :=
  match n, logs with
  | O, [] => rc = 0
  | S n', log :: rest =>
      let value := load_value mode (hd 0 data) in
      (word_log mask value log 0 /\
       write_log mask mode (tl data) n' rest rc) \/
      (rest = [] /\ rc <> 0 /\ word_log mask value log rc)
  | _, _ => False
  end.

(** What ee_write() does after the last attempt: the read-mode command
    when all words verified, the message of the failure otherwise. *)
Definition write_tail (mask rc : Z) : list event :=
  if rc =? 0 then read_mode_events mask
  else if rc =? 3 then [EvPrint "  Program failed at 0x%lx\n"]
  else [EvPrint "  Program mismatch at 0x%lx\n"].

(** ** Simulated devices *)

(** The driver's variables as the C file initialises them. *)
Definition driver_init (p : platform) : driver :=
  {| hw := p; ee_mode := EE_MODE_16_LOW; ee_cmd_mask := 0;
     ee_status := EE_STATUS_NORMAL; ticks_per_15_nsec := 0;
     ticks_per_20_nsec := 0; ticks_per_30_nsec := 0;
     ee_last_access := 0; ee_enabled := false;
     n_ticks := 0; n_reads := 0; trace := [] |}.

(** A device whose data pins show [samples] in turn (then 0), behind a
    timer that advances [step] microseconds per reading. *)
Definition sim_platform (samples : list Z) (step : Z) : platform :=
  {| timer_ticks := fun k => step * Z.of_nat k;
     timer_tick_to_usec := fun t => t;
     timer_nsec_to_tick := fun n => n;
     bus_data := fun k => nth k samples 0 |}.

(** The driver after ee_enable() in bus-width mode [m]. *)
Definition sim_driver (p : platform) (m : bus_mode) : driver :=
  match ee_enable (set_ee_mode m (driver_init p)) with
  | Some (_, s) => s
  | None => driver_init p
  end.

(** An erased device that answers every read with 0, on a timer of one
    microsecond per reading, driven in 16-bit low mode. *)
Definition blank_driver : driver :=
  sim_driver (sim_platform [] 1) EE_MODE_16_LOW.

(** A device whose status word toggles three times and then holds
    0x80, on a timer of 50 microseconds per reading. *)
Definition toggling_driver : driver :=
  sim_driver (sim_platform [0x44; 0x00; 0x44; 0x80; 0x80; 0x80] 50)
             EE_MODE_16_LOW.

(** A device that shows the same status word twice and then keeps
    changing, on a timer of 100 microseconds per reading. *)
Definition restless_driver : driver :=
  sim_driver (sim_platform [5; 5; 6; 7] 100) EE_MODE_16_LOW.

(** An MX29F800CB (manufacturer 0x00c2, device 0x2258) that answers the
    two identification reads and then shows a steady 0. *)
Definition mx29f800cb_driver : driver :=
  sim_driver (sim_platform [0x00c2; 0x2258] 1) EE_MODE_16_LOW.

(** A blank device behind a timer of three seconds per reading. *)
Definition slow_clock_driver : driver :=
  sim_driver (sim_platform [] 3000000) EE_MODE_16_LOW.

(** A device whose cell at 0x100 reads back 0x1235 after the first
    program of 0x1234 and 0x1234 after the second. *)
Definition stubborn_driver : driver :=
  sim_driver (sim_platform [0; 0; 0x1235; 0; 0; 0x1234] 1) EE_MODE_16_LOW.

(** A device whose status word keeps toggling with the failure bit
    set, on a timer of one microsecond per reading. *)
Definition failing_driver : driver :=
  sim_driver (sim_platform [0x20; 0x60; 0x20; 0x60; 0x20; 0x60; 0x20] 1)
             EE_MODE_16_LOW.

(** A blank device behind a timer that advances 2^32 microseconds per
    reading: every poll gives up after one read. *)
Definition coarse_clock_driver : driver :=
  sim_driver (sim_platform [] 4294967296) EE_MODE_16_LOW.

(** A blank device driven as the high half of the bus. *)
Definition high_device_driver : driver :=
  sim_driver (sim_platform [] 1) EE_MODE_16_HIGH.

(** A device that answers every read with [r], behind a timer that
    advances [step] microseconds per reading. *)
Definition steady_platform (r step : Z) : platform :=
  {| timer_ticks := fun k => step * Z.of_nat k;
     timer_tick_to_usec := fun t => t;
     timer_nsec_to_tick := fun n => n;
     bus_data := fun _ => r |}.

(** A cell that holds 0x1234 and is not erased before the next
    program. *)
Definition programmed_driver : driver :=
  sim_driver (steady_platform 0x1234 1) EE_MODE_16_LOW.

(** [n] passes with OE# low and a new address each, no break pending. *)
Definition busy_bus (n : nat) : list snoop_input :=
  map (fun k => {| oe_pin := false; address_pins := Z.of_nat k;
                   break_pending := false |}) (seq 1 n).

(** The GPIO ports after reset: every pin a floating input, every
    output latch 0. *)
Definition gpio_reset : Pins.gpio_state :=
  fun _ => {| Pins.CRL := 0x44444444; Pins.CRH := 0x44444444;
              Pins.ODR := 0 |}.

(** A device whose status word toggles with the failure bit set, on a
    timer of 200 microseconds per reading: a program poll of 360
    microseconds ends on the timeout after two reads. *)
Definition flagging_driver : driver :=
  sim_driver (sim_platform [0x20; 0x60] 200) EE_MODE_16_LOW.

(** A device with two worn cells: the word at 0x100 reads back 0x1235
    after the first two programs of 0x1234 and the one at 0x101 reads
    back 0x00f1 after the first two programs of 0x00f0; each program
    shows a settled status at once. *)
Definition worn_driver : driver :=
  sim_driver (sim_platform [0; 0; 0x1235; 0; 0; 0x1235; 0; 0; 0x1234;
                            0; 0; 0x00f1; 0; 0; 0x00f1; 0; 0; 0x00f0] 1)
             EE_MODE_16_LOW.

(** An attempt whose poll read a settled 0 twice and whose read back
    gave [rvalue]. *)
Definition quiet_attempt (rvalue : Z) : attempt :=
  {| a_poll := [EvRead 0 0; EvRead 0 0]; a_failed := false;
     a_rvalue := rvalue |}.

(** * Properties *)

(** Symbolic execution of the monadic code, for the proofs about one
    loop iteration: unfold the monad and the field updates, then project
    the fields of the resulting records. *)
Ltac run_drv :=
  cbv beta iota zeta delta
      [bind ret gets modify emit printf timer_delay_usec usb_mask_interrupts
       usb_unmask_interrupts timer_tick_get data_input ee_read_word
       ee_write_word when out_of_fuel after_cmd
       set_ee_mode set_ee_cmd_mask set_ee_status set_tick_constants
       set_ee_last_access set_ee_enabled set_n_ticks set_n_reads set_trace];
  cbn [hw ee_mode ee_cmd_mask ee_status ticks_per_15_nsec ticks_per_20_nsec
       ticks_per_30_nsec ee_last_access ee_enabled n_ticks n_reads trace
       fst snd];
  cbv beta iota zeta.

(** The same by [cbn], which keeps the states folded as nested field
    updates; used where several operations run in sequence. *)
Ltac step_drv :=
  cbn [bind ret gets modify emit printf timer_delay_usec usb_mask_interrupts
       usb_unmask_interrupts timer_tick_get data_input ee_read_word
       ee_write_word when out_of_fuel after_cmd
       hw ee_mode ee_cmd_mask ee_status ticks_per_15_nsec ticks_per_20_nsec
       ticks_per_30_nsec ee_last_access ee_enabled n_ticks n_reads trace
       set_ee_mode set_ee_cmd_mask set_ee_status set_tick_constants
       set_ee_last_access set_ee_enabled set_n_ticks set_n_reads set_trace
       fst snd].

(** ** Commands *)

Lemma ee_cmd_plain (s : driver) (addr cmd : Z) :
  (Z.shiftr cmd 16 =? 0) = false -> no_unlock cmd = true ->
  ee_cmd addr cmd s =
  Some (tt, after_cmd s [EvWrite addr (Z.land cmd (ee_cmd_mask s));
                         EvDelayUsec 2]).
Proof.
  unfold no_unlock, ee_cmd, after_cmd. intros Hw Hop. run_drv.
  destruct (ee_mode s); rewrite ?Hw; cbv iota; rewrite Hop; run_drv;
    rewrite <- app_assoc; reflexivity.
Qed.

Lemma ee_cmd_unlock (s : driver) (addr cmd : Z) :
  (Z.shiftr cmd 16 =? 0) = false -> no_unlock cmd = false ->
  ee_cmd addr cmd s =
  Some (tt, after_cmd s [EvIrqMask;
                         EvWrite 0x555 (Z.land 0x00aa00aa (ee_cmd_mask s));
                         EvWrite 0x2aa (Z.land 0x00550055 (ee_cmd_mask s));
                         EvWrite addr (Z.land cmd (ee_cmd_mask s));
                         EvIrqUnmask; EvDelayUsec 2]).
Proof.
  unfold no_unlock, ee_cmd, after_cmd. intros Hw Hop. run_drv.
  destruct (ee_mode s); rewrite ?Hw; cbv iota; rewrite Hop; run_drv;
    rewrite <- !app_assoc; reflexivity.
Qed.

Lemma ee_read_mode_run (s : driver) :
  ee_read_mode s =
  Some (tt, after_cmd s [EvWrite 0x555 (Z.land 0x00f000f0 (ee_cmd_mask s));
                         EvDelayUsec 2]).
Proof. apply ee_cmd_plain; reflexivity. Qed.

Lemma ee_status_clear_run (s : driver) :
  exists s', ee_status_clear s = Some (tt, s') /\
    hw s' = hw s /\ ee_mode s' = ee_mode s /\
    ee_cmd_mask s' = ee_cmd_mask s /\ ee_status s' = ee_status s /\
    n_reads s' = n_reads s /\ n_ticks s' = S (S (n_ticks s)) /\
    trace s' = trace s ++ status_clear_events (ee_cmd_mask s).
Proof.
  unfold ee_status_clear, bind.
  rewrite (ee_cmd_plain s 0 0x00f000f0) by reflexivity.
  rewrite ee_read_mode_run. eexists; split; [reflexivity|].
  unfold after_cmd, status_clear_events.
  cbn [hw ee_mode ee_cmd_mask ee_status n_reads n_ticks trace
       set_trace set_ee_last_access set_n_ticks].
  repeat split. rewrite <- app_assoc. reflexivity.
Qed.

(** ** The completion monitor *)

Lemma poll_loop_expired fuel start T v u stv l c f rt s :
  T <= u -> poll_loop fuel start T v u stv l c f rt s = Some (PollLeft u stv, s).
Proof.
  intros H. destruct fuel; cbn [poll_loop];
  (destruct (Z.ltb_spec u T); [lia|reflexivity]).
Qed.

Lemma poll_loop_frame fuel : forall start T v u stv l c f rt s r s',
  poll_loop fuel start T v u stv l c f rt s = Some (r, s') ->
  hw s' = hw s /\ ee_mode s' = ee_mode s /\ ee_cmd_mask s' = ee_cmd_mask s /\
  (exists evs, trace s' = trace s ++ evs /\ Forall poll_event evs) /\
  match r with
  | PollDone => ee_status s' = EE_STATUS_NORMAL
  | PollLeft _ _ => ee_status s' = ee_status s
  end.
Proof.
  induction fuel as [|fuel IH]; intros start T v u stv l c f rt s r s';
    cbn [poll_loop].
  - destruct (u <? T); [discriminate|]. intros [= <- <-].
    repeat split. exists []. rewrite app_nil_r. auto.
  - destruct (u <? T).
    2:{ intros [= <- <-]. repeat split. exists []. rewrite app_nil_r. auto. }
    run_drv.
    repeat match goal with
           | |- context [if ?b then _ else _] =>
               lazymatch type of b with bool => destruct b end
           end; run_drv;
    try solve [intros [= <- <-]; run_drv;
               split; [reflexivity|]; split; [reflexivity|];
               split; [reflexivity|]; split; [|reflexivity];
               eexists; split; [rewrite <- ?app_assoc; reflexivity|];
               cbn [app]; repeat (constructor; [exact I|]); constructor];
    intros H; apply IH in H; revert H; run_drv;
    intros (Hhw & Hm & Hk & (evs & Ht & Hev) & Hr);
    (split; [assumption|]; split; [assumption|];
     split; [assumption|]; split; [|assumption];
     eexists; split; [rewrite Ht, <- ?app_assoc; reflexivity|];
     cbn [app]; repeat (constructor; [exact I|]); assumption).
Qed.

Lemma fail_count_nonneg st k : 0 <= fail_count st k.
Proof.
  revert st. induction k as [|k IH]; intro st; cbn [fail_count]; [lia|].
  specialize (IH (fun j => st (S j))). destruct (failing (st 0%nat)); lia.
Qed.

Lemma settled_shift l c l' c' st j :
  l' = st 0%nat -> (1 <=? c') = (st 0%nat =? l) ->
  settled l' c' (fun i => st (S i)) j = settled l c st (S j).
Proof.
  intros -> Hc. unfold settled, same_as_last.
  destruct j as [|[|j]]; rewrite ?Hc; reflexivity.
Qed.

Lemma status_at_0 s st :
  (forall j, status_at s j = st j) ->
  Z.land (wrap32 (bus_data (hw s) (n_reads s))) (ee_cmd_mask s) = st 0%nat.
Proof. intros H. rewrite <- H. unfold status_at. rewrite Nat.add_0_r. reflexivity. Qed.

Lemma usecs_at_0 s start us :
  (forall j, usecs_at s start j = us j) ->
  wrap64 (timer_tick_to_usec (hw s)
            (wrap64 (wrap64 (timer_ticks (hw s) (n_ticks s)) - start))) = us 0%nat.
Proof. intros H. rewrite <- H. unfold usecs_at. rewrite Nat.add_0_r. reflexivity. Qed.

Lemma status_at_next s s' st :
  (forall j, status_at s j = st j) ->
  hw s' = hw s -> ee_cmd_mask s' = ee_cmd_mask s -> n_reads s' = S (n_reads s) ->
  forall j, status_at s' j = st (S j).
Proof.
  intros H Hh Hm Hn j. rewrite <- H. unfold status_at.
  rewrite Hh, Hm, Hn, Nat.add_succ_r. reflexivity.
Qed.

Lemma usecs_at_next s s' start us :
  (forall j, usecs_at s start j = us j) ->
  hw s' = hw s -> n_ticks s' = S (n_ticks s) ->
  forall j, usecs_at s' start j = us (S j).
Proof.
  intros H Hh Hn j. rewrite <- H. unfold usecs_at.
  rewrite Hh, Hn, Nat.add_succ_r. reflexivity.
Qed.

Ltac poll_step Hst Hus Hu0 :=
  cbn [poll_loop]; rewrite Hu0; run_drv;
  rewrite ?(status_at_0 _ _ Hst), ?(usecs_at_0 _ _ _ Hus).

Ltac poll_rec IH s st us :=
  match goal with
  | |- context [poll_loop ?fu ?sta ?T ?v ?u' ?st' ?l' ?c' ?f' ?rt' ?s1] =>
      edestruct (IH fu sta T v u' st' l' c' f' rt' s1
                    (fun j => st (S j)) (fun j => us (S j)))
  end.

Lemma poll_loop_settles k : forall fuel start T v u stv l c f rt s st us,
  (forall j, status_at s j = st j) ->
  (forall j, usecs_at s start j = us j) ->
  (k < fuel)%nat -> 0 <= c ->
  (forall j, (j <= k)%nat -> usecs_before u us j < T) ->
  (forall j, (j < k)%nat -> settled l c st j = false) ->
  settled l c st k = true ->
  f + fail_count st k <= 6 ->
  exists s',
    poll_loop fuel start T v u stv l c f rt s = Some (PollDone, s') /\
    n_reads s' = (n_reads s + S k)%nat /\
    ee_status s' = EE_STATUS_NORMAL.
Proof.
  induction k as [|k IH];
    intros fuel start T v u stv l c f rt s st us Hst Hus Hfuel Hc Hu Hns Hs Hf;
    (destruct fuel as [|fuel]; [lia|]);
    pose proof (Hu 0%nat ltac:(lia)) as Hu0; cbn [usecs_before] in Hu0;
    apply Z.ltb_lt in Hu0; poll_step Hst Hus Hu0.
  - unfold settled, same_as_last in Hs. apply andb_true_iff in Hs as [H1 H2].
    rewrite H1, H2. destruct (v =? 0); run_drv;
      (eexists; split; [reflexivity|]; run_drv; split; [lia|reflexivity]).
  - pose proof (Hns 0%nat ltac:(lia)) as Hs0.
    unfold settled, same_as_last in Hs0.
    cbn [fail_count] in Hf.
    pose proof (fail_count_nonneg (fun j => st (S j)) k) as Hfc.
    destruct (st 0%nat =? l) eqn:El; destruct (1 <=? c) eqn:Ec;
      try discriminate Hs0; run_drv;
      repeat match goal with
             | |- context [if ?b then _ else _] =>
                 lazymatch b with
                 | context [negb (Z.land ?x FAIL_BITS =? 0)] =>
                     change (negb (Z.land x FAIL_BITS =? 0)) with (failing x);
                     destruct (failing x) eqn:Ef; cbn [andb]
                 | 5 <? f => destruct (Z.ltb_spec 5 f); [lia|]
                 | _ => destruct b
                 end; run_drv
             end.
    all: poll_rec IH s st us.
    all: try (apply status_at_next with (s := s); [exact Hst|reflexivity..]).
    all: try (apply usecs_at_next with (s := s); [exact Hus|reflexivity..]).
    all: try lia.
    all: try (intros [|j] Hj; [exact (Hu 1%nat ltac:(lia))
                              |exact (Hu (S (S j)) ltac:(lia))]).
    all: try (intros j Hj;
              rewrite (settled_shift l c _ _ st j);
              [exact (Hns (S j) ltac:(lia))
              |first [reflexivity|symmetry; apply Z.eqb_eq; exact El]
              |rewrite El; first [reflexivity|apply Z.leb_le; lia]]).
    all: try (rewrite (settled_shift l c _ _ st k);
              [exact Hs
              |first [reflexivity|symmetry; apply Z.eqb_eq; exact El]
              |rewrite El; first [reflexivity|apply Z.leb_le; lia]]).
    all: match goal with
         | Hr : _ /\ _ /\ _ |- _ =>
             destruct Hr as (Hrun & Hn & Hfin);
             eexists; split; [exact Hrun|]; split; [|exact Hfin];
             rewrite Hn; cbn [n_reads]; lia
         end.
Qed.

Ltac split_ifs :=
  repeat match goal with
         | |- context [if ?b then _ else _] =>
             lazymatch type of b with bool => destruct b end; run_drv
         end.

Lemma poll_loop_times_out N : forall fuel start T v u stv l c f rt s st us,
  (forall j, status_at s j = st j) ->
  (forall j, usecs_at s start j = us j) ->
  (N <= fuel)%nat -> 0 <= c -> failing stv = false ->
  (forall j, (j < N)%nat -> usecs_before u us j < T) ->
  T <= usecs_before u us N ->
  (forall j, (j < N)%nat -> settled l c st j = false) ->
  (forall j, (j < N)%nat -> failing (st j) = false) ->
  exists s' uu ss,
    poll_loop fuel start T v u stv l c f rt s = Some (PollLeft uu ss, s') /\
    failing ss = false /\
    n_reads s' = (n_reads s + N)%nat /\
    ee_status s' = ee_status s.
Proof.
  induction N as [|N IH];
    intros fuel start T v u stv l c f rt s st us Hst Hus Hfuel Hc Hstv Hu HT
           Hns Hnf.
  - cbn [usecs_before] in HT. rewrite poll_loop_expired by exact HT.
    eexists _, _, _. split; [reflexivity|]. repeat split; [exact Hstv|lia].
  - destruct fuel as [|fuel]; [lia|].
    pose proof (Hu 0%nat ltac:(lia)) as Hu0; cbn [usecs_before] in Hu0;
      apply Z.ltb_lt in Hu0; poll_step Hst Hus Hu0.
    pose proof (Hns 0%nat ltac:(lia)) as Hs0.
    unfold settled, same_as_last in Hs0.
    pose proof (Hnf 0%nat ltac:(lia)) as Hf0.
    destruct (st 0%nat =? l) eqn:El; destruct (1 <=? c) eqn:Ec;
      try discriminate Hs0; run_drv;
      repeat match goal with
             | |- context [if ?b then _ else _] =>
                 lazymatch b with
                 | context [negb (Z.land ?x FAIL_BITS =? 0)] =>
                     change (negb (Z.land x FAIL_BITS =? 0)) with (failing x);
                     rewrite Hf0; cbn [andb]
                 | _ => destruct b
                 end; run_drv
             end.
    all: poll_rec IH s st us.
    all: try (apply status_at_next with (s := s); [exact Hst|reflexivity..]).
    all: try (apply usecs_at_next with (s := s); [exact Hus|reflexivity..]).
    all: try lia.
    all: try exact Hf0.
    all: try (intros [|j] Hj; [exact (Hu 1%nat ltac:(lia))
                              |exact (Hu (S (S j)) ltac:(lia))]).
    all: try (destruct N; exact HT).
    all: try (intros j Hj;
              rewrite (settled_shift l c _ _ st j);
              [exact (Hns (S j) ltac:(lia))
              |first [reflexivity|symmetry; apply Z.eqb_eq; exact El]
              |rewrite El; first [reflexivity|apply Z.leb_le; lia]]).
    all: try (intros j Hj; exact (Hnf (S j) ltac:(lia))).
    all: match goal with
         | Hr : exists _, _ |- _ =>
             destruct Hr as (uu & ss & Hrun & Hss & Hn & Hfin);
             eexists _, uu, ss; split; [exact Hrun|]; split; [exact Hss|];
             split; [rewrite Hn; cbn [n_reads]; lia|exact Hfin]
         end.
Qed.

Lemma poll_loop_terminates j : forall fuel start T v u stv l c f rt s us,
  (forall i, usecs_at s start i = us i) ->
  (j < fuel)%nat -> T <= us j ->
  exists r s', poll_loop fuel start T v u stv l c f rt s = Some (r, s').
Proof.
  induction j as [|j IH];
    intros fuel start T v u stv l c f rt s us Hus Hfuel HT;
    (destruct fuel as [|fuel]; [lia|]);
    (destruct (Z.ltb_spec u T) as [Hu0|Hu0];
     [apply Z.ltb_lt in Hu0
     |rewrite poll_loop_expired by exact Hu0; eauto]);
    cbn [poll_loop]; rewrite Hu0; run_drv;
    rewrite ?(usecs_at_0 _ _ _ Hus); split_ifs; eauto.
  all: try (rewrite poll_loop_expired by exact HT; eauto).
  all: match goal with
       | |- context [poll_loop ?fu ?sta ?T ?v ?u' ?st' ?l' ?c' ?f' ?rt' ?s1] =>
           apply (IH fu sta T v u' st' l' c' f' rt' s1 (fun i => us (S i)))
       end.
  all: try lia.
  all: try exact HT.
  all: apply usecs_at_next with (s := s); [exact Hus|reflexivity..].
Qed.

(** The status word a poll that gives up hands to the classification
    below the loop is the last word it read ([stv] when it read none). *)
Lemma poll_loop_last fuel : forall start T v u stv l c f rt s uu ss s',
  poll_loop fuel start T v u stv l c f rt s = Some (PollLeft uu ss, s') ->
  exists n, n_reads s' = (n_reads s + n)%nat /\
            ss = match n with O => stv | S n' => status_at s n' end.
Proof.
  induction fuel as [|fuel IH]; intros start T v u stv l c f rt s uu ss s';
    cbn [poll_loop].
  - destruct (u <? T); [discriminate|]. intros [= _ <- <-].
    exists 0%nat. split; [lia|reflexivity].
  - destruct (u <? T).
    2:{ intros [= _ <- <-]. exists 0%nat. split; [lia|reflexivity]. }
    run_drv. split_ifs;
    try discriminate;
    try solve [intros [= _ <- <-]; exists 1%nat; run_drv;
               split; [lia|]; unfold status_at; rewrite Nat.add_0_r;
               reflexivity];
    intros H; apply IH in H; revert H; run_drv;
    intros (n & Hn & Hss); exists (S n);
    (split; [lia|]); rewrite Hss; destruct n; unfold status_at; run_drv;
    rewrite ?Nat.add_0_r, ?Nat.add_succ_r; reflexivity.
Qed.

Lemma Forall_poll_event_app a b :
  Forall poll_event a -> Forall poll_event b -> Forall poll_event (a ++ b).
Proof. intros Ha Hb. apply Forall_app. split; assumption. Qed.

Ltac clear_status :=
  match goal with
  | |- context [ee_status_clear ?s1] =>
      let s2 := fresh "s2" in
      let Hrun := fresh "Hrun" in
      destruct (ee_status_clear_run s1)
        as (s2 & Hrun & Hhw2 & Hm2 & Hk2 & Hst2 & Hnr2 & Hnt2 & Htr2);
      rewrite Hrun; revert Hhw2 Hm2 Hk2 Hst2 Hnr2 Hnt2 Htr2; run_drv;
      intros Hhw2 Hm2 Hk2 Hst2 Hnr2 Hnt2 Htr2
  end.

Lemma wait_outcome fuel T v mode s r s' :
  ee_wait_for_done_status fuel T v mode s = Some (r, s') ->
  hw s' = hw s /\ ee_mode s' = ee_mode s /\ ee_cmd_mask s' = ee_cmd_mask s /\
  exists evs,
    Forall poll_event evs /\
    ((r = 0 /\ ee_status s' = EE_STATUS_NORMAL /\
      trace s' = trace s ++ evs) \/
     (r = 1 /\
      (exists n, n_reads s' = (n_reads s + n)%nat /\
         ee_status s' =
         fault_status mode
           match n with O => 0 | S n' => mon_status s n' end) /\
      trace s' = trace s ++ evs ++ status_clear_events (ee_cmd_mask s))).
Proof.
  unfold ee_wait_for_done_status. run_drv.
  destruct (poll_loop fuel _ T v 0 0 0 0 0 0 _) as [[pe s1]|] eqn:Hp;
    [|discriminate].
  pose proof Hp as Hlast.
  apply poll_loop_frame in Hp. revert Hp. run_drv.
  intros (Hhw & Hm & Hk & (evs & Ht & Hev) & Hr).
  destruct pe as [|uu last].
  - intros [= <- <-]. repeat split; try assumption.
    exists evs. split; [assumption|]. left. repeat split; assumption.
  - apply poll_loop_last in Hlast. revert Hlast. run_drv.
    intros (n & Hn & Hlast).
    change (negb (Z.land last FAIL_BITS =? 0)) with (failing last).
    destruct (negb (v =? 0)); run_drv;
      destruct (failing last) eqn:Ef; run_drv; clear_status;
      intros [= <- <-].
    all: split; [rewrite Hhw2; exact Hhw|];
         split; [rewrite Hm2; exact Hm|];
         split; [rewrite Hk2; exact Hk|].
    all: match type of Htr2 with
         | trace _ = ((_ ++ ?A) ++ ?B) ++ _ => exists (evs ++ A ++ B)
         | trace _ = (_ ++ ?B) ++ _ => exists (evs ++ B)
         end.
    all: split;
         [|right; split; [reflexivity|]; split;
           [exists n; split; [rewrite Hnr2; exact Hn|];
            unfold fault_status, mon_status;
            replace (match n with O => 0 | S n' => status_at s n' end)
              with last by (rewrite Hlast; destruct n; reflexivity);
            rewrite Ef, Hst2; reflexivity|]].
    all: try (rewrite Htr2, Hk, Ht, <- !app_assoc; reflexivity).
    all: apply Forall_poll_event_app; [exact Hev|]; repeat constructor.
Qed.

Lemma wait_terminates fuel T v mode s j :
  (j < fuel)%nat -> T <= mon_usecs s j ->
  exists r s', ee_wait_for_done_status fuel T v mode s = Some (r, s').
Proof.
  intros Hj HT. unfold ee_wait_for_done_status. run_drv.
  match goal with
  | |- context [poll_loop ?fu ?sta ?T ?v ?u' ?st' ?l' ?c' ?f' ?rt' ?s1] =>
      assert (Hus : forall i, usecs_at s1 sta i = mon_usecs s i)
        by (intro i; reflexivity);
      destruct (poll_loop_terminates j fu sta T v u' st' l' c' f' rt' s1
                  (mon_usecs s) Hus Hj HT) as (pe & s1' & Hp);
      rewrite Hp
  end.
  destruct pe as [|uu last]; [eauto|].
  split_ifs.
  all: clear_status.
  all: eexists _, _; reflexivity.
Qed.

(** The completion condition from the initial state of the monitor
    ([lstatus] = 0, [same_count] = 0), spelled out. *)
Lemma settled_two_tries st k :
  settled 0 0 st k = true <->
  exists k', k = S k' /\ st (S k') = st k' /\
             st k' = match k' with O => 0 | S k'' => st k'' end.
Proof.
  unfold settled, same_as_last. destruct k as [|k].
  - cbn. rewrite andb_false_r. split; [discriminate|]. intros (k' & H & _).
    discriminate H.
  - rewrite andb_true_iff, !Z.eqb_eq. split.
    + intros [H1 H2]. exists k. auto.
    + intros (k' & [= ->] & H1 & H2). auto.
Qed.

Lemma wait_settles fuel T v mode s k :
  (k < fuel)%nat ->
  (forall j, (j <= k)%nat -> usecs_before 0 (mon_usecs s) j < T) ->
  (forall j, (j < k)%nat -> settled 0 0 (mon_status s) j = false) ->
  settled 0 0 (mon_status s) k = true ->
  fail_count (mon_status s) k <= 6 ->
  exists s', ee_wait_for_done_status fuel T v mode s = Some (0, s') /\
             ee_status s' = EE_STATUS_NORMAL /\
             n_reads s' = (n_reads s + S k)%nat.
Proof.
  intros Hk Hu Hns Hs Hf. unfold ee_wait_for_done_status. run_drv.
  match goal with
  | |- context [poll_loop ?fu ?sta ?T ?v ?u' ?st' ?l' ?c' ?f' ?rt' ?s1] =>
      destruct (poll_loop_settles k fu sta T v u' st' l' c' f' rt' s1
                  (mon_status s) (mon_usecs s))
        as (s' & Hrun & Hn & Hst)
  end; try assumption; try reflexivity; try lia.
  rewrite Hrun. exists s'. split; [reflexivity|]. split; [exact Hst|].
  exact Hn.
Qed.

Lemma wait_times_out fuel T v mode s N :
  (N <= fuel)%nat ->
  (forall j, (j < N)%nat -> usecs_before 0 (mon_usecs s) j < T) ->
  T <= usecs_before 0 (mon_usecs s) N ->
  (forall j, (j < N)%nat -> settled 0 0 (mon_status s) j = false) ->
  (forall j, (j < N)%nat -> failing (mon_status s j) = false) ->
  exists s', ee_wait_for_done_status fuel T v mode s = Some (1, s') /\
             ee_status s' = (if mode =? EE_MODE_ERASE
                             then EE_STATUS_ERASE_TIMEOUT
                             else EE_STATUS_PROG_TIMEOUT) /\
             n_reads s' = (n_reads s + N)%nat.
Proof.
  intros HN Hu HT Hns Hnf. unfold ee_wait_for_done_status. run_drv.
  match goal with
  | |- context [poll_loop ?fu ?sta ?T ?v ?u' ?st' ?l' ?c' ?f' ?rt' ?s1] =>
      destruct (poll_loop_times_out N fu sta T v u' st' l' c' f' rt' s1
                  (mon_status s) (mon_usecs s))
        as (s1' & uu & ss & Hrun & Hss & Hn & Hst)
  end; try assumption; try reflexivity; try lia.
  rewrite Hrun. revert Hn Hst. run_drv. intros Hn Hst.
  change (negb (Z.land ss FAIL_BITS =? 0)) with (failing ss). rewrite Hss.
  destruct (negb (v =? 0)); run_drv; clear_status;
    (eexists; split; [reflexivity|]; split; [exact Hst2|]);
    rewrite Hnr2; exact Hn.
Qed.

(** C2 (as amended).  The monitor reports completion (returns 0, status
    Normal) at the first read k for which its comparison with the
    remembered status word succeeds for the second time in a row: read k
    equals read k-1 and read k-1 equals the word before it, the word
    before the first read being 0.  This holds as long as the loop is
    entered for each of these reads (the elapsed time it saw before each
    is below the timeout) and at most 6 earlier samples showed a failure
    bit; exactly k+1 words are read.  When instead no read settles and no
    sample shows a failure bit until the elapsed time reaches the
    timeout after N reads, the monitor returns 1 and leaves the status at
    EraseTimeout for an erase and ProgramTimeout for a program. *)
Theorem monitor_completion_and_timeout (fuel : nat) (T v mode : Z) (s : driver) :
  (forall k, (k < fuel)%nat ->
     (forall j, (j <= k)%nat -> usecs_before 0 (mon_usecs s) j < T) ->
     (forall j, (j < k)%nat -> settled 0 0 (mon_status s) j = false) ->
     settled 0 0 (mon_status s) k = true ->
     fail_count (mon_status s) k <= 6 ->
     exists s', ee_wait_for_done_status fuel T v mode s = Some (0, s') /\
                ee_status s' = EE_STATUS_NORMAL /\
                n_reads s' = (n_reads s + S k)%nat) /\
  (forall N, (N <= fuel)%nat ->
     (forall j, (j < N)%nat -> usecs_before 0 (mon_usecs s) j < T) ->
     T <= usecs_before 0 (mon_usecs s) N ->
     (forall j, (j < N)%nat -> settled 0 0 (mon_status s) j = false) ->
     (forall j, (j < N)%nat -> failing (mon_status s j) = false) ->
     exists s', ee_wait_for_done_status fuel T v mode s = Some (1, s') /\
                ee_status s' = (if mode =? EE_MODE_ERASE
                                then EE_STATUS_ERASE_TIMEOUT
                                else EE_STATUS_PROG_TIMEOUT) /\
                n_reads s' = (n_reads s + N)%nat).
Proof.
  split.
  - intros k. apply wait_settles.
  - intros N. apply wait_times_out.
Qed.

Lemma all_below_spec (P : nat -> Prop) (n : nat) :
  all_below P n -> forall j, (j < n)%nat -> P j.
Proof.
  induction n as [|n IH]; intros H j Hj; [lia|].
  destruct H as [Hn Hl]. destruct (Nat.eq_dec j n) as [->|]; [exact Hl|].
  apply IH; [exact Hn|lia].
Qed.

Lemma monitor_completion_and_timeout_witness :
  (exists s', ee_wait_for_done_status 8 360 0 EE_MODE_PROGRAM toggling_driver = Some (0, s') /\
              ee_status s' = EE_STATUS_NORMAL /\ n_reads s' = 6%nat) /\
  (exists s', ee_wait_for_done_status 8 360 0 EE_MODE_ERASE restless_driver = Some (1, s') /\
              ee_status s' = EE_STATUS_ERASE_TIMEOUT /\ n_reads s' = 4%nat).
Proof.
  split.
  - apply (proj1 (monitor_completion_and_timeout 8 360 0 EE_MODE_PROGRAM toggling_driver) 5%nat).
    + lia.
    + intros j Hj. apply (all_below_spec (fun j => usecs_before 0 (mon_usecs toggling_driver) j < 360) 6); [vm_compute; repeat split|lia].
    + apply (all_below_spec (fun j => settled 0 0 (mon_status toggling_driver) j = false) 5). vm_compute. repeat split.
    + vm_compute. reflexivity.
    + vm_compute. discriminate.
  - apply (proj2 (monitor_completion_and_timeout 8 360 0 EE_MODE_ERASE restless_driver) 4%nat).
    + lia.
    + apply (all_below_spec (fun j => usecs_before 0 (mon_usecs restless_driver) j < 360) 4). vm_compute. repeat split.
    + vm_compute. discriminate.
    + apply (all_below_spec (fun j => settled 0 0 (mon_status restless_driver) j = false) 4). vm_compute. repeat split.
    + apply (all_below_spec (fun j => failing (mon_status restless_driver j) = false) 4). vm_compute. repeat split.
Defined.

(** C2 as stated fails: the first two masked reads of this device are
    equal, yet the monitor does not report completion after them; it
    polls on and ends in a program timeout. *)
Lemma two_equal_reads_do_not_complete :
  mon_status restless_driver 0 = mon_status restless_driver 1 /\
  exists s',
    ee_wait_for_done_status 8 360 0 EE_MODE_PROGRAM restless_driver = Some (1, s') /\
    ee_status s' = EE_STATUS_PROG_TIMEOUT /\ n_reads s' = 4%nat.
Proof.
  split; [reflexivity|]. eexists. split; [vm_compute; reflexivity|].
  split; reflexivity.
Qed.

(** ** Chip geometry *)

Lemma get_chip_block_info_cases (chipid : Z) :
  let cb := get_chip_block_info chipid in
  (cb_chipid cb = chipid \/ cb = chip_default) /\ In cb chip_blocks.
Proof.
  unfold get_chip_block_info. cbn [List.length chip_blocks Nat.sub chip_scan nth mk_chip cb_chipid].
  repeat match goal with
         | |- context [?a =? chipid] => destruct (Z.eqb_spec a chipid)
         end; cbn; subst; auto 10.
Qed.

(** C8.  get_chip_block_info() is total: for every chip id it returns an
    entry of the table; for an id that an entry of the table carries it
    returns that entry, with its boot block number, block sizes and erase
    map; for every other id it returns the default bottom-boot entry
    (boot block 0, 32K-word common blocks, 4K-word boot sectors); the id
    0x00c22258 of the MX29F800CB yields boot block 0. *)
Theorem get_chip_block_info_total : forall chipid : Z,
  In (get_chip_block_info chipid) chip_blocks /\
  (forall e, In e chip_blocks -> cb_chipid e = chipid ->
             get_chip_block_info chipid = e) /\
  ((forall e, In e chip_blocks -> cb_chipid e <> chipid) ->
   get_chip_block_info chipid = chip_default) /\
  (cb_bbnum chip_default = 0 /\ cb_bsize chip_default = 32 /\
   cb_ssize chip_default = 4) /\
  cb_bbnum (get_chip_block_info 0x00c22258) = 0.
Proof.
  intro chipid. split; [apply get_chip_block_info_cases|].
  split.
  - intros e He Hid. subst chipid.
    cbn in He. repeat (destruct He as [<- | He]; [reflexivity|]). contradiction.
  - split; [|split; [repeat split|reflexivity]].
    intros Hnone. destruct (get_chip_block_info_cases chipid) as [[H|H] Hin]; auto.
    exfalso. exact (Hnone _ Hin H).
Qed.

(** ** Enabling the driver *)

(** C9.  ee_enable() on an enabled driver returns at once and changes
    nothing; in particular a bus-width mode changed while the driver
    stays enabled leaves the command mask as it was, and the next write
    cycle still drives its data under the old mask.  On a disabled
    driver it sets the enable flag, the three tick constants and the mask
    of the current mode. *)
Theorem ee_enable_idempotent (s : driver) (m : bus_mode) :
  (ee_enabled s = true -> ee_enable s = Some (tt, s)) /\
  (ee_enabled s = true ->
   ee_enable (set_ee_mode m s) = Some (tt, set_ee_mode m s) /\
   ee_cmd_mask (set_ee_mode m s) = ee_cmd_mask s /\
   forall addr data,
     ee_write_word addr data (set_ee_mode m s)
     = Some (tt, set_trace (trace s ++ [EvWrite addr
                                          (Z.land data (ee_cmd_mask s))])
                           (set_ee_mode m s))) /\
  (ee_enabled s = false ->
   exists s', ee_enable s = Some (tt, s') /\
     ee_enabled s' = true /\
     ee_cmd_mask s' = mask_of_mode (ee_mode s) /\
     ticks_per_15_nsec s' = timer_nsec_to_tick (hw s) 15 /\
     ticks_per_20_nsec s' = timer_nsec_to_tick (hw s) 20 /\
     ticks_per_30_nsec s' = timer_nsec_to_tick (hw s) 30).
Proof.
  split; [|split].
  - intro H. unfold ee_enable. run_drv. rewrite H. reflexivity.
  - intro H. split; [|split].
    + unfold ee_enable. run_drv. rewrite H. reflexivity.
    + reflexivity.
    + intros addr data. reflexivity.
  - intro H. unfold ee_enable. run_drv. rewrite H. run_drv.
    rewrite ee_read_mode_run. run_drv.
    destruct (ee_mode s); eexists; repeat split.
Qed.

Lemma ee_enable_idempotent_witness :
  ee_enable (set_ee_mode EE_MODE_32 blank_driver)
  = Some (tt, set_ee_mode EE_MODE_32 blank_driver) /\
  ee_cmd_mask (set_ee_mode EE_MODE_32 blank_driver) = 0x0000ffff /\
  exists s', ee_enable (driver_init (sim_platform [] 1)) = Some (tt, s') /\
             ee_enabled s' = true /\ ee_cmd_mask s' = 0x0000ffff.
Proof.
  pose proof (ee_enable_idempotent blank_driver EE_MODE_32) as (_ & H2 & _).
  pose proof (ee_enable_idempotent (driver_init (sim_platform [] 1))
                                   EE_MODE_32) as (_ & _ & H3).
  destruct (H2 eq_refl) as (Ha & Hb & _).
  destruct (H3 eq_refl) as (s' & Hc & Hd & He & _).
  split; [exact Ha|]. split; [exact Hb|]. exists s'.
  split; [exact Hc|]. split; [exact Hd|exact He].
Defined.

(** ** Range checks *)

Lemma ee_read_rejects (addr count : Z) (s : driver) :
  wrap32 (addr + count) > EE_DEVICE_SIZE ->
  ee_read addr count s = Some ((1, []), s).
Proof.
  intros H. unfold ee_read. apply Z.gtb_gt in H. rewrite H. reflexivity.
Qed.

Lemma ee_write_rejects (fuel : nat) (addr count : Z) (data : list Z)
    (s : driver) :
  wrap32 (addr + count) > EE_DEVICE_SIZE ->
  ee_write fuel addr data count s = Some (1, s).
Proof.
  intros H. unfold ee_write. apply Z.gtb_gt in H. rewrite H. reflexivity.
Qed.

Lemma range_check_passes (addr count : Z) :
  0 <= addr -> 0 <= count -> addr + count <= EE_DEVICE_SIZE ->
  (wrap32 (addr + count) >? EE_DEVICE_SIZE) = false.
Proof.
  intros Ha Hc H. unfold wrap32. change EE_DEVICE_SIZE with 1048576 in *.
  rewrite Z.mod_small by lia.
  destruct (Z.gtb_spec (addr + count) 1048576); [lia|reflexivity].
Qed.

(** C1 fails on the code.  A sector erase of 0x10000 words from 0xF8000
    ends 0x8000 words past the device, yet ee_erase() returns 0, after
    writing a sector-erase command to word 0x100000, beyond the last
    word of the device: the inner block loop advances [addr] without the
    range check that the outer loop makes once. *)
Theorem ee_erase_runs_past_device_end :
  0xF8000 + 0x10000 > EE_DEVICE_SIZE /\
  exists s',
    ee_erase 4 MX_ERASE_MODE_SECTOR 0xF8000 0x10000 0 blank_driver
    = Some (0, s') /\
    In (EvWrite 0x100000 0x30) (trace s').
Proof.
  split; [reflexivity|]. eexists. split; [vm_compute; reflexivity|].
  cbn [trace]. repeat (first [left; reflexivity|right]).
Qed.

(** The sum [addr + count] of ee_read() wraps at 32 bits before it is
    compared with the device size. *)
Example ee_read_range_check_wraps :
  0xFFFFFFFF + 2 > EE_DEVICE_SIZE /\
  exists s',
    ee_read 0xFFFFFFFF 2 blank_driver = Some ((0, [0; 0]), s') /\
    n_reads s' = 2%nat.
Proof.
  split; [reflexivity|]. eexists. split; vm_compute; reflexivity.
Qed.

(** C10.  For [addr <= EE_DEVICE_SIZE] and a count of 0, ee_read()
    returns 0 and stores nothing, with no bus cycle between masking and
    unmasking the interrupts; ee_write() returns 0 after the read-mode
    command alone: no word is read, no program sequence is issued. *)
Theorem zero_count_transfers_nothing
    (fuel : nat) (addr : Z) (data : list Z) (s : driver) :
  0 <= addr <= EE_DEVICE_SIZE ->
  ee_read addr 0 s
  = Some ((0, []), set_trace (trace s ++ [EvIrqMask; EvIrqUnmask]) s) /\
  ee_write fuel addr data 0 s
  = Some (0, after_cmd s [EvWrite 0x555 (Z.land 0x00f000f0 (ee_cmd_mask s));
                          EvDelayUsec 2]).
Proof.
  intros [Ha Hb]. split.
  - unfold ee_read. rewrite range_check_passes by lia.
    cbn [Z.to_nat read_words]. run_drv.
    destruct (bus_mode_eqb (ee_mode s) EE_MODE_32); run_drv;
      rewrite <- app_assoc; reflexivity.
  - unfold ee_write. rewrite range_check_passes by lia.
    cbn [Z.to_nat write_loop]. unfold bind. rewrite ee_read_mode_run.
    reflexivity.
Qed.

Lemma zero_count_transfers_nothing_witness :
  ee_read 0x100 0 blank_driver
  = Some ((0, []),
          set_trace (trace blank_driver ++ [EvIrqMask; EvIrqUnmask])
                    blank_driver) /\
  ee_write 4 0x100 [] 0 blank_driver
  = Some (0, after_cmd blank_driver
               [EvWrite 0x555 (Z.land 0x00f000f0 (ee_cmd_mask blank_driver));
                EvDelayUsec 2]).
Proof.
  apply (zero_count_transfers_nothing 4 0x100 [] blank_driver).
  vm_compute. split; discriminate.
Defined.

(** ** Bit masks *)

Lemma BIT_testbit (a n : Z) :
  0 <= n -> negb (Z.land a (BIT n) =? 0) = Z.testbit a n.
Proof.
  intros Hn. unfold BIT. rewrite Z.shiftl_1_l.
  destruct (Z.testbit a n) eqn:Hb.
  - apply negb_true_iff, Z.eqb_neq. intros H0.
    assert (Ht : Z.testbit (Z.land a (2 ^ n)) n = true).
    { rewrite Z.land_spec, Hb, Z.pow2_bits_true by lia. reflexivity. }
    rewrite H0, Z.bits_0 in Ht. discriminate.
  - apply negb_false_iff, Z.eqb_eq. apply Z.bits_inj'. intros i Hi.
    rewrite Z.land_spec, Z.bits_0, Z.pow2_bits_eqb by lia.
    destruct (Z.eqb_spec n i) as [<-|]; [rewrite Hb; reflexivity|].
    apply andb_false_r.
Qed.

Lemma land_shiftl_r (a m k : Z) :
  0 <= k -> Z.land a (Z.shiftl m k) = Z.shiftl (Z.land (Z.shiftr a k) m) k.
Proof.
  intros Hk. apply Z.bits_inj'. intros n Hn.
  rewrite Z.land_spec. destruct (Z.lt_ge_cases n k).
  - rewrite !Z.shiftl_spec_low by lia. apply andb_false_r.
  - rewrite !Z.shiftl_spec_high by lia.
    rewrite Z.land_spec, Z.shiftr_spec by lia.
    replace (n - k + k) with n by lia. reflexivity.
Qed.

Lemma land_high_mask (a k w : Z) :
  0 <= k -> 0 <= w -> 0 <= a < 2 ^ (k + w) ->
  Z.land a (Z.shiftl (Z.ones w) k) = 2 ^ k * (a / 2 ^ k).
Proof.
  intros Hk Hw Ha. rewrite land_shiftl_r by lia.
  rewrite Z.land_ones by lia. rewrite Z.shiftr_div_pow2 by lia.
  rewrite Z.mod_small.
  - rewrite Z.shiftl_mul_pow2 by lia. lia.
  - split; [apply Z.div_pos; lia|].
    apply Z.div_lt_upper_bound; [lia|]. rewrite <- Z.pow_add_r by lia. lia.
Qed.

Lemma land_mul_4096 (a m : Z) :
  Z.land a (4096 * m) = 4096 * Z.land (a / 4096) m.
Proof.
  change 4096 with (2 ^ 12). rewrite <- (Z.shiftr_div_pow2 a 12) by lia.
  rewrite (Z.mul_comm (2 ^ 12) m), <- Z.shiftl_mul_pow2 by lia.
  rewrite land_shiftl_r by lia. rewrite Z.shiftl_mul_pow2 by lia. lia.
Qed.

(** ** The boot-block walk *)

Lemma boot_walk_spec (cb : chip_blocks_t) (gas : nat) :
  forall acc snum,
    0 <= snum < 8 -> 8 - snum <= Z.of_nat gas ->
    exists m, spec_next_boundary (cb_map cb) snum m /\
              boot_walk gas cb acc snum
              = acc + (m - snum) * Z.shiftl (cb_ssize cb) 10.
Proof.
  induction gas as [|gas IH]; intros acc snum Hs Hg; [lia|].
  cbn [boot_walk]. rewrite BIT_testbit by lia.
  destruct (Z.testbit (cb_map cb) (snum + 1)) eqn:Hbit; cbn [negb].
  - exists (snum + 1). split; [|ring].
    split; [lia|]. split; [right; exact Hbit|]. intros j Hj. lia.
  - destruct (Z.ltb_spec (snum + 1) 8) as [Hlt|Hge].
    + destruct (IH (acc + Z.shiftl (cb_ssize cb) 10) (snum + 1))
        as (m & (Hm1 & Hm2 & Hm3) & Hw); [lia|lia|].
      exists m. split; [|rewrite Hw; ring].
      split; [lia|]. split; [exact Hm2|]. intros j Hj.
      destruct (Z.eq_dec j (snum + 1)) as [->|]; [exact Hbit|].
      apply Hm3. lia.
    + exists 8. split; [|replace snum with 7 by lia; ring].
      split; [lia|]. split; [left; reflexivity|]. intros j Hj. lia.
Qed.

Lemma get_chip_block_info_ok (chipid : Z) :
  geometry_ok (get_chip_block_info chipid).
Proof.
  destruct (get_chip_block_info_cases chipid) as [_ Hin].
  revert Hin. generalize (get_chip_block_info chipid). intros cb Hin.
  unfold chip_blocks in Hin. cbn [In] in Hin. unfold geometry_ok.
  repeat (destruct Hin as [<- | Hin]; [cbn; lia|]). contradiction.
Qed.

Lemma unit_size_spec (cb : chip_blocks_t) (addr : Z) :
  geometry_ok cb -> 0 <= addr < 2 ^ 32 ->
  let bsize := cb_bsize cb * 1024 in
  let ssize := cb_ssize cb * 1024 in
  let snum := (addr mod bsize) / ssize in
  if addr / bsize =? cb_bbnum cb then
    exists m, spec_next_boundary (cb_map cb) snum m /\
              unit_size cb addr = (m - snum) * ssize
  else unit_size cb addr = bsize.
Proof.
  intros (Hs & Hb & Hbs & Hmax) Ha bsize ssize snum.
  unfold unit_size. rewrite !Z.shiftl_mul_pow2 by lia.
  change (2 ^ 10) with 1024. fold bsize ssize.
  destruct (addr / bsize =? cb_bbnum cb); [|reflexivity].
  assert (Hmod : wrap32 (addr - wrap32 (addr / bsize * bsize))
                 = addr mod bsize).
  { assert (0 <= addr / bsize * bsize <= addr).
    { split; [apply Z.mul_nonneg_nonneg; [apply Z.div_pos|]; lia|].
      rewrite Z.mul_comm. apply Z.mul_div_le. lia. }
    unfold wrap32. rewrite (Z.mod_small (addr / bsize * bsize)) by lia.
    rewrite Z.mod_small by lia. rewrite Z.mod_eq by lia. lia. }
  rewrite Hmod. fold snum.
  assert (Hsn : 0 <= snum < 8).
  { pose proof (Z.mod_pos_bound addr bsize ltac:(lia)).
    split; [apply Z.div_pos; lia|].
    apply Z.div_lt_upper_bound; lia. }
  destruct (boot_walk_spec cb 8 0 snum Hsn ltac:(lia)) as (m & Hm & Hw).
  exists m. split; [exact Hm|]. rewrite Hw, Z.shiftl_mul_pow2 by lia.
  change (2 ^ 10) with 1024. fold ssize. ring.
Qed.

Lemma boot_walk_grows (cb : chip_blocks_t) (gas : nat) :
  forall acc snum,
    0 < cb_ssize cb -> acc + Z.shiftl (cb_ssize cb) 10
                       <= boot_walk (S gas) cb acc snum.
Proof.
  induction gas as [|gas IH]; intros acc snum Hs;
    assert (0 < Z.shiftl (cb_ssize cb) 10)
      by (rewrite Z.shiftl_mul_pow2 by lia; lia).
  - cbn [boot_walk]. repeat (destruct (_ : bool)); lia.
  - cbn [boot_walk] in *.
    destruct (negb _); [lia|]. destruct (_ <? 8); [|lia].
    specialize (IH (acc + Z.shiftl (cb_ssize cb) 10) (snum + 1) Hs).
    cbn [boot_walk] in IH. lia.
Qed.

Lemma unit_size_pos (cb : chip_blocks_t) (addr : Z) :
  geometry_ok cb -> 0 < unit_size cb addr.
Proof.
  intros (Hs & Hb & _). unfold unit_size.
  assert (0 < Z.shiftl (cb_ssize cb) 10)
    by (rewrite Z.shiftl_mul_pow2 by lia; lia).
  assert (0 < Z.shiftl (cb_bsize cb) 10)
    by (rewrite Z.shiftl_mul_pow2 by lia; lia).
  destruct (_ =? _); [|lia].
  match goal with
  | |- 0 < boot_walk 8 cb 0 ?sn =>
      pose proof (boot_walk_grows cb 7 0 sn Hs)
  end. lia.
Qed.

(** The erase units at the starts of the four boot sectors agree with the
    sector sizes that the comments of the chip table give: 16K, 4K, 4K,
    8K words for the top-boot M29F160FT and 8K, 4K, 4K, 16K words for the
    bottom-boot M29F160FB. *)
Example top_boot_sector_sizes :
  map (unit_size (get_chip_block_info 0x000122D2))
      [0xF8000; 0xFC000; 0xFD000; 0xFE000; 0xF0000]
  = [16384; 4096; 4096; 8192; 32768].
Proof. reflexivity. Qed.

Example bottom_boot_sector_sizes :
  map (unit_size (get_chip_block_info 0x000122D8))
      [0x0000; 0x2000; 0x3000; 0x4000; 0x8000]
  = [8192; 4096; 4096; 16384; 32768].
Proof. reflexivity. Qed.

(** ** The sector loop *)

Lemma erase_sectors_run (cb : chip_blocks_t) (gas : nat) :
  forall addr len timeout s,
    geometry_ok cb -> 0 < len -> (Z.to_nat len <= gas)%nat ->
    exists n addr',
      erase_sectors gas cb addr len timeout s
      = Some ((addr', 0, timeout + Z.of_nat (S n) * 1000000),
              set_trace (trace s
                         ++ erase_cmd_events (ee_cmd_mask s)
                                             (unit_chain cb addr (S n))) s) /\
      sum_sizes (unit_chain cb addr n) < len
      <= sum_sizes (unit_chain cb addr (S n)).
Proof.
  induction gas as [|gas IH]; intros addr len timeout s Hcb Hlen Hgas;
    [lia|].
  cbn [erase_sectors]. destruct (Z.ltb_spec 0 len); [|lia].
  pose proof (unit_size_pos cb addr Hcb) as Hpos.
  run_drv. destruct (Z.ltb_spec len (unit_size cb addr)) as [Hlt|Hge].
  - exists 0%nat, addr. split; [reflexivity|].
    unfold sum_sizes. cbn [unit_chain fold_right snd]. lia.
  - destruct (Z.eq_dec (len - unit_size cb addr) 0) as [Hz|Hnz].
    + exists 0%nat, (wrap32 (addr + unit_size cb addr)).
      rewrite Hz. destruct gas; cbn [erase_sectors]; cbn [Z.ltb Z.compare]; run_drv.
      all: (split; [reflexivity|]);
        unfold sum_sizes; cbn [unit_chain fold_right snd]; lia.
    + destruct (IH (wrap32 (addr + unit_size cb addr))
                  (len - unit_size cb addr) (timeout + 1000000)
                  (set_trace (trace s ++ [EvWrite (erase_address cb addr)
                                   (Z.land SECTOR_ERASE_CMD (ee_cmd_mask s))])
                             s) Hcb ltac:(lia) ltac:(lia))
        as (n & addr' & Hrun & Hsum).
      exists (S n), addr'. split.
      * replace (timeout + 1000000 + Z.of_nat (S n) * 1000000)
          with (timeout + Z.of_nat (S (S n)) * 1000000) in Hrun by lia.
        etransitivity; [exact Hrun|]. f_equal. f_equal.
        unfold set_trace; cbn [hw ee_mode ee_cmd_mask ee_status
             ticks_per_15_nsec ticks_per_20_nsec ticks_per_30_nsec
             ee_last_access ee_enabled n_ticks n_reads trace].
        rewrite <- app_assoc. reflexivity.
      * revert Hsum. unfold sum_sizes. cbn [unit_chain fold_right snd]. lia.
Qed.

Ltac eval_closed t :=
  let v := eval vm_compute in t in change t with v.

Lemma boot_offset (addr : Z) :
  0 <= addr < 2 ^ 32 ->
  wrap32 (addr - wrap32 (addr / 32768 * 32768)) = addr mod 32768.
Proof.
  intros Ha. unfold wrap32.
  assert (0 <= addr / 32768 * 32768 <= addr)
    by (Z.div_mod_to_equations; lia).
  rewrite (Z.mod_small (addr / 32768 * 32768)) by lia.
  rewrite Z.mod_small by lia. Z.div_mod_to_equations; lia.
Qed.

Lemma erase_address_table (cb : chip_blocks_t) (addr : Z) :
  In cb chip_blocks -> 0 <= addr < EE_DEVICE_SIZE ->
  erase_address cb addr
  = if addr / 32768 =? cb_bbnum cb then 4096 * (addr / 4096)
    else 32768 * (addr / 32768).
Proof.
  intros Hin Ha. change EE_DEVICE_SIZE with 1048576 in Ha.
  unfold chip_blocks in Hin. cbn [In] in Hin.
  repeat (destruct Hin as [<- | Hin]); [..|contradiction].
  all: unfold erase_address, unit_size, chip_default;
    cbn [mk_chip cb_bbnum cb_bsize cb_ssize cb_map];
    change (Z.shiftl 32 10) with 32768; change (Z.shiftl 4 10) with 4096;
    rewrite boot_offset by lia.
  all: match goal with
       | |- context [?a / 32768 =? ?bb] =>
           destruct (Z.eqb_spec (a / 32768) bb) as [Hbb|Hbb]
       end.
  all: try (eval_closed (not32 (wrap32 (32768 - 1)));
            change 4294934528 with (Z.shiftl (Z.ones 17) 15);
            rewrite land_high_mask by lia; reflexivity).
  all: assert (Hq : 0 <= addr mod 32768 / 4096 < 8)
         by (Z.div_mod_to_equations; lia).
  all: assert (Hcase : addr mod 32768 / 4096 = 0 \/ addr mod 32768 / 4096 = 1 \/
                       addr mod 32768 / 4096 = 2 \/ addr mod 32768 / 4096 = 3 \/
                       addr mod 32768 / 4096 = 4 \/ addr mod 32768 / 4096 = 5 \/
                       addr mod 32768 / 4096 = 6 \/ addr mod 32768 / 4096 = 7)
         by lia.
  all: destruct Hcase as [Hk|[Hk|[Hk|[Hk|[Hk|[Hk|[Hk|Hk]]]]]]]; rewrite Hk.
  all: match goal with |- context [boot_walk ?g ?c ?a ?k] => eval_closed (boot_walk g c a k) end.
  all: match goal with
       | |- Z.land _ (not32 (wrap32 (?w - 1))) = _ =>
           let v := eval vm_compute in (not32 (wrap32 (w - 1)) / 4096) in
           replace (not32 (wrap32 (w - 1))) with (4096 * v)
             by (vm_compute; reflexivity)
       end.
  all: rewrite land_mul_4096.
  all: match goal with
       | Hb : ?a / 32768 = ?bb, Hk' : ?a mod 32768 / 4096 = ?k |- _ =>
           let c := eval vm_compute in (8 * bb + k) in
           assert (Hg : a / 4096 = c) by (Z.div_mod_to_equations; lia);
           rewrite Hg; reflexivity
       end.
Qed.


(** ** Erasing *)

(** The erase units of the sector loop.  For a geometry with at most 8
    boot sectors per block, the erase unit at an address of the boot
    block is the sum of the boot-sector sizes from the sub-sector that
    contains the address up to the next sub-sector marked in the erase
    map (or the end of the block), and the common block size at every
    other address; the sector loop writes one sector-erase command per
    unit of the chain that starts at [addr], stops with no length left,
    and the sizes of the units it issued add up to at least the
    requested length (and would not without the last). *)
Lemma boot_block_erase_units
    (cb : chip_blocks_t) (addr len timeout : Z) (s : driver) :
  geometry_ok cb -> 0 <= addr < 2 ^ 32 -> 0 < len ->
  (let bsize := cb_bsize cb * 1024 in
   let ssize := cb_ssize cb * 1024 in
   let snum := (addr mod bsize) / ssize in
   if addr / bsize =? cb_bbnum cb then
     exists m, spec_next_boundary (cb_map cb) snum m /\
               unit_size cb addr = (m - snum) * ssize
   else unit_size cb addr = bsize) /\
  exists n addr',
    erase_sectors (Z.to_nat len) cb addr len timeout s
    = Some ((addr', 0, timeout + Z.of_nat (S n) * 1000000),
            set_trace (trace s
                       ++ erase_cmd_events (ee_cmd_mask s)
                                           (unit_chain cb addr (S n))) s) /\
    sum_sizes (unit_chain cb addr n) < len
    <= sum_sizes (unit_chain cb addr (S n)).
Proof.
  intros Hcb Ha Hlen. split.
  - apply unit_size_spec; assumption.
  - apply erase_sectors_run; [assumption|assumption|lia].
Qed.

(** The units are counted against the length, not against the addresses
    of the range: two words from 0xFFFF on end in block 2, but the one
    unit issued, for block 1, already exceeds the length. *)
Example unaligned_tail_is_not_erased :
  exists s',
    ee_erase 4 MX_ERASE_MODE_SECTOR 0xFFFF 2 0 blank_driver = Some (0, s') /\
    count_erase_cmds (ee_cmd_mask blank_driver) (trace s') = 1%nat /\
    In (EvWrite 0x8000 0x30) (trace s').
Proof.
  eexists. split; [vm_compute; reflexivity|]. split; [reflexivity|].
  cbn [trace]. repeat (first [left; reflexivity|right]).
Qed.

(** C4 fails on the code.  On the default bottom-boot geometry (the
    device answers the identification reads with 0) the two words from
    0x1FFF on lie in two erase sectors, which start at 0 and at 0x2000.
    ee_erase() computes a unit of 0x1000 words at 0x1FFF, which exceeds
    the length of 2, writes one sector-erase command, to word 0x1000,
    and returns 0: no bus cycle of the call writes to the sector of the
    requested word 0x2000, which stays as it was. *)
Theorem unaligned_erase_misses_requested_sector :
  get_chip_block_info 0 = chip_default /\
  spec_sector_start chip_default 0x1FFF = 0 /\
  spec_sector_start chip_default 0x2000 = 0x2000 /\
  exists s' evs,
    ee_erase 4 MX_ERASE_MODE_SECTOR 0x1FFF 2 0 blank_driver = Some (0, s') /\
    trace s' = trace blank_driver ++ evs /\
    In (EvRead 0 0) evs /\ In (EvRead 1 0) evs /\
    filter (is_sector_erase_cmd (ee_cmd_mask blank_driver)) evs
    = [EvWrite 0x1000 0x30] /\
    Forall (fun e => match e with
                     | EvWrite a _ => spec_sector_start chip_default a = 0
                     | _ => True
                     end) evs.
Proof.
  split; [reflexivity|]. split; [reflexivity|]. split; [reflexivity|].
  eexists. eexists. split; [vm_compute; reflexivity|].
  split; [cbn [trace]; reflexivity|].
  split; [repeat (first [left; reflexivity|right])|].
  split; [repeat (first [left; reflexivity|right])|].
  split; [reflexivity|].
  repeat constructor.
Qed.



Lemma ee_id_run (s : driver) :
  exists parts s' low high,
    ee_id s = Some (parts, s') /\
    hw s' = hw s /\ ee_mode s' = ee_mode s /\
    ee_cmd_mask s' = ee_cmd_mask s /\
    n_ticks s' = S (S (n_ticks s)) /\
    trace s' = trace s ++ id_events (ee_cmd_mask s) low high.
Proof.
  unfold ee_id. cbn [bind].
  rewrite (ee_cmd_unlock s 0x555 0x00900090) by reflexivity.
  step_drv. rewrite ee_read_mode_run. step_drv.
  destruct (ee_mode s) eqn:Emode;
    eexists _, _, (wrap32 (bus_data (hw s) (n_reads s))),
            (wrap32 (bus_data (hw s) (S (n_reads s))));
    (split; [reflexivity|]);
    step_drv; repeat split; try exact Emode;
    unfold id_events; rewrite <- !app_assoc; reflexivity.
Qed.

(** What the range check of ee_erase() does reject: a start address at
    or beyond the end of the device.  It returns 1 after the
    identification and status-clear traffic and the final read-mode
    command, without any erase cycle. *)
Lemma ee_erase_rejects_start_past_end
    (fuel : nat) (mode addr len verbose : Z) (s : driver) :
  0 <= mode <= MX_ERASE_MODE_SECTOR -> 0 <= len ->
  EE_DEVICE_SIZE <= addr ->
  exists s' low high,
    ee_erase fuel mode addr len verbose s = Some (1, s') /\
    trace s' = trace s ++ id_events (ee_cmd_mask s) low high
               ++ status_clear_events (ee_cmd_mask s)
               ++ [EvWrite 0x555 (Z.land 0x00f000f0 (ee_cmd_mask s));
                   EvDelayUsec 2].
Proof.
  intros Hmode Hlen Ha. unfold ee_erase.
  destruct (Z.ltb_spec MX_ERASE_MODE_SECTOR mode); [lia|].
  cbn [bind].
  destruct (ee_id_run s)
    as (parts & s1 & low & high & Hid & _ & _ & Hk1 & _ & Htr1).
  rewrite Hid.
  destruct (ee_status_clear_run s1)
    as (s2 & Hclr & _ & _ & Hk2 & _ & _ & _ & Htr2).
  rewrite Hclr.
  set (len' := if (len =? 0) || (mode =? MX_ERASE_MODE_CHIP) then 1 else len).
  assert (Hlen' : 0 < len').
  { subst len'. destruct (Z.eqb_spec len 0); cbn [orb]; [lia|].
    destruct (mode =? MX_ERASE_MODE_CHIP); lia. }
  destruct (Z.to_nat len') as [|gas] eqn:Hgas; [lia|].
  cbn [erase_passes]. destruct (Z.ltb_spec 0 len'); [|lia].
  destruct (Z.leb_spec EE_DEVICE_SIZE addr); [|lia].
  step_drv. rewrite ee_read_mode_run. exists (after_cmd s2 [EvWrite 0x555 (Z.land 0x00f000f0 (ee_cmd_mask s2));
                         EvDelayUsec 2]), low, high.
  split; [reflexivity|]. step_drv.
  rewrite Htr2, Htr1, Hk2, Hk1, <- !app_assoc. reflexivity.
Qed.

Lemma count_erase_cmds_app (mask : Z) (a b : list event) :
  count_erase_cmds mask (a ++ b)
  = (count_erase_cmds mask a + count_erase_cmds mask b)%nat.
Proof.
  unfold count_erase_cmds. rewrite filter_app, length_app. reflexivity.
Qed.

Lemma count_erase_cmds_poll (mask : Z) (evs : list event) :
  Forall poll_event evs -> count_erase_cmds mask evs = 0%nat.
Proof.
  unfold count_erase_cmds. induction 1 as [|e evs He _ IH]; [reflexivity|].
  destruct e; try contradiction; exact IH.
Qed.

Lemma unit_size_ge (cb : chip_blocks_t) (addr : Z) :
  geometry_ok cb -> 1024 <= unit_size cb addr.
Proof.
  intros (Hs & Hb & _). unfold unit_size.
  assert (1024 <= Z.shiftl (cb_ssize cb) 10)
    by (rewrite Z.shiftl_mul_pow2 by lia; lia).
  assert (1024 <= Z.shiftl (cb_bsize cb) 10)
    by (rewrite Z.shiftl_mul_pow2 by lia; lia).
  destruct (_ =? _); [|lia].
  match goal with
  | |- _ <= boot_walk 8 cb 0 ?sn =>
      pose proof (boot_walk_grows cb 7 0 sn Hs)
  end. lia.
Qed.

Lemma ee_erase_zero_length_run
    (fuel : nat) (addr verbose : Z) (s : driver) :
  valid_mask (ee_cmd_mask s) ->
  0 <= addr < EE_DEVICE_SIZE ->
  clock_live (hw s) fuel 2000000 ->
  exists rc s' cb before after,
    ee_erase fuel MX_ERASE_MODE_SECTOR addr 0 verbose s = Some (rc, s') /\
    In cb chip_blocks /\
    trace s' = trace s ++ before
               ++ [EvWrite (erase_address cb addr)
                           (Z.land SECTOR_ERASE_CMD (ee_cmd_mask s))]
               ++ after /\
    count_erase_cmds (ee_cmd_mask s) before = 0%nat /\
    count_erase_cmds (ee_cmd_mask s) after = 0%nat.
Proof.
  intros Hmask Ha Hclock. unfold ee_erase.
  change (MX_ERASE_MODE_SECTOR <? MX_ERASE_MODE_SECTOR) with false.
  change ((0 =? 0) || (MX_ERASE_MODE_SECTOR =? MX_ERASE_MODE_CHIP)) with true.
  cbv iota. cbn [bind].
  destruct (ee_id_run s)
    as (parts & s1 & low & high & Hid & Hhw1 & Hm1 & Hk1 & Hnt1 & Htr1).
  rewrite Hid.
  destruct (ee_status_clear_run s1)
    as (s2 & Hclr & Hhw2 & Hm2 & Hk2 & _ & _ & Hnt2 & Htr2).
  rewrite Hclr.
  set (cb := get_chip_block_info (fst parts)).
  assert (Hcb : geometry_ok cb) by apply get_chip_block_info_ok.
  change (Z.to_nat 1) with 1%nat. cbn [erase_passes].
  change (0 <? 1) with true. cbv iota.
  destruct (Z.leb_spec EE_DEVICE_SIZE addr) as [|_]; [lia|].
  change (MX_ERASE_MODE_SECTOR =? MX_ERASE_MODE_CHIP) with false.
  pose proof (unit_size_ge cb addr Hcb) as Hu.
  step_drv. change (Z.to_nat 1) with 1%nat. cbn [erase_sectors].
  change (0 <? 1) with true. cbv iota.
  destruct (Z.ltb_spec 1 (unit_size cb addr)) as [_|]; [|lia].
  step_drv.
  match goal with
  | |- context [ee_wait_for_done_status fuel ?T verbose EE_MODE_ERASE ?s3] =>
      set (s3' := s3);
      assert (Hhw3 : hw s3' = hw s) by (subst s3'; step_drv; congruence);
      assert (Hk3 : ee_cmd_mask s3' = ee_cmd_mask s)
        by (subst s3'; step_drv; congruence);
      assert (Htr3 : trace s3' = trace s ++ (id_events (ee_cmd_mask s) low high
                 ++ status_clear_events (ee_cmd_mask s)
                 ++ erase_unlock_events (ee_cmd_mask s))
                 ++ [EvWrite (erase_address cb addr)
                             (Z.land SECTOR_ERASE_CMD (ee_cmd_mask s))]
                 ++ [EvDelayUsec 100])
        by (subst s3'; step_drv; rewrite Htr2, Htr1, Hk2, Hk1;
            unfold erase_unlock_events; rewrite <- !app_assoc; reflexivity);
      clearbody s3'
  end.
  change (wrap32 (1000000 + 1000000)) with 2000000.
  destruct (Hclock (n_ticks s3')) as (j & Hj & HT).
  destruct (wait_terminates fuel 2000000 verbose EE_MODE_ERASE s3' j Hj)
    as (rc & s4 & Hw).
  { unfold mon_usecs. rewrite Hhw3. exact HT. }
  rewrite Hw. pose proof (wait_outcome _ _ _ _ _ _ _ Hw)
    as (Hhw4 & Hm4 & Hk4 & evs & Hev & Hout).
  assert (Hexit : (if negb (rc =? 0) then ret rc
                   else if 0 <? 0 then out_of_fuel else ret rc) s4
                  = Some (rc, s4))
    by (destruct (negb (rc =? 0)); reflexivity).
  cbv beta iota. rewrite Hexit. rewrite ee_read_mode_run.
  exists rc. eexists. exists cb.
  exists (id_events (ee_cmd_mask s) low high
          ++ status_clear_events (ee_cmd_mask s)
          ++ erase_unlock_events (ee_cmd_mask s)).
  assert (Hcount : forall l,
            (l = [] \/ l = status_clear_events (ee_cmd_mask s)) ->
            count_erase_cmds (ee_cmd_mask s)
              ([EvDelayUsec 100] ++ evs ++ l
               ++ [EvWrite 0x555 (Z.land 0x00f000f0 (ee_cmd_mask s));
                   EvDelayUsec 2]) = 0%nat).
  { intros l Hl. rewrite !count_erase_cmds_app.
    rewrite (count_erase_cmds_poll _ evs Hev).
    destruct Hl as [->| ->]; destruct Hmask as [E|[E|E]]; rewrite E;
      reflexivity. }
  destruct Hout as [(-> & _ & Htr4)|(-> & _ & Htr4)].
  - exists ([EvDelayUsec 100] ++ evs ++ []
            ++ [EvWrite 0x555 (Z.land 0x00f000f0 (ee_cmd_mask s));
                EvDelayUsec 2]).
    split; [reflexivity|]. split; [apply get_chip_block_info_cases|].
    split; [|split; [|apply Hcount; left; reflexivity]].
    + step_drv. rewrite Htr4, Htr3, Hk4, Hk3, <- !app_assoc. reflexivity.
    + destruct Hmask as [E|[E|E]]; rewrite E; reflexivity.
  - exists ([EvDelayUsec 100] ++ evs ++ status_clear_events (ee_cmd_mask s)
            ++ [EvWrite 0x555 (Z.land 0x00f000f0 (ee_cmd_mask s));
                EvDelayUsec 2]).
    split; [reflexivity|]. split; [apply get_chip_block_info_cases|].
    split; [|split; [|apply Hcount; right; reflexivity]].
    + step_drv. rewrite Htr4, Htr3, Hk4, Hk3, <- !app_assoc. reflexivity.
    + destruct Hmask as [E|[E|E]]; rewrite E; reflexivity.
Qed.

(** C6.  With a command mask of one of the bus-width modes, a valid
    address and a clock that lets the erase poll end, ee_erase() in
    sector mode with a length of 0 returns, and the bus cycles it added
    contain exactly one sector-erase command word, written at the erase
    address of [addr] for a geometry of the table. *)
Theorem zero_length_erases_one_unit
    (fuel : nat) (addr verbose : Z) (s : driver) :
  valid_mask (ee_cmd_mask s) ->
  0 <= addr < EE_DEVICE_SIZE ->
  clock_live (hw s) fuel 2000000 ->
  exists rc s' cb evs,
    ee_erase fuel MX_ERASE_MODE_SECTOR addr 0 verbose s = Some (rc, s') /\
    trace s' = trace s ++ evs /\
    count_erase_cmds (ee_cmd_mask s) evs = 1%nat /\
    In cb chip_blocks /\
    In (EvWrite (erase_address cb addr)
                (Z.land SECTOR_ERASE_CMD (ee_cmd_mask s))) evs.
Proof.
  intros Hmask Ha Hclock.
  destruct (ee_erase_zero_length_run fuel addr verbose s Hmask Ha Hclock)
    as (rc & s' & cb & before & after & Hrun & Hcb & Htr & Hb & Hafter).
  exists rc, s', cb, (before ++ [EvWrite (erase_address cb addr)
                          (Z.land SECTOR_ERASE_CMD (ee_cmd_mask s))]
                      ++ after).
  split; [exact Hrun|]. split; [exact Htr|]. split; [|split; [exact Hcb|]].
  - rewrite !count_erase_cmds_app, Hb, Hafter.
    unfold count_erase_cmds. cbn [filter is_sector_erase_cmd].
    rewrite Z.eqb_refl. reflexivity.
  - apply in_or_app. right. left. reflexivity.
Qed.

Lemma sim_clock_live (samples : list Z) (step : Z) (fuel : nat) (T : Z) :
  (0 < fuel)%nat -> T <= step < 2 ^ 64 ->
  clock_live (sim_platform samples step) fuel T.
Proof.
  intros Hf Hs n. exists 0%nat. split; [exact Hf|].
  unfold sim_platform, wrap64.
  cbn [timer_ticks timer_tick_to_usec].
  rewrite Zminus_mod_idemp_l, Zminus_mod_idemp_r, Z.mod_mod by lia.
  replace (step * Z.of_nat (S n + 0) - step * Z.of_nat n) with step by lia.
  destruct (Z.lt_ge_cases step 0).
  - pose proof (Z.mod_pos_bound step (2 ^ 64) ltac:(lia)). lia.
  - rewrite Z.mod_small by lia. lia.
Qed.

Lemma sim_clock_reaches (samples : list Z) (step : Z) (fuel j : nat) (T : Z) :
  (j < fuel)%nat -> 0 <= step -> T <= step * (Z.of_nat j + 1) < 2 ^ 64 ->
  clock_live (sim_platform samples step) fuel T.
Proof.
  intros Hj Hs HT n. exists j. split; [exact Hj|].
  unfold sim_platform, wrap64.
  cbn [timer_ticks timer_tick_to_usec].
  rewrite Zminus_mod_idemp_l, Zminus_mod_idemp_r, Z.mod_mod by lia.
  replace (step * Z.of_nat (S n + j) - step * Z.of_nat n)
    with (step * (Z.of_nat j + 1)) by lia.
  rewrite Z.mod_small by lia. lia.
Qed.

Lemma zero_length_erases_one_unit_witness :
  exists rc s' cb evs,
    ee_erase 1 MX_ERASE_MODE_SECTOR 0x12345 0 0 slow_clock_driver
    = Some (rc, s') /\
    trace s' = trace slow_clock_driver ++ evs /\
    count_erase_cmds (ee_cmd_mask slow_clock_driver) evs = 1%nat /\
    In cb chip_blocks /\
    In (EvWrite (erase_address cb 0x12345)
          (Z.land SECTOR_ERASE_CMD (ee_cmd_mask slow_clock_driver))) evs.
Proof.
  apply (zero_length_erases_one_unit 1 0x12345 0 slow_clock_driver).
  - right. left. reflexivity.
  - vm_compute. split; [discriminate|reflexivity].
  - apply (sim_clock_live [] 3000000 1 2000000); lia.
Defined.


(** ** Verify and retry *)

Lemma testbit_above_32 (a i : Z) :
  0 <= a < 2 ^ 32 -> 32 <= i -> Z.testbit a i = false.
Proof.
  intros Ha Hi. rewrite <- (Z.mod_small a (2 ^ 32)) by lia.
  apply Z.mod_pow2_bits_high. lia.
Qed.

Lemma not32_testbit (r i : Z) :
  0 <= i < 32 -> Z.testbit (not32 r) i = negb (Z.testbit r i).
Proof.
  intros Hi. unfold not32, wrap32.
  rewrite Z.mod_pow2_bits_low by lia. apply Z.lnot_spec. lia.
Qed.

Lemma not32_testbit_high (r i : Z) :
  32 <= i -> Z.testbit (not32 r) i = false.
Proof.
  intros Hi. unfold not32, wrap32. apply Z.mod_pow2_bits_high. lia.
Qed.

Lemma xvalue_testbit (mask value rvalue i : Z) :
  Z.testbit (Z.land (Z.lxor value rvalue) mask) i = true <->
  differs mask value rvalue i.
Proof.
  unfold differs. rewrite Z.land_spec, Z.lxor_spec, andb_true_iff.
  destruct (Z.testbit value i), (Z.testbit rvalue i), (Z.testbit mask i);
    cbn; intuition congruence.
Qed.

Lemma xvalue_zero_iff (mask value rvalue : Z) :
  Z.land (Z.lxor value rvalue) mask = 0 <->
  forall i, ~ differs mask value rvalue i.
Proof.
  split.
  - intros H i Hd. apply xvalue_testbit in Hd.
    rewrite H, Z.bits_0 in Hd. discriminate.
  - intros H. apply Z.bits_inj. intros i. rewrite Z.bits_0.
    destruct (Z.testbit _ i) eqn:Hb; [|reflexivity].
    apply xvalue_testbit in Hb. destruct (H i Hb).
Qed.

Lemma retry_condition_iff (mask value rvalue : Z) :
  0 <= value < 2 ^ 32 -> 0 <= rvalue < 2 ^ 32 ->
  Z.land (Z.land (Z.lxor value rvalue) mask) (not32 rvalue) = 0 <->
  forall i, differs mask value rvalue i -> must_clear value rvalue i.
Proof.
  intros Hv Hr. split.
  - intros H i Hd. pose proof Hd as [Hm Hne].
    destruct (Z.lt_ge_cases i 0) as [Hneg|Hpos].
    { rewrite Z.testbit_neg_r in Hm by lia. discriminate. }
    destruct (Z.lt_ge_cases i 32) as [Hlo|Hhi].
    + assert (Hb : Z.testbit (Z.land (Z.land (Z.lxor value rvalue) mask)
                                     (not32 rvalue)) i = false)
        by (rewrite H; apply Z.bits_0).
      rewrite Z.land_spec, not32_testbit in Hb by lia.
      apply xvalue_testbit in Hd. rewrite Hd in Hb. cbn in Hb.
      apply negb_false_iff in Hb. unfold must_clear. split; [exact Hb|].
      rewrite Hb in Hne. destruct (Z.testbit value i); congruence.
    + rewrite (testbit_above_32 value), (testbit_above_32 rvalue) in Hne
        by lia. congruence.
  - intros H. apply Z.bits_inj. intros i. rewrite Z.bits_0, Z.land_spec.
    destruct (Z.testbit (Z.land (Z.lxor value rvalue) mask) i) eqn:Hb;
      [|reflexivity].
    apply xvalue_testbit in Hb. destruct (H i Hb) as [Hr1 _]. cbn.
    destruct (Z.lt_ge_cases i 0) as [Hneg|Hpos].
    { apply Z.testbit_neg_r. lia. }
    destruct (Z.lt_ge_cases i 32) as [Hlo|Hhi].
    + rewrite not32_testbit by lia. rewrite Hr1. reflexivity.
    + apply not32_testbit_high. lia.
Qed.

Lemma load_value_range (m : bus_mode) (d : Z) :
  0 <= load_value m d < 2 ^ 32.
Proof.
  destruct m; unfold load_value, wrap32, wrap16.
  - apply Z.mod_pos_bound. lia.
  - pose proof (Z.mod_pos_bound d (2 ^ 16) ltac:(lia)). lia.
  - apply Z.mod_pos_bound. lia.
Qed.

(** The bound of 3 on the passes per word is never what stops
    [write_word_try]: any two sufficient bounds give the same result. *)
Lemma write_word_try_gas (fuel : nat) (addr d : Z) (gas : nat) :
  forall gas' try_count s,
    (1 <= gas)%nat -> (1 <= gas')%nat ->
    (Z.to_nat (3 - try_count) <= gas)%nat ->
    (Z.to_nat (3 - try_count) <= gas')%nat ->
    write_word_try gas fuel addr d try_count s
    = write_word_try gas' fuel addr d try_count s.
Proof.
  induction gas as [|gas IH]; intros gas' try_count s H1 H1' Hg Hg'; [lia|].
  destruct gas' as [|gas']; [lia|].
  cbn [write_word_try]. step_drv.
  destruct (ee_program_word fuel addr _ s) as [[rc s1]|]; [|reflexivity].
  cbv beta iota.
  destruct (negb (rc =? 0)).
  - destruct (Z.ltb_spec try_count 2); [|reflexivity]. apply IH; lia.
  - step_drv. destruct (negb (_ =? 0)); [|reflexivity].
    destruct (Z.ltb_spec try_count 2); [|reflexivity].
    cbn [andb]. destruct (_ =? 0); [|reflexivity]. apply IH; lia.
Qed.

(** The whole buffer write on that device: the word verifies on the
    second attempt and ee_write() returns 0. *)
Example stubborn_word_verifies_on_retry :
  exists s', ee_write 4 0x100 [0x1234] 1 stubborn_driver = Some (0, s') /\
             n_reads s' = 6%nat.
Proof. eexists. split; vm_compute; reflexivity. Qed.

(** ** State updates *)

Lemma set_trace_twice (v w : list event) (s : driver) :
  set_trace v (set_trace w s) = set_trace v s.
Proof. reflexivity. Qed.

Lemma driver_eta (s : driver) :
  s = {| hw := hw s; ee_mode := ee_mode s; ee_cmd_mask := ee_cmd_mask s;
         ee_status := ee_status s; ticks_per_15_nsec := ticks_per_15_nsec s;
         ticks_per_20_nsec := ticks_per_20_nsec s;
         ticks_per_30_nsec := ticks_per_30_nsec s;
         ee_last_access := ee_last_access s; ee_enabled := ee_enabled s;
         n_ticks := n_ticks s; n_reads := n_reads s; trace := trace s |}.
Proof. destruct s; reflexivity. Qed.

(** ** Enabling and command words *)

(** X1.  ee_enable() on a disabled driver turns the bus drivers on and
    sends the read-mode command before it sets the command mask: the
    command word goes out under the mask that was in force before, and
    only afterwards does [ee_cmd_mask] become the mask of the current
    mode.  With the mask still 0, as it is after start-up, the word
    written is 0. *)
Theorem ee_enable_resets_under_previous_mask (s : driver) :
  ee_enabled s = false ->
  (exists s',
     ee_enable s = Some (tt, s') /\
     trace s' = trace s ++ [EvBusEnable;
                            EvWrite 0x555 (Z.land 0x00f000f0 (ee_cmd_mask s));
                            EvDelayUsec 2] /\
     ee_cmd_mask s' = mask_of_mode (ee_mode s)) /\
  (ee_cmd_mask s = 0 ->
   exists s',
     ee_enable s = Some (tt, s') /\
     trace s' = trace s ++ [EvBusEnable; EvWrite 0x555 0; EvDelayUsec 2]).
Proof.
  intro H.
  assert (Hrun : exists s',
     ee_enable s = Some (tt, s') /\
     trace s' = trace s ++ [EvBusEnable;
                            EvWrite 0x555 (Z.land 0x00f000f0 (ee_cmd_mask s));
                            EvDelayUsec 2] /\
     ee_cmd_mask s' = mask_of_mode (ee_mode s)).
  { unfold ee_enable. step_drv. rewrite H. step_drv.
    rewrite ee_read_mode_run. step_drv.
    destruct (ee_mode s); eexists; (split; [reflexivity|]); step_drv;
      rewrite <- app_assoc; split; reflexivity. }
  split; [exact Hrun|]. intros H0.
  destruct Hrun as (s' & Hr & Ht & _). exists s'. split; [exact Hr|].
  rewrite Ht, H0. reflexivity.
Qed.

Lemma ee_enable_resets_under_previous_mask_witness :
  exists s',
    ee_enable (driver_init (sim_platform [] 1)) = Some (tt, s') /\
    trace s' = [EvBusEnable; EvWrite 0x555 0; EvDelayUsec 2].
Proof.
  exact (proj2 (ee_enable_resets_under_previous_mask
                  (driver_init (sim_platform [] 1)) eq_refl) eq_refl).
Defined.

Lemma lor_halves (hi lo : Z) :
  0 <= lo < 2 ^ 16 -> Z.lor (Z.shiftl hi 16) lo = 65536 * hi + lo.
Proof.
  intros Hlo. rewrite Z.shiftl_mul_pow2 by lia. change (2 ^ 16) with 65536 in *.
  rewrite <- Z.lxor_lor.
  - rewrite <- Z.add_nocarry_lxor; [lia|].
    apply Z.bits_inj'. intros n Hn. rewrite Z.land_spec, Z.bits_0.
    destruct (Z.lt_ge_cases n 16).
    + replace (hi * 65536) with (hi * 2 ^ 16) by reflexivity.
      rewrite Z.mul_pow2_bits_low by lia. reflexivity.
    + rewrite (Z.bits_above_log2 lo n); [apply andb_false_r|lia|].
      destruct (Z.eq_dec lo 0) as [->|]; [cbn; lia|].
      apply Z.lt_le_trans with 16; [|lia]. apply Z.log2_lt_pow2; lia.
  - apply Z.bits_inj'. intros n Hn. rewrite Z.land_spec, Z.bits_0.
    destruct (Z.lt_ge_cases n 16).
    + replace (hi * 65536) with (hi * 2 ^ 16) by reflexivity.
      rewrite Z.mul_pow2_bits_low by lia. reflexivity.
    + rewrite (Z.bits_above_log2 lo n); [apply andb_false_r|lia|].
      destruct (Z.eq_dec lo 0) as [->|]; [cbn; lia|].
      apply Z.lt_le_trans with 16; [|lia]. apply Z.log2_lt_pow2; lia.
Qed.

Lemma land_low16 (a : Z) : Z.land a 0xffff = a mod 2 ^ 16.
Proof. change 0xffff with (Z.ones 16). apply Z.land_ones. lia. Qed.

Lemma land_high16 (a : Z) :
  0 <= a < 2 ^ 32 -> Z.land a 0xffff0000 = 65536 * (a / 65536).
Proof.
  intros Ha. change 0xffff0000 with (Z.shiftl (Z.ones 16) 16).
  rewrite (land_high_mask a 16 16) by (try lia; exact Ha). reflexivity.
Qed.

Lemma land_all32 (a : Z) : 0 <= a < 2 ^ 32 -> Z.land a 0xffffffff = a.
Proof.
  intros Ha. change 0xffffffff with (Z.ones 32). rewrite Z.land_ones by lia.
  apply Z.mod_small. exact Ha.
Qed.

Lemma masked_bus_word (m : bus_mode) (c : Z) :
  0 <= c < 2 ^ 16 ->
  Z.land (match m with
          | EE_MODE_16_LOW => c
          | _ => if Z.shiftr c 16 =? 0
                 then Z.lor c (wrap32 (Z.shiftl c 16)) else c
          end) (mask_of_mode m) = bus_word m c.
Proof.
  intros Hc. change (2 ^ 16) with 65536 in Hc.
  assert (Hs : Z.shiftr c 16 = 0).
  { rewrite Z.shiftr_div_pow2 by lia. apply Z.div_small. exact Hc. }
  assert (Hw : wrap32 (Z.shiftl c 16) = Z.shiftl c 16).
  { unfold wrap32. rewrite Z.shiftl_mul_pow2 by lia. apply Z.mod_small.
    change (2 ^ 16) with 65536. change (2 ^ 32) with 4294967296. lia. }
  destruct m; unfold mask_of_mode, bus_word; rewrite ?Hs, ?Hw; cbn [Z.eqb].
  - rewrite Z.lor_comm, lor_halves by exact Hc. apply land_all32.
    change (2 ^ 32) with 4294967296. lia.
  - rewrite land_low16. apply Z.mod_small. exact Hc.
  - rewrite Z.lor_comm, lor_halves by exact Hc. rewrite land_high16.
    + f_equal. Z.div_mod_to_equations; lia.
    + change (2 ^ 32) with 4294967296. lia.
Qed.

Lemma op_of_bus_word (m : bus_mode) (c : Z) :
  0 <= c < 2 ^ 16 ->
  Z.land (match m with
          | EE_MODE_16_LOW => c
          | _ => if Z.shiftr c 16 =? 0
                 then Z.lor c (wrap32 (Z.shiftl c 16)) else c
          end) 0xffff = c.
Proof.
  intros Hc. change (2 ^ 16) with 65536 in Hc.
  assert (Hs : Z.shiftr c 16 = 0).
  { rewrite Z.shiftr_div_pow2 by lia. apply Z.div_small. exact Hc. }
  assert (Hw : wrap32 (Z.shiftl c 16) = Z.shiftl c 16).
  { unfold wrap32. rewrite Z.shiftl_mul_pow2 by lia. apply Z.mod_small.
    change (2 ^ 16) with 65536. change (2 ^ 32) with 4294967296. lia. }
  destruct m; rewrite ?Hs, ?Hw; cbn [Z.eqb];
    rewrite ?(Z.lor_comm c), ?lor_halves by exact Hc; rewrite land_low16;
    change (2 ^ 16) with 65536; Z.div_mod_to_equations; lia.
Qed.

(** X2.  Once the command mask is that of the bus-width mode, ee_cmd()
    with a 16-bit command code puts the code on the half or halves of
    the data bus that the mode selects and 0 on the other; the unlock
    words 0xaa and 0x55 go out the same way, and are sent for every
    code except 0x98, 0xf0, 0xb0 and 0x30. *)
Theorem ee_cmd_drives_selected_devices (s : driver) (addr c : Z) :
  0 <= c < 2 ^ 16 ->
  ee_cmd_mask s = mask_of_mode (ee_mode s) ->
  let m := ee_mode s in
  ee_cmd addr c s
  = Some (tt, after_cmd s
                (if (c =? 0x98) || (c =? 0xf0) || (c =? 0xb0) || (c =? 0x30)
                 then [EvWrite addr (bus_word m c); EvDelayUsec 2]
                 else [EvIrqMask;
                       EvWrite 0x555 (bus_word m 0xaa);
                       EvWrite 0x2aa (bus_word m 0x55);
                       EvWrite addr (bus_word m c);
                       EvIrqUnmask; EvDelayUsec 2])).
Proof.
  intros Hc Hmask m. unfold ee_cmd, after_cmd. step_drv.
  pose proof (masked_bus_word m c Hc) as Hword.
  pose proof (op_of_bus_word m c Hc) as Hop.
  subst m.
  destruct (ee_mode s); cbv iota in Hword, Hop; rewrite Hop;
    destruct ((c =? 0x98) || (c =? 0xf0) || (c =? 0xb0) || (c =? 0x30));
    step_drv; rewrite Hmask, Hword, <- ?app_assoc; reflexivity.
Qed.

Lemma ee_cmd_drives_selected_devices_witness :
  ee_cmd 0x555 0x90 high_device_driver
  = Some (tt, after_cmd high_device_driver
                [EvIrqMask; EvWrite 0x555 0xaa0000; EvWrite 0x2aa 0x550000;
                 EvWrite 0x555 0x900000; EvIrqUnmask; EvDelayUsec 2]).
Proof.
  exact (ee_cmd_drives_selected_devices high_device_driver 0x555 0x90
           ltac:(lia) eq_refl).
Defined.

Lemma ee_cmd_frame (addr cmd : Z) (s : driver) :
  exists s',
    ee_cmd addr cmd s = Some (tt, s') /\
    hw s' = hw s /\ ee_mode s' = ee_mode s /\
    ee_cmd_mask s' = ee_cmd_mask s /\ ee_status s' = ee_status s /\
    ee_enabled s' = ee_enabled s /\ n_reads s' = n_reads s /\
    n_ticks s' = S (n_ticks s) /\
    ee_last_access s' = wrap64 (timer_ticks (hw s) (n_ticks s)).
Proof.
  unfold ee_cmd. step_drv.
  destruct (ee_mode s) eqn:Em;
    repeat match goal with
           | |- context [if ?b then _ else _] =>
               lazymatch type of b with bool => destruct b end
           end;
    step_drv; (eexists; split; [reflexivity|]); step_drv;
    repeat split; exact Em.
Qed.

(** ** Reading *)

Lemma read_words_run (conv : Z -> Z) (count : nat) :
  forall addr s,
    0 <= addr -> addr + Z.of_nat count < 2 ^ 32 ->
    read_words count addr conv s
    = Some (map conv (bus_samples (hw s) (n_reads s) count),
            set_trace (trace s ++ read_cycles addr
                                    (bus_samples (hw s) (n_reads s) count))
                      (set_n_reads (n_reads s + count) s)).
Proof.
  induction count as [|count IH]; intros addr s Ha Hb.
  - cbn [read_words bus_samples read_cycles map]. unfold ret, set_trace, set_n_reads.
    cbn [hw ee_mode ee_cmd_mask ee_status ticks_per_15_nsec ticks_per_20_nsec
       ticks_per_30_nsec ee_last_access ee_enabled n_ticks n_reads trace].
    rewrite app_nil_r, Nat.add_0_r. rewrite <- driver_eta. reflexivity.
  - cbn [read_words bus_samples read_cycles map]. step_drv.
    assert (Hw : wrap32 (addr + 1) = addr + 1)
      by (unfold wrap32; apply Z.mod_small; lia).
    rewrite Hw, IH by lia. step_drv.
    unfold set_trace, set_n_reads.
    cbn [hw ee_mode ee_cmd_mask ee_status ticks_per_15_nsec ticks_per_20_nsec
       ticks_per_30_nsec ee_last_access ee_enabled n_ticks n_reads trace].
    rewrite <- app_assoc, Nat.add_succ_r. reflexivity.
Qed.

Lemma bus_samples_length p k n : List.length (bus_samples p k n) = n.
Proof. revert k. induction n; intro k; cbn; [reflexivity|]. rewrite IHn. reflexivity. Qed.

Lemma bus_samples_range p k n : Forall (fun v => 0 <= v < 2 ^ 32) (bus_samples p k n).
Proof.
  revert k. induction n; intro k; cbn [bus_samples]; constructor; [|apply IHn].
  apply Z.mod_pos_bound. lia.
Qed.

(** X3.  ee_read() of a range inside the device returns 0 and one word
    per address, in address order: the words the bus delivered, whole
    in 32-bit mode, their low or high half in the 16-bit modes.  It
    reads each address once, between one mask and one unmask of the
    interrupts, and sends no command. *)
Theorem ee_read_returns_samples (addr count : Z) (s : driver) :
  0 <= addr -> 0 <= count -> addr + count <= EE_DEVICE_SIZE ->
  let n := Z.to_nat count in
  let vals := bus_samples (hw s) (n_reads s) n in
  ee_read addr count s
  = Some ((0, map (stored_word (ee_mode s)) vals),
          set_trace (trace s ++ [EvIrqMask] ++ read_cycles addr vals
                             ++ [EvIrqUnmask])
                    (set_n_reads (n_reads s + n) s)) /\
  List.length vals = n /\
  (ee_mode s <> EE_MODE_32 ->
   Forall (fun w => 0 <= w < 2 ^ 16) (map (stored_word (ee_mode s)) vals)).
Proof.
  intros Ha Hc Hr n vals. split; [|split].
  - unfold ee_read. rewrite range_check_passes by assumption.
    change EE_DEVICE_SIZE with 1048576 in Hr.
    step_drv.
    destruct (ee_mode s) eqn:Em; cbn [bus_mode_eqb]; step_drv;
      rewrite read_words_run by (cbn [hw n_reads trace]; lia); step_drv;
      fold n vals;
      match goal with
      | |- Some ((0, map ?f ?l), _) = Some ((0, map ?g ?l), _) =>
          replace (map f l) with (map g l)
            by (apply map_ext; intro; unfold stored_word, wrap16;
                rewrite ?Z.shiftr_div_pow2 by lia; reflexivity)
      end;
      do 2 f_equal; unfold set_trace, set_n_reads;
      cbn [hw ee_mode ee_cmd_mask ee_status ticks_per_15_nsec ticks_per_20_nsec
         ticks_per_30_nsec ee_last_access ee_enabled n_ticks n_reads trace];
      rewrite <- !app_assoc; reflexivity.
  - apply bus_samples_length.
  - intros Hm. apply Forall_map.
    eapply Forall_impl; [|apply bus_samples_range]. cbv beta. intros v Hv.
    destruct (ee_mode s); [congruence| |]; unfold stored_word.
    + apply Z.mod_pos_bound. lia.
    + split; [apply Z.div_pos; lia|]. apply Z.div_lt_upper_bound; lia.
Qed.

Lemma ee_read_returns_samples_witness :
  ee_read 0 2 mx29f800cb_driver
  = Some ((0, [0x00c2; 0x2258]),
          set_trace (trace mx29f800cb_driver
                     ++ [EvIrqMask; EvRead 0 0x00c2; EvRead 1 0x2258;
                         EvIrqUnmask])
                    (set_n_reads 2 mx29f800cb_driver)).
Proof.
  exact (proj1 (ee_read_returns_samples 0 2 mx29f800cb_driver
                  ltac:(lia) ltac:(lia) ltac:(vm_compute; discriminate))).
Defined.

(** ** The failure exit of the monitor *)

Lemma poll_loop_gives_up k : forall fuel start T v u stv l c f rt s st us,
  (forall j, status_at s j = st j) ->
  (forall j, usecs_at s start j = us j) ->
  (k < fuel)%nat -> 0 <= c -> 0 <= f ->
  (forall j, (j <= k)%nat -> usecs_before u us j < T) ->
  (forall j, (j <= k)%nat -> settled l c st j = false) ->
  failing (st k) = true ->
  f + fail_count st k = 6 ->
  exists s',
    poll_loop fuel start T v u stv l c f rt s
    = Some (PollLeft (us k) (st k), s') /\
    n_reads s' = (n_reads s + S k)%nat /\
    ee_status s' = ee_status s.
Proof.
  induction k as [|k IH];
    intros fuel start T v u stv l c f rt s st us Hst Hus Hfuel Hc Hf0 Hu Hns
           Hfk Hf;
    (destruct fuel as [|fuel]; [lia|]);
    pose proof (Hu 0%nat ltac:(lia)) as Hu0; cbn [usecs_before] in Hu0;
    apply Z.ltb_lt in Hu0; poll_step Hst Hus Hu0;
    pose proof (Hns 0%nat ltac:(lia)) as Hs0;
    unfold settled, same_as_last in Hs0.
  - cbn [fail_count] in Hf.
    destruct (st 0%nat =? l) eqn:El; destruct (1 <=? c) eqn:Ec;
      try discriminate Hs0; run_drv;
      repeat match goal with
             | |- context [if ?b then _ else _] =>
                 lazymatch b with
                 | context [negb (Z.land ?x FAIL_BITS =? 0)] =>
                     change (negb (Z.land x FAIL_BITS =? 0)) with (failing x);
                     rewrite Hfk; cbn [andb]
                 | 5 <? f => destruct (Z.ltb_spec 5 f); [|lia]
                 | _ => destruct b
                 end; run_drv
             end.
    all: eexists; split; [reflexivity|]; run_drv; split; [lia|reflexivity].
  - cbn [fail_count] in Hf.
    pose proof (fail_count_nonneg (fun j => st (S j)) k) as Hfc.
    destruct (st 0%nat =? l) eqn:El; destruct (1 <=? c) eqn:Ec;
      try discriminate Hs0; run_drv;
      repeat match goal with
             | |- context [if ?b then _ else _] =>
                 lazymatch b with
                 | context [negb (Z.land ?x FAIL_BITS =? 0)] =>
                     change (negb (Z.land x FAIL_BITS =? 0)) with (failing x);
                     destruct (failing x) eqn:Ef; cbn [andb]
                 | 5 <? f => destruct (Z.ltb_spec 5 f); [lia|]
                 | _ => destruct b
                 end; run_drv
             end.
    all: poll_rec IH s st us.
    all: try (apply status_at_next with (s := s); [exact Hst|reflexivity..]).
    all: try (apply usecs_at_next with (s := s); [exact Hus|reflexivity..]).
    all: try lia.
    all: try exact Hfk.
    all: try (intros [|j] Hj; [exact (Hu 1%nat ltac:(lia))
                              |exact (Hu (S (S j)) ltac:(lia))]).
    all: try (intros j Hj;
              rewrite (settled_shift l c _ _ st j);
              [exact (Hns (S j) ltac:(lia))
              |first [reflexivity|symmetry; apply Z.eqb_eq; exact El]
              |rewrite El; first [reflexivity|apply Z.leb_le; lia]]).
    all: match goal with
         | Hr : _ /\ _ /\ _ |- _ =>
             destruct Hr as (Hrun & Hn & Hfin);
             eexists; split; [exact Hrun|]; split; [|exact Hfin];
             rewrite Hn; cbn [n_reads]; lia
         end.
Qed.

(** X4.  ee_wait_for_done_status() leaves its loop on the seventh
    sample that shows a failure bit, when the status has not settled
    and the timeout has not expired before: it returns 1 after exactly
    that many reads and records the failure status of the operation
    (erase or program). *)
Theorem monitor_gives_up_on_seventh_failure
    (fuel : nat) (T v mode : Z) (s : driver) (k : nat) :
  (k < fuel)%nat ->
  (forall j, (j <= k)%nat -> usecs_before 0 (mon_usecs s) j < T) ->
  (forall j, (j <= k)%nat -> settled 0 0 (mon_status s) j = false) ->
  failing (mon_status s k) = true ->
  fail_count (mon_status s) k = 6 ->
  exists s', ee_wait_for_done_status fuel T v mode s = Some (1, s') /\
             ee_status s' = (if mode =? EE_MODE_ERASE
                             then EE_STATUS_ERASE_FAILURE
                             else EE_STATUS_PROG_FAILURE) /\
             n_reads s' = (n_reads s + S k)%nat.
Proof.
  intros Hk Hu Hns Hfk Hf. unfold ee_wait_for_done_status. run_drv.
  match goal with
  | |- context [poll_loop ?fu ?sta ?T ?v ?u' ?st' ?l' ?c' ?f' ?rt' ?s1] =>
      destruct (poll_loop_gives_up k fu sta T v u' st' l' c' f' rt' s1
                  (mon_status s) (mon_usecs s))
        as (s1' & Hrun & Hn & Hst)
  end; try assumption; try reflexivity; try lia.
  rewrite Hrun. revert Hn Hst. run_drv. intros Hn Hst.
  change (negb (Z.land (mon_status s k) FAIL_BITS =? 0))
    with (failing (mon_status s k)). rewrite Hfk.
  destruct (negb (v =? 0)); run_drv; clear_status;
    (eexists; split; [reflexivity|]; split; [exact Hst2|]);
    rewrite Hnr2; exact Hn.
Qed.

Lemma monitor_gives_up_on_seventh_failure_witness :
  exists s',
    ee_wait_for_done_status 8 360 0 EE_MODE_PROGRAM failing_driver
    = Some (1, s') /\
    ee_status s' = EE_STATUS_PROG_FAILURE /\ n_reads s' = 7%nat.
Proof.
  apply (monitor_gives_up_on_seventh_failure 8 360 0 EE_MODE_PROGRAM
           failing_driver 6).
  - lia.
  - intros j Hj.
    apply (all_below_spec
             (fun j => usecs_before 0 (mon_usecs failing_driver) j < 360) 7);
      [vm_compute; repeat split|lia].
  - intros j Hj.
    apply (all_below_spec
             (fun j => settled 0 0 (mon_status failing_driver) j = false) 7);
      [vm_compute; repeat split|lia].
  - vm_compute. reflexivity.
  - vm_compute. reflexivity.
Defined.

(** ** Faults of the monitor *)

Lemma poll_loop_expires N : forall fuel start T v u stv l c f rt s st us,
  (forall j, status_at s j = st j) ->
  (forall j, usecs_at s start j = us j) ->
  (N <= fuel)%nat -> 0 <= c -> 0 <= f ->
  (forall j, (j < N)%nat -> usecs_before u us j < T) ->
  T <= usecs_before u us N ->
  (forall j, (j < N)%nat -> settled l c st j = false) ->
  f + fail_count st N <= 6 ->
  exists s' uu,
    poll_loop fuel start T v u stv l c f rt s
    = Some (PollLeft uu (match N with O => stv | S n => st n end), s') /\
    n_reads s' = (n_reads s + N)%nat /\
    ee_status s' = ee_status s.
Proof.
  induction N as [|N IH];
    intros fuel start T v u stv l c f rt s st us Hst Hus Hfuel Hc Hf0 Hu HT
           Hns Hf.
  - cbn [usecs_before] in HT. rewrite poll_loop_expired by exact HT.
    eexists _, _. split; [reflexivity|]. split; [lia|reflexivity].
  - destruct fuel as [|fuel]; [lia|].
    pose proof (Hu 0%nat ltac:(lia)) as Hu0; cbn [usecs_before] in Hu0;
      apply Z.ltb_lt in Hu0; poll_step Hst Hus Hu0.
    pose proof (Hns 0%nat ltac:(lia)) as Hs0.
    unfold settled, same_as_last in Hs0.
    cbn [fail_count] in Hf.
    pose proof (fail_count_nonneg (fun j => st (S j)) N) as Hfc.
    destruct (st 0%nat =? l) eqn:El; destruct (1 <=? c) eqn:Ec;
      try discriminate Hs0; run_drv;
      repeat match goal with
             | |- context [if ?b then _ else _] =>
                 lazymatch b with
                 | context [negb (Z.land ?x FAIL_BITS =? 0)] =>
                     change (negb (Z.land x FAIL_BITS =? 0)) with (failing x);
                     destruct (failing x) eqn:Ef; cbn [andb]
                 | 5 <? f => destruct (Z.ltb_spec 5 f); [lia|]
                 | _ => destruct b
                 end; run_drv
             end.
    all: poll_rec IH s st us.
    all: try (apply status_at_next with (s := s); [exact Hst|reflexivity..]).
    all: try (apply usecs_at_next with (s := s); [exact Hus|reflexivity..]).
    all: try lia.
    all: try (intros [|j] Hj; [exact (Hu 1%nat ltac:(lia))
                              |exact (Hu (S (S j)) ltac:(lia))]).
    all: try (destruct N; exact HT).
    all: try (intros j Hj;
              rewrite (settled_shift l c _ _ st j);
              [exact (Hns (S j) ltac:(lia))
              |first [reflexivity|symmetry; apply Z.eqb_eq; exact El]
              |rewrite El; first [reflexivity|apply Z.leb_le; lia]]).
    all: match goal with
         | Hr : exists _, _ |- _ =>
             destruct Hr as (uu & Hrun & Hn & Hfin);
             eexists _, uu; split;
             [rewrite Hrun; destruct N; reflexivity|];
             split; [rewrite Hn; cbn [n_reads]; lia|exact Hfin]
         end.
Qed.

Lemma wait_expires fuel T v mode s N :
  (N <= fuel)%nat ->
  (forall j, (j < N)%nat -> usecs_before 0 (mon_usecs s) j < T) ->
  T <= usecs_before 0 (mon_usecs s) N ->
  (forall j, (j < N)%nat -> settled 0 0 (mon_status s) j = false) ->
  fail_count (mon_status s) N <= 6 ->
  exists s', ee_wait_for_done_status fuel T v mode s = Some (1, s') /\
             n_reads s' = (n_reads s + N)%nat.
Proof.
  intros HN Hu HT Hns Hf. unfold ee_wait_for_done_status. run_drv.
  match goal with
  | |- context [poll_loop ?fu ?sta ?T ?v ?u' ?st' ?l' ?c' ?f' ?rt' ?s1] =>
      destruct (poll_loop_expires N fu sta T v u' st' l' c' f' rt' s1
                  (mon_status s) (mon_usecs s))
        as (s1' & uu & Hrun & Hn & Hst)
  end; try assumption; try reflexivity; try lia.
  rewrite Hrun. revert Hn Hst. run_drv. intros Hn Hst.
  split_ifs; clear_status;
    (eexists; split; [reflexivity|]); rewrite Hnr2; exact Hn.
Qed.

Lemma wait_gives_up fuel T v mode s k :
  (k < fuel)%nat ->
  (forall j, (j <= k)%nat -> usecs_before 0 (mon_usecs s) j < T) ->
  (forall j, (j <= k)%nat -> settled 0 0 (mon_status s) j = false) ->
  failing (mon_status s k) = true ->
  fail_count (mon_status s) k = 6 ->
  exists s', ee_wait_for_done_status fuel T v mode s = Some (1, s') /\
             n_reads s' = (n_reads s + S k)%nat.
Proof.
  intros Hk Hu Hns Hfk Hf. unfold ee_wait_for_done_status. run_drv.
  match goal with
  | |- context [poll_loop ?fu ?sta ?T ?v ?u' ?st' ?l' ?c' ?f' ?rt' ?s1] =>
      destruct (poll_loop_gives_up k fu sta T v u' st' l' c' f' rt' s1
                  (mon_status s) (mon_usecs s))
        as (s1' & Hrun & Hn & Hst)
  end; try assumption; try reflexivity; try lia.
  rewrite Hrun. revert Hn Hst. run_drv. intros Hn Hst.
  split_ifs; clear_status;
    (eexists; split; [reflexivity|]); rewrite Hnr2; exact Hn.
Qed.

(** A fault after [n] reads, with the classification and the bus
    traffic that [wait_outcome] gives for it. *)
Lemma wait_fault_after fuel T v mode s s' n :
  ee_wait_for_done_status fuel T v mode s = Some (1, s') ->
  n_reads s' = (n_reads s + n)%nat ->
  ee_cmd_mask s' = ee_cmd_mask s /\
  ee_status s' = fault_status mode
                   match n with O => 0 | S n' => mon_status s n' end /\
  exists evs, Forall poll_event evs /\
    trace s' = trace s ++ evs ++ status_clear_events (ee_cmd_mask s).
Proof.
  intros Hrun Hn. apply wait_outcome in Hrun.
  destruct Hrun as (_ & _ & Hk & evs & Hev
                    & [(H10 & _)|(_ & (n' & Hn' & Hst) & Htr)]);
    [discriminate H10|].
  assert (n' = n) by lia. subst n'.
  split; [exact Hk|]. split; [exact Hst|]. exists evs. split; assumption.
Qed.

(** C7 (as amended).  The monitor returns 1 in two cases: the timeout
    elapses before the status settles, with fewer than seven failing
    samples so far ([N] reads were made), or a seventh sample shows the
    failure bit before either happens.  In both cases the last bus
    cycles before the return are the status-clear command (read/reset
    written to word 0, then the read-mode command), and the status kept
    is the failure variant of the operation kind when the last status
    word read shows a failure bit, which is always so in the second
    case and may be so in the first, and the timeout variant otherwise.
    When the status settles first the monitor returns 0 with status
    Normal and sends no command.  Once the clock reaches the timeout
    the monitor returns, and in one of these ways. *)
Theorem monitor_faults_return_to_read_mode
    (fuel : nat) (T v mode : Z) (s : driver) :
  let failure := if mode =? EE_MODE_ERASE then EE_STATUS_ERASE_FAILURE
                 else EE_STATUS_PROG_FAILURE in
  let timeout := if mode =? EE_MODE_ERASE then EE_STATUS_ERASE_TIMEOUT
                 else EE_STATUS_PROG_TIMEOUT in
  let cleared s' :=
    ee_cmd_mask s' = ee_cmd_mask s /\
    exists evs, Forall poll_event evs /\
      trace s' = trace s ++ evs ++ status_clear_events (ee_cmd_mask s) in
  (* the timeout elapses before the status settles *)
  (forall N : nat,
     (N <= fuel)%nat ->
     (forall j, (j < N)%nat -> usecs_before 0 (mon_usecs s) j < T) ->
     T <= usecs_before 0 (mon_usecs s) N ->
     (forall j, (j < N)%nat -> settled 0 0 (mon_status s) j = false) ->
     fail_count (mon_status s) N <= 6 ->
     exists s',
       ee_wait_for_done_status fuel T v mode s = Some (1, s') /\
       n_reads s' = (n_reads s + N)%nat /\ cleared s' /\
       ee_status s'
       = (if failing match N with O => 0 | S n => mon_status s n end
          then failure else timeout)) /\
  (* a seventh sample shows the failure bit before that *)
  (forall k : nat,
     (k < fuel)%nat ->
     (forall j, (j <= k)%nat -> usecs_before 0 (mon_usecs s) j < T) ->
     (forall j, (j <= k)%nat -> settled 0 0 (mon_status s) j = false) ->
     failing (mon_status s k) = true ->
     fail_count (mon_status s) k = 6 ->
     exists s',
       ee_wait_for_done_status fuel T v mode s = Some (1, s') /\
       n_reads s' = (n_reads s + S k)%nat /\ cleared s' /\
       ee_status s' = failure) /\
  (* the status settles first *)
  (forall k : nat,
     (k < fuel)%nat ->
     (forall j, (j <= k)%nat -> usecs_before 0 (mon_usecs s) j < T) ->
     (forall j, (j < k)%nat -> settled 0 0 (mon_status s) j = false) ->
     settled 0 0 (mon_status s) k = true ->
     fail_count (mon_status s) k <= 6 ->
     exists s' evs,
       ee_wait_for_done_status fuel T v mode s = Some (0, s') /\
       n_reads s' = (n_reads s + S k)%nat /\
       ee_status s' = EE_STATUS_NORMAL /\
       Forall poll_event evs /\ trace s' = trace s ++ evs) /\
  (* there is no other outcome *)
  (forall j : nat,
     (j < fuel)%nat -> T <= mon_usecs s j ->
     exists r s',
       ee_wait_for_done_status fuel T v mode s = Some (r, s') /\
       ((r = 0 /\ ee_status s' = EE_STATUS_NORMAL) \/
        (r = 1 /\ cleared s' /\
         (ee_status s' = failure \/ ee_status s' = timeout)))).
Proof.
  intros failure timeout cleared. split; [|split; [|split]].
  - intros N HN Hu HT Hns Hf.
    destruct (wait_expires fuel T v mode s N HN Hu HT Hns Hf)
      as (s' & Hrun & Hn).
    destruct (wait_fault_after _ _ _ _ _ _ _ Hrun Hn) as (Hk & Hst & Htr).
    exists s'. split; [exact Hrun|]. split; [exact Hn|].
    split; [split; assumption|]. exact Hst.
  - intros k Hk Hu Hns Hfk Hf.
    destruct (wait_gives_up fuel T v mode s k Hk Hu Hns Hfk Hf)
      as (s' & Hrun & Hn).
    destruct (wait_fault_after _ _ _ _ _ _ _ Hrun Hn) as (Hm & Hst & Htr).
    exists s'. split; [exact Hrun|]. split; [exact Hn|].
    split; [split; assumption|].
    rewrite Hst. unfold fault_status. rewrite Hfk. reflexivity.
  - intros k Hk Hu Hns Hs Hf.
    destruct (wait_settles fuel T v mode s k Hk Hu Hns Hs Hf)
      as (s' & Hrun & Hst & Hn).
    pose proof (wait_outcome _ _ _ _ _ _ _ Hrun)
      as (_ & _ & _ & evs & Hev & [(_ & _ & Htr)|(H10 & _)]);
      [|discriminate H10].
    exists s', evs. repeat (split; [assumption|]). exact Htr.
  - intros j Hj HT.
    destruct (wait_terminates fuel T v mode s j Hj HT) as (r & s' & Hrun).
    exists r, s'. split; [exact Hrun|].
    apply wait_outcome in Hrun.
    destruct Hrun as (_ & _ & Hk & evs & Hev
                      & [(-> & Hst & _)|(-> & (n & _ & Hst) & Htr)]).
    + left. split; [reflexivity|exact Hst].
    + right. split; [reflexivity|]. split.
      * split; [exact Hk|]. exists evs. split; assumption.
      * rewrite Hst. unfold fault_status. destruct (failing _); auto.
Qed.

Lemma monitor_faults_return_to_read_mode_witness :
  (exists s',
     ee_wait_for_done_status 8 360 0 EE_MODE_PROGRAM restless_driver
     = Some (1, s') /\
     n_reads s' = 4%nat /\
     (ee_cmd_mask s' = 0xffff /\
      exists evs, Forall poll_event evs /\
        trace s' = trace restless_driver ++ evs
                   ++ status_clear_events 0xffff) /\
     ee_status s' = EE_STATUS_PROG_TIMEOUT) /\
  (exists s',
     ee_wait_for_done_status 8 360 0 EE_MODE_ERASE failing_driver
     = Some (1, s') /\
     n_reads s' = 7%nat /\
     (ee_cmd_mask s' = 0xffff /\
      exists evs, Forall poll_event evs /\
        trace s' = trace failing_driver ++ evs
                   ++ status_clear_events 0xffff) /\
     ee_status s' = EE_STATUS_ERASE_FAILURE).
Proof.
  split.
  - apply (proj1 (monitor_faults_return_to_read_mode 8 360 0 EE_MODE_PROGRAM
                    restless_driver) 4%nat).
    + lia.
    + intros j Hj.
      apply (all_below_spec
               (fun j => usecs_before 0 (mon_usecs restless_driver) j < 360) 4);
        [vm_compute; repeat split|lia].
    + vm_compute. discriminate.
    + intros j Hj.
      apply (all_below_spec
               (fun j => settled 0 0 (mon_status restless_driver) j = false) 4);
        [vm_compute; repeat split|lia].
    + vm_compute. discriminate.
  - apply (proj1 (proj2 (monitor_faults_return_to_read_mode 8 360 0
                           EE_MODE_ERASE failing_driver)) 6%nat).
    + lia.
    + intros j Hj.
      apply (all_below_spec
               (fun j => usecs_before 0 (mon_usecs failing_driver) j < 360) 7);
        [vm_compute; repeat split|lia].
    + intros j Hj.
      apply (all_below_spec
               (fun j => settled 0 0 (mon_status failing_driver) j = false) 7);
        [vm_compute; repeat split|lia].
    + vm_compute. reflexivity.
    + vm_compute. reflexivity.
Defined.

(** C7 as stated fails: this poll ends on the timeout, after two reads
    that both show the failure bit, and the status kept is the program
    failure, not the program timeout. *)
Lemma timeout_with_failure_bit_is_stored_as_failure :
  (* the poll ends on the timeout, after two reads *)
  mon_usecs flagging_driver 0 < 360 <= mon_usecs flagging_driver 1 /\
  (* two samples show the failure bit, not seven *)
  fail_count (mon_status flagging_driver) 2 = 2 /\
  exists s',
    ee_wait_for_done_status 8 360 0 EE_MODE_PROGRAM flagging_driver
    = Some (1, s') /\
    n_reads s' = 2%nat /\
    ee_status s' = EE_STATUS_PROG_FAILURE /\
    ee_status s' <> EE_STATUS_PROG_TIMEOUT.
Proof.
  split; [vm_compute; split; [reflexivity|discriminate]|].
  split; [vm_compute; reflexivity|].
  eexists. split; [vm_compute; reflexivity|].
  split; [reflexivity|]. split; [reflexivity|]. vm_compute. discriminate.
Qed.

(** ** Program sequences *)

Lemma count_programs_app (a b : list event) :
  count_programs (a ++ b) = (count_programs a + count_programs b)%nat.
Proof. unfold count_programs. rewrite filter_app, length_app. reflexivity. Qed.

Lemma count_programs_poll (evs : list event) :
  Forall poll_event evs -> count_programs evs = 0%nat.
Proof.
  unfold count_programs. induction 1 as [|e evs He _ IH]; [reflexivity|].
  destruct e; try contradiction; exact IH.
Qed.

Lemma ee_program_word_run (fuel : nat) (addr word : Z) (s : driver) :
  clock_live (hw s) fuel 360 ->
  exists rc s1 evs,
    ee_program_word fuel addr word s = Some (rc, s1) /\
    hw s1 = hw s /\ ee_mode s1 = ee_mode s /\ ee_cmd_mask s1 = ee_cmd_mask s /\
    trace s1 = trace s ++ program_events (ee_cmd_mask s) addr word ++ evs /\
    count_programs evs = 0%nat /\
    (rc = 0 \/ rc = 1).
Proof.
  intros Hclock. unfold ee_program_word. step_drv.
  match goal with
  | |- context [ee_wait_for_done_status fuel ?T ?v ?m ?s3] =>
      replace s3
        with (set_trace (trace s ++ program_events (ee_cmd_mask s) addr word) s)
        by (rewrite !set_trace_twice; unfold program_events;
            rewrite <- !app_assoc; reflexivity)
  end.
  set (s3 := set_trace _ s).
  destruct (Hclock (n_ticks s3)) as (j & Hj & HT).
  destruct (wait_terminates fuel 360 0 EE_MODE_PROGRAM s3 j Hj HT)
    as (rc & s4 & Hw).
  rewrite Hw. pose proof (wait_outcome _ _ _ _ _ _ _ Hw)
    as (Hhw4 & Hm4 & Hk4 & evs & Hev & Hout).
  exists rc, s4.
  destruct Hout as [(-> & _ & Htr4)|(-> & _ & Htr4)].
  - exists evs. split; [reflexivity|]. repeat (split; [assumption|]).
    split; [rewrite Htr4; subst s3; cbn [trace set_trace];
            rewrite <- app_assoc; reflexivity|].
    split; [apply count_programs_poll; exact Hev|left; reflexivity].
  - exists (evs ++ status_clear_events (ee_cmd_mask s)).
    split; [reflexivity|]. repeat (split; [assumption|]).
    split; [rewrite Htr4; subst s3; cbn [trace set_trace ee_cmd_mask];
            rewrite <- !app_assoc; reflexivity|].
    split; [|right; reflexivity].
    rewrite count_programs_app, (count_programs_poll evs Hev). reflexivity.
Qed.

Lemma write_word_try_run (fuel : nat) (addr d : Z) (gas : nat) :
  forall try_count s,
    0 <= try_count <= 2 -> (Z.to_nat (3 - try_count) <= gas)%nat ->
    clock_live (hw s) fuel 360 ->
    exists rc s' evs,
      write_word_try gas fuel addr d try_count s = Some (rc, s') /\
      hw s' = hw s /\ ee_mode s' = ee_mode s /\
      ee_cmd_mask s' = ee_cmd_mask s /\
      trace s' = trace s ++ evs /\
      (rc = 0 \/ rc = 3 \/ rc = 4) /\
      (1 <= count_programs evs)%nat /\
      Z.of_nat (count_programs evs) <= 3 - try_count.
Proof.
  induction gas as [|gas IH]; intros try_count s Ht Hgas Hclock; [lia|].
  cbn [write_word_try]. step_drv.
  destruct (ee_program_word_run fuel addr (load_value (ee_mode s) d) s Hclock)
    as (rc1 & s1 & evs1 & Hp & Hhw1 & Hm1 & Hk1 & Htr1 & Hc1 & Hrc1).
  rewrite Hp. cbv beta iota.
  assert (Hcp : count_programs (program_events (ee_cmd_mask s) addr
                                  (load_value (ee_mode s) d) ++ evs1) = 1%nat)
    by (rewrite count_programs_app, Hc1; reflexivity).
  assert (Hretry : forall s2 evs2,
            hw s2 = hw s -> ee_mode s2 = ee_mode s ->
            ee_cmd_mask s2 = ee_cmd_mask s ->
            trace s2 = trace s ++ evs2 -> count_programs evs2 = 1%nat ->
            try_count < 2 ->
            exists rc s' evs,
              write_word_try gas fuel addr d (try_count + 1) s2 = Some (rc, s') /\
              hw s' = hw s /\ ee_mode s' = ee_mode s /\
              ee_cmd_mask s' = ee_cmd_mask s /\
              trace s' = trace s ++ evs /\
              (rc = 0 \/ rc = 3 \/ rc = 4) /\
              (1 <= count_programs evs)%nat /\
              Z.of_nat (count_programs evs) <= 3 - try_count).
  { intros s2 evs2 Hh2 Hm2 Hk2 Ht2 Hc2 Hlt.
    destruct (IH (try_count + 1) s2 ltac:(lia) ltac:(lia))
      as (rc & s' & evs & Hrun & Hh & Hm & Hk & Htr & Hrc & Hlo & Hhi).
    { rewrite Hh2. exact Hclock. }
    exists rc, s', (evs2 ++ evs). split; [exact Hrun|].
    split; [congruence|]. split; [congruence|]. split; [congruence|].
    split; [rewrite Htr, Ht2, <- app_assoc; reflexivity|].
    split; [exact Hrc|]. rewrite count_programs_app, Hc2. lia. }
  destruct Hrc1 as [-> | ->]; cbn [Z.eqb negb].
  - (* programmed: verify *)
    step_drv.
    match goal with
    | |- context [negb (?x =? 0)] => destruct (negb (x =? 0))
    end.
    + destruct (Z.ltb_spec try_count 2) as [Hlt|Hge]; cbn [andb].
      * match goal with
        | |- context [if ?b then _ else _] => destruct b
        end.
        -- apply Hretry with (evs2 := (program_events (ee_cmd_mask s) addr
                                  (load_value (ee_mode s) d) ++ evs1)
                                 ++ [EvRead addr (wrap32 (bus_data (hw s1) (n_reads s1)))]);
             try assumption.
           ++ cbn [trace set_trace]. rewrite Htr1, <- !app_assoc. reflexivity.
           ++ rewrite count_programs_app, Hcp. reflexivity.
        -- step_drv. eexists 4, _, _. split; [reflexivity|]. step_drv.
           repeat (split; [assumption|]).
           split; [rewrite Htr1, <- !app_assoc; reflexivity|].
           split; [auto|].
           rewrite !count_programs_app, Hc1; unfold count_programs;
        cbn [program_events filter List.length Nat.add]; lia.
      * step_drv. eexists 4, _, _. split; [reflexivity|]. step_drv.
        repeat (split; [assumption|]).
        split; [rewrite Htr1, <- !app_assoc; reflexivity|].
        split; [auto|].
        rewrite !count_programs_app, Hc1; unfold count_programs;
        cbn [program_events filter List.length Nat.add]; lia.
    + step_drv. eexists 0, _, _. split; [reflexivity|]. step_drv.
      repeat (split; [assumption|]).
      split; [rewrite Htr1, <- !app_assoc; reflexivity|].
      split; [auto|].
      rewrite !count_programs_app, Hc1; unfold count_programs;
        cbn [program_events filter List.length Nat.add]; lia.
  - (* the monitor reported a failure *)
    destruct (Z.ltb_spec try_count 2) as [Hlt|Hge].
    + apply Hretry with (evs2 := program_events (ee_cmd_mask s) addr
                                  (load_value (ee_mode s) d) ++ evs1);
        assumption.
    + step_drv. eexists 3, _, _. split; [reflexivity|]. step_drv.
      repeat (split; [assumption|]).
      split; [rewrite Htr1, <- !app_assoc; reflexivity|].
      split; [auto|].
      rewrite !count_programs_app, Hc1; unfold count_programs;
        cbn [program_events filter List.length Nat.add]; lia.
Qed.

Lemma write_loop_run (fuel : nat) (count : nat) :
  forall addr data s,
    clock_live (hw s) fuel 360 ->
    exists rc s' evs,
      write_loop count fuel addr data s = Some (rc, s') /\
      ee_cmd_mask s' = ee_cmd_mask s /\
      trace s' = trace s ++ evs /\
      (rc = 0 \/ rc = 3 \/ rc = 4) /\
      (count_programs evs <= 3 * count)%nat /\
      (rc = 0 -> (count <= count_programs evs)%nat).
Proof.
  induction count as [|count IH]; intros addr data s Hclock.
  - cbn [write_loop]. unfold bind. rewrite ee_read_mode_run.
    eexists 0, _, _. split; [reflexivity|]. unfold after_cmd. step_drv.
    split; [reflexivity|]. split; [reflexivity|]. split; [auto|].
    split; [cbn; lia|]. intros _. lia.
  - cbn [write_loop]. cbn [bind].
    destruct (write_word_try_run fuel addr (hd 0 data) 3 0 s
                ltac:(lia) ltac:(cbn; lia) Hclock)
      as (rc1 & s1 & evs1 & Hrun & Hh1 & Hm1 & Hk1 & Htr1 & Hrc1 & Hlo & Hhi).
    rewrite Hrun.
    destruct (Z.eqb_spec rc1 0) as [->|Hne].
    + destruct (IH (wrap32 (addr + 1)) (tl data) s1)
        as (rc & s' & evs & Hr & Hk & Htr & Hrc & Hc & Hc0).
      { rewrite Hh1. exact Hclock. }
      exists rc, s', (evs1 ++ evs). split; [exact Hr|].
      split; [congruence|].
      split; [rewrite Htr, Htr1, <- app_assoc; reflexivity|].
      split; [exact Hrc|]. rewrite count_programs_app.
      split; [lia|]. intros H0. specialize (Hc0 H0). lia.
    + exists rc1, s1, evs1. split; [reflexivity|]. split; [exact Hk1|].
      split; [exact Htr1|].
      split; [destruct Hrc1 as [?|[?|?]]; [contradiction|auto|auto]|].
      split; [lia|]. intros H0. contradiction.
Qed.

(** X5.  ee_write() of a range inside the device, on a platform whose
    timer advances, returns 0, 3 or 4; it starts at most three program
    sequences per word, and, when it returns 0, at least one per
    word. *)
Theorem ee_write_bounded_retries
    (fuel : nat) (addr : Z) (data : list Z) (count : Z) (s : driver) :
  0 <= addr -> 0 <= count -> addr + count <= EE_DEVICE_SIZE ->
  clock_live (hw s) fuel 360 ->
  exists rc s' evs,
    ee_write fuel addr data count s = Some (rc, s') /\
    trace s' = trace s ++ evs /\
    (rc = 0 \/ rc = 3 \/ rc = 4) /\
    Z.of_nat (count_programs evs) <= 3 * count /\
    (rc = 0 -> count <= Z.of_nat (count_programs evs)).
Proof.
  intros Ha Hc Hr Hclock. unfold ee_write.
  rewrite range_check_passes by assumption.
  destruct (write_loop_run fuel (Z.to_nat count) addr data s Hclock)
    as (rc & s' & evs & Hrun & _ & Htr & Hrc & Hhi & Hlo).
  exists rc, s', evs. split; [exact Hrun|]. split; [exact Htr|].
  split; [exact Hrc|]. split; [lia|]. intros H0. specialize (Hlo H0). lia.
Qed.

Lemma ee_write_bounded_retries_witness :
  exists rc s' evs,
    ee_write 1 0x100 [0x1234; 0x5678] 2 slow_clock_driver = Some (rc, s') /\
    trace s' = trace slow_clock_driver ++ evs /\
    (rc = 0 \/ rc = 3 \/ rc = 4) /\
    Z.of_nat (count_programs evs) <= 3 * 2 /\
    (rc = 0 -> 2 <= Z.of_nat (count_programs evs)).
Proof.
  exact (ee_write_bounded_retries 1 0x100 [0x1234; 0x5678] 2 slow_clock_driver
           ltac:(lia) ltac:(lia) ltac:(vm_compute; discriminate)
           (sim_clock_live [] 3000000 1 360 ltac:(lia) ltac:(lia))).
Defined.

Lemma steady_settles (st : nat -> Z) (rm : Z) :
  (forall k, st k = rm) ->
  let k := if rm =? 0 then 1%nat else 2%nat in
  (forall j, (j < k)%nat -> settled 0 0 st j = false) /\
  settled 0 0 st k = true /\ fail_count st k <= 6.
Proof.
  intros Hst k. subst k. unfold settled, same_as_last.
  destruct (Z.eqb_spec rm 0) as [E|E].
  - split; [|split].
    + intros [|[|j]] Hj; rewrite ?Hst; lia.
    + rewrite !Hst. lia.
    + cbn [fail_count]. destruct (failing _); lia.
  - split; [|split].
    + intros [|[|[|j]]] Hj; rewrite ?Hst; lia.
    + rewrite !Hst. lia.
    + cbn [fail_count]. destruct (failing _), (failing _); lia.
Qed.

Lemma ee_program_word_steady (fuel : nat) (addr word r : Z) (s : driver) :
  steady_device (hw s) r -> clock_fast (hw s) 360 -> (3 <= fuel)%nat ->
  exists s1 evs,
    ee_program_word fuel addr word s = Some (0, s1) /\
    hw s1 = hw s /\ ee_mode s1 = ee_mode s /\ ee_cmd_mask s1 = ee_cmd_mask s /\
    trace s1 = trace s ++ program_events (ee_cmd_mask s) addr word ++ evs /\
    count_programs evs = 0%nat.
Proof.
  intros Hdev Hclk Hfuel. unfold ee_program_word. step_drv.
  match goal with
  | |- context [ee_wait_for_done_status fuel ?T ?v ?m ?s3] =>
      replace s3
        with (set_trace (trace s ++ program_events (ee_cmd_mask s) addr word) s)
        by (rewrite !set_trace_twice; unfold program_events;
            rewrite <- !app_assoc; reflexivity)
  end.
  set (s3 := set_trace _ s).
  assert (Hst : forall k, mon_status s3 k = Z.land r (ee_cmd_mask s)).
  { intro k. unfold mon_status, status_at. subst s3. cbn [hw set_trace ee_cmd_mask n_reads].
    rewrite Hdev. reflexivity. }
  destruct (steady_settles (mon_status s3) _ Hst) as (Hns & Hs & Hf).
  set (k := if Z.land r (ee_cmd_mask s) =? 0 then 1%nat else 2%nat) in *.
  assert (Hk : (k <= 2)%nat) by (subst k; destruct (_ =? 0); lia).
  destruct (wait_settles fuel 360 0 EE_MODE_PROGRAM s3 k ltac:(lia))
    as (s4 & Hw & _ & _); try assumption.
  { intros [|j] Hj; cbn [usecs_before]; [lia|].
    unfold mon_usecs. subst s3. cbn [hw set_trace n_ticks].
    replace (S (n_ticks s) + j)%nat with (n_ticks s + S j)%nat by lia.
    apply Hclk. lia. }
  rewrite Hw. pose proof (wait_outcome _ _ _ _ _ _ _ Hw)
    as (Hhw4 & Hm4 & Hk4 & evs & Hev & Hout).
  destruct Hout as [(_ & _ & Htr4)|(H10 & _)]; [|discriminate H10].
  exists s4, evs. split; [reflexivity|]. repeat (split; [assumption|]).
  split; [rewrite Htr4; subst s3; cbn [trace set_trace];
          rewrite <- app_assoc; reflexivity|].
  apply count_programs_poll. exact Hev.
Qed.

Lemma write_word_try_steady (fuel : nat) (addr d r : Z) (gas : nat) :
  forall try_count s,
    0 <= try_count <= 2 -> (Z.to_nat (3 - try_count) <= gas)%nat ->
    steady_device (hw s) r -> clock_fast (hw s) 360 -> (3 <= fuel)%nat ->
    let value := load_value (ee_mode s) d in
    exists s' evs,
      write_word_try gas fuel addr d try_count s
      = Some (match verify (ee_cmd_mask s) value r with
              | VerifyOk => 0
              | _ => 4
              end, s') /\
      hw s' = hw s /\ ee_mode s' = ee_mode s /\
      ee_cmd_mask s' = ee_cmd_mask s /\
      trace s' = trace s ++ evs /\
      Z.of_nat (count_programs evs)
      = match verify (ee_cmd_mask s) value r with
        | VerifyRetry => 3 - try_count
        | _ => 1
        end.
Proof.
  induction gas as [|gas IH]; intros try_count s Ht Hgas Hdev Hclk Hfuel value;
    [lia|].
  cbn [write_word_try]. step_drv. fold value.
  destruct (ee_program_word_steady fuel addr value r s Hdev Hclk Hfuel)
    as (s1 & evs1 & Hp & Hhw1 & Hm1 & Hk1 & Htr1 & Hc1).
  rewrite Hp. cbv beta iota. cbn [Z.eqb negb]. step_drv.
  rewrite Hhw1, Hdev, Hk1. unfold verify.
  assert (Hcp : count_programs (program_events (ee_cmd_mask s) addr value
                                ++ evs1) = 1%nat)
    by (rewrite count_programs_app, Hc1; reflexivity).
  destruct (Z.land (Z.lxor value r) (ee_cmd_mask s) =? 0) eqn:E0; cbn [negb].
  - eexists _, _. split; [reflexivity|]. step_drv.
    repeat (split; [assumption|]).
    split; [rewrite Htr1, <- !app_assoc; reflexivity|].
    rewrite !count_programs_app, Hc1. reflexivity.
  - destruct (Z.land (Z.land (Z.lxor value r) (ee_cmd_mask s)) (not32 r) =? 0)
      eqn:E1.
    + destruct (Z.ltb_spec try_count 2) as [Hlt|Hge]; cbn [andb].
      * match goal with
        | |- context [write_word_try gas fuel addr d (try_count + 1) ?s2] =>
            destruct (IH (try_count + 1) s2 ltac:(lia) ltac:(lia))
              as (s' & evs & Hrun & Hh & Hm & Hk & Htr & Hcnt);
              [cbn [hw set_trace set_n_reads]; rewrite Hhw1; exact Hdev
              |cbn [hw set_trace set_n_reads]; rewrite Hhw1; exact Hclk
              |exact Hfuel|]
        end.
        revert Hrun Hh Hm Hk Htr Hcnt. step_drv. rewrite Hm1, Hk1.
        fold value. unfold verify. rewrite E0, E1.
        intros Hrun Hh Hm Hk Htr Hcnt.
        exists s'. eexists. split; [exact Hrun|].
        split; [congruence|]. split; [congruence|]. split; [congruence|].
        split; [rewrite Htr, Htr1, <- !app_assoc; reflexivity|].
        rewrite !count_programs_app, Hc1.
        unfold count_programs at 1 2.
        cbn [program_events filter List.length Nat.add]. lia.
      * step_drv. eexists _, _. split; [reflexivity|]. step_drv.
        repeat (split; [assumption|]).
        split; [rewrite Htr1, <- !app_assoc; reflexivity|].
        rewrite !count_programs_app, Hc1.
        unfold count_programs.
        cbn [program_events filter List.length Nat.add]. lia.
    + rewrite andb_false_r. step_drv.
      eexists _, _. split; [reflexivity|]. step_drv.
      repeat (split; [assumption|]).
      split; [rewrite Htr1, <- !app_assoc; reflexivity|].
      rewrite !count_programs_app, Hc1. reflexivity.
Qed.

Lemma steady_platform_fast (r step T : Z) :
  0 <= step -> 3 * step < T -> T <= 2 ^ 64 ->
  clock_fast (steady_platform r step) T.
Proof.
  intros Hs HT HT' n k Hk. unfold steady_platform, wrap64.
  cbn [timer_ticks timer_tick_to_usec].
  rewrite Zminus_mod_idemp_l, Zminus_mod_idemp_r, Z.mod_mod by lia.
  replace (step * Z.of_nat (n + k) - step * Z.of_nat n)
    with (step * Z.of_nat k) by lia.
  rewrite Z.mod_small; nia.
Qed.

(** X6.  ee_write() of one word to a device that answers every read
    with the same word [r]: the monitor sees a settled status, and the
    verify step decides.  The result is 0 when [r] equals the word
    under the command mask, and 4 otherwise; the word is programmed
    three times when the mismatch could be fixed by programming bits
    to 0 (the only case that is retried), and once in the other
    cases. *)
Theorem ee_write_against_steady_device
    (fuel : nat) (addr d r : Z) (s : driver) :
  0 <= addr < EE_DEVICE_SIZE ->
  steady_device (hw s) r -> clock_fast (hw s) 360 -> (3 <= fuel)%nat ->
  let value := load_value (ee_mode s) d in
  exists s' evs,
    ee_write fuel addr [d] 1 s
    = Some (match verify (ee_cmd_mask s) value r with
            | VerifyOk => 0
            | _ => 4
            end, s') /\
    trace s' = trace s ++ evs /\
    Z.of_nat (count_programs evs)
    = match verify (ee_cmd_mask s) value r with
      | VerifyRetry => 3
      | _ => 1
      end.
Proof.
  intros Ha Hdev Hclk Hfuel value. unfold ee_write.
  rewrite range_check_passes by (change EE_DEVICE_SIZE with 1048576 in *; lia).
  change (Z.to_nat 1) with 1%nat. cbn [write_loop hd tl]. cbn [bind].
  destruct (write_word_try_steady fuel addr d r 3 0 s
              ltac:(lia) ltac:(cbn; lia) Hdev Hclk Hfuel)
    as (s1 & evs & Hrun & _ & _ & Hk1 & Htr & Hcnt).
  fold value in Hrun, Hcnt. rewrite Hrun.
  destruct (verify (ee_cmd_mask s) value r); cbn [Z.eqb].
  - cbn [write_loop bind]. rewrite ee_read_mode_run.
    eexists _, _. split; [reflexivity|].
    unfold after_cmd. step_drv. split; [rewrite Htr, <- app_assoc; reflexivity|].
    rewrite count_programs_app. unfold count_programs at 2.
    cbn [filter List.length]. lia.
  - exists s1, evs. split; [reflexivity|]. split; [exact Htr|lia].
  - exists s1, evs. split; [reflexivity|]. split; [exact Htr|lia].
Qed.

Lemma ee_write_against_steady_device_witness :
  exists s' evs,
    ee_write 4 0x100 [0x1235] 1 programmed_driver = Some (4, s') /\
    trace s' = trace programmed_driver ++ evs /\
    Z.of_nat (count_programs evs) = 1.
Proof.
  exact (ee_write_against_steady_device 4 0x100 0x1235 0x1234
           programmed_driver
           ltac:(vm_compute; split; [discriminate|reflexivity])
           (fun k => eq_refl)
           (steady_platform_fast 0x1234 1 360
              ltac:(lia) ltac:(lia) ltac:(vm_compute; discriminate))
           ltac:(lia)).
Defined.

(** ** The retry policy of ee_write() *)

Lemma ee_program_word_log (fuel : nat) (addr word : Z) (s : driver) :
  clock_live (hw s) fuel 360 ->
  exists rc s1 evs,
    ee_program_word fuel addr word s = Some (rc, s1) /\
    hw s1 = hw s /\ ee_mode s1 = ee_mode s /\ ee_cmd_mask s1 = ee_cmd_mask s /\
    Forall poll_event evs /\
    trace s1 = trace s ++ program_events (ee_cmd_mask s) addr word ++ evs
               ++ (if rc =? 0 then [] else status_clear_events (ee_cmd_mask s)) /\
    (rc = 0 \/ rc = 1).
Proof.
  intros Hclock. unfold ee_program_word. step_drv.
  match goal with
  | |- context [ee_wait_for_done_status fuel ?T ?v ?m ?s3] =>
      replace s3
        with (set_trace (trace s ++ program_events (ee_cmd_mask s) addr word) s)
        by (rewrite !set_trace_twice; unfold program_events;
            rewrite <- !app_assoc; reflexivity)
  end.
  set (s3 := set_trace _ s).
  destruct (Hclock (n_ticks s3)) as (j & Hj & HT).
  destruct (wait_terminates fuel 360 0 EE_MODE_PROGRAM s3 j Hj HT)
    as (rc & s4 & Hw).
  rewrite Hw. pose proof (wait_outcome _ _ _ _ _ _ _ Hw)
    as (Hhw4 & Hm4 & Hk4 & evs & Hev & Hout).
  exists rc, s4, evs. split; [reflexivity|].
  repeat (split; [assumption|]).
  destruct Hout as [(-> & _ & Htr4)|(-> & _ & Htr4)]; cbn [Z.eqb].
  - split; [|left; reflexivity].
    rewrite Htr4; subst s3; cbn [trace set_trace];
      rewrite <- !app_assoc, app_nil_r; reflexivity.
  - split; [|right; reflexivity].
    rewrite Htr4; subst s3; cbn [trace set_trace ee_cmd_mask];
      rewrite <- !app_assoc; reflexivity.
Qed.

Lemma nonzero_has_bit (x : Z) :
  0 <= x -> x <> 0 -> exists i, 0 <= i /\ Z.testbit x i = true.
Proof.
  intros H0 Hx. exists (Z.log2 x). split; [apply Z.log2_nonneg|].
  apply Z.bit_log2. lia.
Qed.

Lemma xvalue_nonneg (mask value rvalue : Z) :
  0 <= value < 2 ^ 32 -> 0 <= rvalue < 2 ^ 32 ->
  0 <= Z.land (Z.lxor value rvalue) mask.
Proof.
  intros Hv Hr. apply Z.land_nonneg. left. apply Z.lxor_nonneg. lia.
Qed.

Lemma mismatch_iff (mask value rvalue : Z) :
  0 <= value < 2 ^ 32 -> 0 <= rvalue < 2 ^ 32 ->
  Z.land (Z.lxor value rvalue) mask <> 0 <-> mismatch mask value rvalue.
Proof.
  intros Hv Hr. split.
  - intros Hx.
    destruct (nonzero_has_bit _ (xvalue_nonneg mask value rvalue Hv Hr) Hx)
      as (i & _ & Hi).
    exists i. apply xvalue_testbit. exact Hi.
  - intros [i Hi] Hx. exact (proj1 (xvalue_zero_iff _ _ _) Hx i Hi).
Qed.

Lemma needs_set_iff (mask value rvalue : Z) :
  0 <= value < 2 ^ 32 -> 0 <= rvalue < 2 ^ 32 ->
  Z.land (Z.land (Z.lxor value rvalue) mask) (not32 rvalue) <> 0 <->
  needs_set mask value rvalue.
Proof.
  intros Hv Hr. split.
  - intros Hx.
    assert (H0 : 0 <= Z.land (Z.land (Z.lxor value rvalue) mask)
                        (not32 rvalue)).
    { apply Z.land_nonneg. left. apply xvalue_nonneg; assumption. }
    destruct (nonzero_has_bit _ H0 Hx) as (i & Hi0 & Hi).
    rewrite Z.land_spec in Hi. apply andb_true_iff in Hi as [Hd Hn].
    apply xvalue_testbit in Hd. exists i. split; [exact Hd|].
    destruct (Z.lt_ge_cases i 32) as [Hlo|Hhi].
    + rewrite not32_testbit in Hn by lia. apply negb_true_iff in Hn.
      destruct Hd as [_ Hne]. split; [exact Hn|].
      rewrite Hn in Hne. destruct (Z.testbit value i); congruence.
    + rewrite not32_testbit_high in Hn by lia. discriminate.
  - intros (i & Hd & Hs) Hx.
    destruct (proj1 (retry_condition_iff mask value rvalue Hv Hr) Hx i Hd)
      as [Hc _].
    destruct Hs as [Hs _]. congruence.
Qed.

Lemma word_log_retry (tries : nat) (mask value : Z) (a : attempt)
    (log : list attempt) (rc : Z) :
  retryable mask value a ->
  word_log_from (S tries) mask value log rc ->
  word_log_from tries mask value (a :: log) rc.
Proof.
  intros Ha (pre & last & -> & Hn & Hpre & Hlast).
  exists (a :: pre), last. split; [reflexivity|].
  cbn [List.length]. split; [lia|]. split; [constructor; assumption|].
  replace (tries + S (List.length pre))%nat
    with (S tries + List.length pre)%nat by lia.
  exact Hlast.
Qed.

Lemma word_log_last (tries : nat) (mask value : Z) (a : attempt) (rc : Z) :
  (tries <= 2)%nat ->
  final_attempt mask value tries a rc ->
  word_log_from tries mask value [a] rc.
Proof.
  intros Ht Ha. exists [], a. split; [reflexivity|].
  cbn [List.length]. rewrite Nat.add_0_r.
  split; [exact Ht|]. split; [constructor|exact Ha].
Qed.

Lemma write_word_try_log (fuel : nat) (addr d : Z) (gas : nat) :
  forall try_count s,
    0 <= try_count <= 2 -> (Z.to_nat (3 - try_count) <= gas)%nat ->
    clock_live (hw s) fuel 360 ->
    exists rc s' log,
      write_word_try gas fuel addr d try_count s = Some (rc, s') /\
      hw s' = hw s /\ ee_mode s' = ee_mode s /\
      ee_cmd_mask s' = ee_cmd_mask s /\
      trace s' = trace s
                 ++ flat_map (attempt_events (ee_cmd_mask s) addr
                                (load_value (ee_mode s) d)) log
                 ++ (if rc =? 0 then [] else write_tail (ee_cmd_mask s) rc) /\
      word_log_from (Z.to_nat try_count) (ee_cmd_mask s)
                    (load_value (ee_mode s) d) log rc.
Proof.
  induction gas as [|gas IH]; intros try_count s Ht Hgas Hclock; [lia|].
  cbn [write_word_try]. step_drv.
  set (mask := ee_cmd_mask s). set (value := load_value (ee_mode s) d).
  assert (Hv : 0 <= value < 2 ^ 32) by apply load_value_range.
  destruct (ee_program_word_log fuel addr value s Hclock)
    as (rc1 & s1 & evs1 & Hp & Hhw1 & Hm1 & Hk1 & Hev1 & Htr1 & Hrc1).
  fold mask in Htr1. rewrite Hp. cbv beta iota.
  (* what a retry adds to the attempt [a] already made *)
  assert (Hretry : forall (a : attempt) s2,
            hw s2 = hw s -> ee_mode s2 = ee_mode s ->
            ee_cmd_mask s2 = ee_cmd_mask s ->
            trace s2 = trace s ++ attempt_events mask addr value a ->
            retryable mask value a ->
            try_count < 2 ->
            exists rc s' log,
              write_word_try gas fuel addr d (try_count + 1) s2
              = Some (rc, s') /\
              hw s' = hw s /\ ee_mode s' = ee_mode s /\
              ee_cmd_mask s' = ee_cmd_mask s /\
              trace s' = trace s
                         ++ flat_map (attempt_events mask addr value) log
                         ++ (if rc =? 0 then [] else write_tail mask rc) /\
              word_log_from (Z.to_nat try_count) mask value log rc).
  { intros a s2 Hh2 Hm2 Hk2 Ht2 Ha Hlt.
    destruct (IH (try_count + 1) s2 ltac:(lia) ltac:(lia))
      as (rc & s' & log & Hrun & Hh & Hm & Hk & Htr & Hlog).
    { rewrite Hh2. exact Hclock. }
    rewrite Hm2, Hk2 in Htr, Hlog. fold mask value in Htr, Hlog.
    exists rc, s', (a :: log). split; [exact Hrun|].
    split; [congruence|]. split; [congruence|]. split; [congruence|].
    split.
    - rewrite Htr, Ht2. cbn [flat_map]. rewrite <- !app_assoc. reflexivity.
    - apply word_log_retry; [exact Ha|].
      replace (S (Z.to_nat try_count)) with (Z.to_nat (try_count + 1)) by lia.
      exact Hlog. }
  destruct Hrc1 as [-> | ->]; cbn [Z.eqb negb] in *.
  - (* programmed: verify *)
    step_drv. rewrite Hhw1, Hk1. fold mask.
    set (rvalue := wrap32 (bus_data (hw s) (n_reads s1))).
    assert (Hr : 0 <= rvalue < 2 ^ 32) by (apply Z.mod_pos_bound; lia).
    set (a := {| a_poll := evs1; a_failed := false; a_rvalue := rvalue |}).
    assert (Hta : trace s1 ++ [EvRead addr rvalue]
                  = trace s ++ attempt_events mask addr value a).
    { rewrite Htr1. unfold attempt_events. cbn [a_poll a_failed a_rvalue a].
      rewrite app_nil_r, <- !app_assoc. reflexivity. }
    destruct (Z.eqb_spec (Z.land (Z.lxor value rvalue) mask) 0) as [E0|E0];
      cbn [negb].
    + (* the word verifies *)
      eexists 0, _, [a]. split; [reflexivity|]. step_drv.
      repeat (split; [assumption|]).
      split; [rewrite Hta; cbn [flat_map Z.eqb]; rewrite !app_nil_r;
              reflexivity|].
      apply word_log_last; [lia|]. split; [exact Hev1|]. left.
      split; [reflexivity|]. split; [reflexivity|].
      intros [i Hi]. exact (proj1 (xvalue_zero_iff _ _ _) E0 i Hi).
    + apply (proj1 (mismatch_iff mask value rvalue Hv Hr)) in E0.
      destruct (Z.eqb_spec (Z.land (Z.land (Z.lxor value rvalue) mask)
                                   (not32 rvalue)) 0) as [E1|E1].
      * (* every differing bit has to go from 1 to 0 *)
        pose proof (proj1 (retry_condition_iff mask value rvalue Hv Hr) E1)
          as Hclr.
        destruct (Z.ltb_spec try_count 2) as [Hlt|Hge]; cbn [andb].
        -- apply Hretry with (a := a); try assumption.
           split; [exact Hev1|]. right.
           split; [reflexivity|]. split; [exact E0|exact Hclr].
        -- step_drv. eexists 4, _, [a]. split; [reflexivity|]. step_drv.
           repeat (split; [assumption|]).
           split; [rewrite Hta; cbn [flat_map Z.eqb]; unfold write_tail;
                   cbn [Z.eqb]; rewrite !app_nil_r, <- !app_assoc;
                   reflexivity|].
           apply word_log_last; [lia|]. split; [exact Hev1|]. right. right.
           split; [reflexivity|]. split; [reflexivity|]. right.
           split; [exact E0|lia].
      * (* a bit has to go from 0 to 1 *)
        apply (proj1 (needs_set_iff mask value rvalue Hv Hr)) in E1.
        rewrite andb_false_r. step_drv.
        eexists 4, _, [a]. split; [reflexivity|]. step_drv.
        repeat (split; [assumption|]).
        split; [rewrite Hta; cbn [flat_map Z.eqb]; unfold write_tail;
                cbn [Z.eqb]; rewrite !app_nil_r, <- !app_assoc;
                reflexivity|].
        apply word_log_last; [lia|]. split; [exact Hev1|]. right. right.
        split; [reflexivity|]. split; [reflexivity|]. left. exact E1.
  - (* the monitor reported a program failure *)
    set (a := {| a_poll := evs1; a_failed := true; a_rvalue := 0 |}).
    assert (Hta : trace s1 = trace s ++ attempt_events mask addr value a).
    { rewrite Htr1. unfold attempt_events. cbn [a_poll a_failed a_rvalue a].
      reflexivity. }
    destruct (Z.ltb_spec try_count 2) as [Hlt|Hge].
    + apply Hretry with (a := a); try assumption.
      split; [exact Hev1|]. left. reflexivity.
    + step_drv. eexists 3, _, [a]. split; [reflexivity|]. step_drv.
      repeat (split; [assumption|]).
      split; [rewrite Hta; cbn [flat_map Z.eqb]; unfold write_tail;
              cbn [Z.eqb]; rewrite !app_nil_r, <- !app_assoc; reflexivity|].
      apply word_log_last; [lia|]. split; [exact Hev1|]. right. left.
      split; [reflexivity|]. split; [reflexivity|]. lia.
Qed.

Lemma write_loop_log (fuel : nat) (count : nat) :
  forall addr data s,
    0 <= addr -> addr + Z.of_nat count < 2 ^ 32 ->
    clock_live (hw s) fuel 360 ->
    exists rc s' logs,
      write_loop count fuel addr data s = Some (rc, s') /\
      trace s' = trace s
                 ++ write_events (ee_cmd_mask s) (ee_mode s) addr data logs
                 ++ write_tail (ee_cmd_mask s) rc /\
      write_log (ee_cmd_mask s) (ee_mode s) data count logs rc.
Proof.
  induction count as [|count IH]; intros addr data s Ha Hend Hclock.
  - cbn [write_loop]. unfold bind. rewrite ee_read_mode_run.
    eexists 0, _, []. split; [reflexivity|]. unfold after_cmd. step_drv.
    split; [reflexivity|]. reflexivity.
  - cbn [write_loop]. cbn [bind].
    destruct (write_word_try_log fuel addr (hd 0 data) 3 0 s
                ltac:(lia) ltac:(cbn; lia) Hclock)
      as (rc1 & s1 & log & Hrun & Hh1 & Hm1 & Hk1 & Htr1 & Hlog).
    change (Z.to_nat 0) with 0%nat in Hlog. fold word_log in Hlog.
    rewrite Hrun.
    destruct (Z.eqb_spec rc1 0) as [->|Hne].
    + assert (Hw : wrap32 (addr + 1) = addr + 1)
        by (unfold wrap32; apply Z.mod_small; lia).
      rewrite Hw.
      destruct (IH (addr + 1) (tl data) s1 ltac:(lia) ltac:(lia))
        as (rc & s' & logs & Hr & Htr & Hlogs).
      { rewrite Hh1. exact Hclock. }
      rewrite Hm1, Hk1 in Htr, Hlogs.
      exists rc, s', (log :: logs). split; [exact Hr|]. split.
      * rewrite Htr, Htr1. cbn [write_events Z.eqb].
        rewrite !app_nil_r, <- !app_assoc. reflexivity.
      * cbn [write_log]. left. split; assumption.
    + exists rc1, s1, [log]. split; [reflexivity|]. split.
      * rewrite Htr1. cbn [write_events].
        destruct (Z.eqb_spec rc1 0) as [|_]; [contradiction|].
        rewrite !app_nil_r. reflexivity.
      * cbn [write_log]. right. repeat split; assumption.
Qed.

(** C3.  ee_write() of a range inside the device, on a platform whose
    timer advances, returns, and its bus traffic is that of a list of
    attempts per word, in buffer order, followed by the read-mode
    command (result 0) or by the failure message (result 3 or 4).  Each
    attempt is a program sequence for the same address and the same
    word, the poll of the completion monitor and the read back (or the
    status clear after a program failure).  For every word the count of
    retries starts at 0; an attempt is followed by another only if it
    ended in a program failure or in a mismatch whose differing bits
    all have to go from 1 to 0, and only if fewer than 2 retries were
    made before; a mismatch with a bit that has to go from 0 to 1 ends
    the write with 4 at once; a program failure ends it with 3 once
    both retries are used up; a word that verifies is followed by the
    next word. *)
Theorem ee_write_retry_policy
    (fuel : nat) (addr : Z) (data : list Z) (count : Z) (s : driver) :
  0 <= addr -> 0 <= count -> addr + count <= EE_DEVICE_SIZE ->
  clock_live (hw s) fuel 360 ->
  exists rc s' logs,
    ee_write fuel addr data count s = Some (rc, s') /\
    trace s' = trace s
               ++ write_events (ee_cmd_mask s) (ee_mode s) addr data logs
               ++ write_tail (ee_cmd_mask s) rc /\
    write_log (ee_cmd_mask s) (ee_mode s) data (Z.to_nat count) logs rc.
Proof.
  intros Ha Hc Hr Hclock. unfold ee_write.
  rewrite range_check_passes by assumption.
  apply write_loop_log; [exact Ha| |exact Hclock].
  change EE_DEVICE_SIZE with 1048576 in Hr. lia.
Qed.

Lemma ee_write_retry_policy_witness :
  exists s' logs,
    ee_write 361 0x100 [0x1234; 0x00f0] 2 worn_driver = Some (0, s') /\
    trace s' = trace worn_driver
               ++ write_events 0xffff EE_MODE_16_LOW 0x100 [0x1234; 0x00f0]
                               logs
               ++ read_mode_events 0xffff /\
    write_log 0xffff EE_MODE_16_LOW [0x1234; 0x00f0] 2 logs 0.
Proof.
  destruct (ee_write_retry_policy 361 0x100 [0x1234; 0x00f0] 2 worn_driver
              ltac:(lia) ltac:(lia) ltac:(vm_compute; discriminate)
              (sim_clock_reaches _ 1 361 359 360
                 ltac:(lia) ltac:(lia) ltac:(lia)))
    as (rc & s' & logs & Hrun & Htr & Hlog).
  assert (Hc : exists s0,
             ee_write 361 0x100 [0x1234; 0x00f0] 2 worn_driver = Some (0, s0))
    by (eexists; vm_compute; reflexivity).
  destruct Hc as (s0 & Hc). rewrite Hc in Hrun.
  injection Hrun as Hrc Hs. subst s0 rc.
  exists s', logs. split; [exact Hc|]. split; [exact Htr|exact Hlog].
Defined.

(** On that device the write succeeds after four retries, two for each
    word: the count of retries starts again with every word. *)
Example retry_budget_is_per_word :
  let logs := [[quiet_attempt 0x1235; quiet_attempt 0x1235;
                quiet_attempt 0x1234];
               [quiet_attempt 0x00f1; quiet_attempt 0x00f1;
                quiet_attempt 0x00f0]] in
  exists s',
    ee_write 361 0x100 [0x1234; 0x00f0] 2 worn_driver = Some (0, s') /\
    trace s' = trace worn_driver
               ++ write_events 0xffff EE_MODE_16_LOW 0x100 [0x1234; 0x00f0]
                               logs
               ++ read_mode_events 0xffff /\
    count_programs (write_events 0xffff EE_MODE_16_LOW 0x100 [0x1234; 0x00f0]
                                 logs) = 6%nat.
Proof.
  eexists. split; [vm_compute; reflexivity|]. split; reflexivity.
Qed.

(** ** Identification *)

Lemma id_low_part (low high : Z) :
  0 <= low < 2 ^ 32 ->
  Z.lor (wrap32 (Z.shiftl low 16)) (wrap16 high)
  = 65536 * lo16 low + lo16 high.
Proof.
  intros Hl. unfold wrap32, wrap16, lo16.
  rewrite Z.shiftl_mul_pow2 by lia.
  change (2 ^ 16) with 65536. change (2 ^ 32) with 4294967296 in *.
  assert (E : (low * 65536) mod 4294967296 = Z.shiftl (low mod 65536) 16).
  { rewrite Z.shiftl_mul_pow2 by lia. change (2 ^ 16) with 65536.
    Z.div_mod_to_equations; lia. }
  rewrite E. apply lor_halves. apply Z.mod_pos_bound. lia.
Qed.

Lemma id_high_part (low high : Z) :
  0 <= low < 2 ^ 32 -> 0 <= high < 2 ^ 32 ->
  Z.lor (Z.land low 0xffff0000) (Z.shiftr high 16)
  = 65536 * hi16 low + hi16 high.
Proof.
  intros Hl Hh. unfold hi16. rewrite land_high16 by exact Hl.
  rewrite Z.shiftr_div_pow2 by lia. change (2 ^ 16) with 65536.
  change (2 ^ 32) with 4294967296 in *.
  assert (E : 65536 * (low / 65536) = Z.shiftl (low / 65536) 16)
    by (rewrite Z.shiftl_mul_pow2 by lia; change (2 ^ 16) with 65536; lia).
  rewrite E at 1.
  apply lor_halves. change (2 ^ 16) with 65536. Z.div_mod_to_equations; lia.
Qed.

(** X7.  ee_id() reads words 0 and 1 in identification mode and returns
    to read mode.  Each result pairs the manufacturer code (from word
    0, in the upper half) with the device code (from word 1) of one
    16-bit device; the device on the low half of the bus comes first,
    except in 16-bit high mode where the order is swapped. *)
Theorem ee_id_combines_device_codes (s : driver) :
  let low := wrap32 (bus_data (hw s) (n_reads s)) in
  let high := wrap32 (bus_data (hw s) (S (n_reads s))) in
  let low_device := 65536 * lo16 low + lo16 high in
  let high_device := 65536 * hi16 low + hi16 high in
  exists s',
    ee_id s = Some (match ee_mode s with
                    | EE_MODE_16_HIGH => (high_device, low_device)
                    | _ => (low_device, high_device)
                    end, s') /\
    n_reads s' = S (S (n_reads s)) /\
    ee_cmd_mask s' = ee_cmd_mask s /\ ee_status s' = ee_status s /\
    trace s' = trace s ++ id_events (ee_cmd_mask s) low high.
Proof.
  intros low high low_device high_device.
  assert (Hl : 0 <= low < 2 ^ 32) by (apply Z.mod_pos_bound; lia).
  assert (Hh : 0 <= high < 2 ^ 32) by (apply Z.mod_pos_bound; lia).
  pose proof (id_low_part low high Hl) as Ea.
  pose proof (id_high_part low high Hl Hh) as Eb.
  unfold ee_id. cbn [bind].
  rewrite (ee_cmd_unlock s 0x555 0x00900090) by reflexivity.
  step_drv. rewrite ee_read_mode_run. step_drv.
  fold low high. rewrite Ea, Eb. fold low_device high_device.
  destruct (ee_mode s) eqn:Emode;
    (eexists; split; [reflexivity|]); step_drv;
    repeat split; unfold id_events; rewrite <- !app_assoc; reflexivity.
Qed.

Lemma ee_id_run_parts (s : driver) :
  let low := wrap32 (bus_data (hw s) (n_reads s)) in
  let high := wrap32 (bus_data (hw s) (S (n_reads s))) in
  exists s',
    ee_id s = Some (id_parts (ee_mode s) low high, s') /\
    hw s' = hw s /\ ee_mode s' = ee_mode s /\
    ee_cmd_mask s' = ee_cmd_mask s /\ ee_status s' = ee_status s /\
    n_reads s' = S (S (n_reads s)) /\
    trace s' = trace s ++ id_events (ee_cmd_mask s) low high.
Proof.
  intros low high.
  assert (Hl : 0 <= low < 2 ^ 32) by (apply Z.mod_pos_bound; lia).
  assert (Hh : 0 <= high < 2 ^ 32) by (apply Z.mod_pos_bound; lia).
  pose proof (id_low_part low high Hl) as Ea.
  pose proof (id_high_part low high Hl Hh) as Eb.
  unfold ee_id, id_parts. cbn [bind].
  rewrite (ee_cmd_unlock s 0x555 0x00900090) by reflexivity.
  step_drv. rewrite ee_read_mode_run. step_drv.
  fold low high. rewrite Ea, Eb.
  destruct (ee_mode s) eqn:Emode;
    (eexists; split; [reflexivity|]); step_drv;
    repeat split; try exact Emode;
    unfold id_events; rewrite <- !app_assoc; reflexivity.
Qed.

(** ** The erase sequence *)

Lemma fault_status_erase (last : Z) :
  fault_status EE_MODE_ERASE last = EE_STATUS_ERASE_TIMEOUT \/
  fault_status EE_MODE_ERASE last = EE_STATUS_ERASE_FAILURE.
Proof. unfold fault_status. destruct (failing last); auto. Qed.

Lemma erase_pass_run (gas fuel : nat) (cb : chip_blocks_t)
    (mode addr len verbose rc0 : Z) (s : driver) :
  geometry_ok cb -> 0 <= mode <= MX_ERASE_MODE_SECTOR -> 0 < len ->
  0 <= addr < EE_DEVICE_SIZE ->
  clock_live (hw s) fuel (2 ^ 32) ->
  exists rc s' n evs,
    erase_passes (S gas) fuel cb mode addr len verbose rc0 s = Some (rc, s') /\
    hw s' = hw s /\ ee_mode s' = ee_mode s /\ ee_cmd_mask s' = ee_cmd_mask s /\
    Forall poll_event evs /\
    trace s' = trace s ++ erase_unlock_events (ee_cmd_mask s)
               ++ erase_pass_cmds (ee_cmd_mask s) mode (unit_chain cb addr (S n))
               ++ [EvDelayUsec 100] ++ evs
               ++ (if rc =? 0 then [] else status_clear_events (ee_cmd_mask s)) /\
    (mode = MX_ERASE_MODE_SECTOR ->
     sum_sizes (unit_chain cb addr n) < len
     <= sum_sizes (unit_chain cb addr (S n))) /\
    ((rc = 0 /\ ee_status s' = EE_STATUS_NORMAL) \/
     (rc = 1 /\ (ee_status s' = EE_STATUS_ERASE_TIMEOUT \/
                 ee_status s' = EE_STATUS_ERASE_FAILURE))).
Proof.
  intros Hcb Hmode Hlen Ha Hclock.
  cbn [erase_passes]. destruct (Z.ltb_spec 0 len); [|lia].
  destruct (Z.leb_spec EE_DEVICE_SIZE addr); [lia|].
  step_drv.
  (* the command cycles of the pass *)
  assert (Hq : exists n addr' timeout,
    (if mode =? MX_ERASE_MODE_CHIP
     then (ee_write_word 0x555 0x00100010 ;; ret (addr, 0, 32000000))%drv
     else erase_sectors (Z.to_nat len) cb addr len 1000000)
      (set_trace (trace s ++ erase_unlock_events (ee_cmd_mask s)) s)
    = Some ((addr', 0, timeout),
            set_trace (trace s ++ erase_unlock_events (ee_cmd_mask s)
                       ++ erase_pass_cmds (ee_cmd_mask s) mode
                            (unit_chain cb addr (S n))) s) /\
    (mode = MX_ERASE_MODE_SECTOR ->
     sum_sizes (unit_chain cb addr n) < len
     <= sum_sizes (unit_chain cb addr (S n)))).
  { unfold erase_pass_cmds. destruct (Z.eqb_spec mode MX_ERASE_MODE_CHIP) as [Hm|Hm].
    - exists 0%nat, addr, 32000000. step_drv. rewrite <- app_assoc.
      split; [reflexivity|]. intros ->. discriminate Hm.
    - destruct (erase_sectors_run cb (Z.to_nat len) addr len 1000000
                  (set_trace (trace s ++ erase_unlock_events (ee_cmd_mask s)) s)
                  Hcb Hlen ltac:(lia)) as (n & addr' & Hrun & Hsum).
      exists n, addr', (1000000 + Z.of_nat (S n) * 1000000).
      rewrite Hrun. step_drv. rewrite <- app_assoc.
      split; [reflexivity|]. intros _. exact Hsum. }
  destruct Hq as (n & addr' & timeout & Hq & Hsum).
  match goal with
  | |- context [(if mode =? MX_ERASE_MODE_CHIP then _ else _) ?s0] =>
      replace s0
        with (set_trace (trace s ++ erase_unlock_events (ee_cmd_mask s)) s)
        by (rewrite !set_trace_twice; unfold erase_unlock_events;
            rewrite <- !app_assoc; reflexivity)
  end.
  rewrite Hq. step_drv.
  match goal with
  | |- context [ee_wait_for_done_status fuel ?T verbose EE_MODE_ERASE ?s3] =>
      set (T' := T); set (s3' := s3);
      assert (Hhw3 : hw s3' = hw s) by (subst s3'; step_drv; reflexivity);
      assert (Hk3 : ee_cmd_mask s3' = ee_cmd_mask s)
        by (subst s3'; step_drv; reflexivity);
      assert (Hm3 : ee_mode s3' = ee_mode s)
        by (subst s3'; step_drv; reflexivity);
      assert (Htr3 : trace s3' = (trace s ++ erase_unlock_events (ee_cmd_mask s)
                       ++ erase_pass_cmds (ee_cmd_mask s) mode
                            (unit_chain cb addr (S n))) ++ [EvDelayUsec 100])
        by (subst s3'; step_drv; reflexivity);
      clearbody s3'
  end.
  assert (HT' : T' < 2 ^ 32) by (apply Z.mod_pos_bound; lia).
  destruct (Hclock (n_ticks s3')) as (j & Hj & HT).
  destruct (wait_terminates fuel T' verbose EE_MODE_ERASE s3' j Hj)
    as (rc & s4 & Hw).
  { unfold mon_usecs. rewrite Hhw3. lia. }
  rewrite Hw. pose proof (wait_outcome _ _ _ _ _ _ _ Hw)
    as (Hhw4 & Hm4 & Hk4 & evs & Hev & Hout).
  exists rc, s4, n, evs.
  destruct Hout as [(-> & Hst & Htr4)|(-> & (k & _ & Hst) & Htr4)].
  - cbn [Z.eqb negb].
    assert (Hexit : erase_passes gas fuel cb mode addr' 0 verbose 0 s4
                    = Some (0, s4)) by (destruct gas; reflexivity).
    rewrite Hexit. split; [reflexivity|].
    split; [congruence|]. split; [congruence|]. split; [congruence|].
    split; [exact Hev|]. split; [|split; [exact Hsum|left; auto]].
    rewrite Htr4, Htr3, app_nil_r, <- !app_assoc. reflexivity.
  - cbn [Z.eqb negb]. split; [reflexivity|].
    split; [congruence|]. split; [congruence|]. split; [congruence|].
    split; [exact Hev|]. split; [|split; [exact Hsum|right; split; [reflexivity|]]].
    + rewrite Htr4, Htr3, Hk3, <- !app_assoc. reflexivity.
    + rewrite Hst. apply fault_status_erase.
Qed.

Lemma ee_erase_run (fuel : nat) (mode addr len verbose : Z) (s : driver) :
  0 <= mode <= MX_ERASE_MODE_SECTOR -> 0 <= len ->
  0 <= addr < EE_DEVICE_SIZE ->
  clock_live (hw s) fuel (2 ^ 32) ->
  let low := wrap32 (bus_data (hw s) (n_reads s)) in
  let high := wrap32 (bus_data (hw s) (S (n_reads s))) in
  let cb := get_chip_block_info (fst (id_parts (ee_mode s) low high)) in
  let mask := ee_cmd_mask s in
  exists rc s' n evs,
    ee_erase fuel mode addr len verbose s = Some (rc, s') /\
    ee_cmd_mask s' = mask /\
    Forall poll_event evs /\
    trace s' = trace s ++ id_events mask low high
               ++ status_clear_events mask
               ++ erase_unlock_events mask
               ++ erase_pass_cmds mask mode (unit_chain cb addr (S n))
               ++ [EvDelayUsec 100] ++ evs
               ++ (if rc =? 0 then [] else status_clear_events mask)
               ++ read_mode_events mask /\
    (mode = MX_ERASE_MODE_SECTOR ->
     sum_sizes (unit_chain cb addr n) < (if len =? 0 then 1 else len)
     <= sum_sizes (unit_chain cb addr (S n))) /\
    ((rc = 0 /\ ee_status s' = EE_STATUS_NORMAL) \/
     (rc = 1 /\ (ee_status s' = EE_STATUS_ERASE_TIMEOUT \/
                 ee_status s' = EE_STATUS_ERASE_FAILURE))).
Proof.
  intros Hmode Hlen Ha Hclock low high cb mask. unfold ee_erase.
  destruct (Z.ltb_spec MX_ERASE_MODE_SECTOR mode); [lia|].
  cbn [bind].
  destruct (ee_id_run_parts s)
    as (s1 & Hid & Hhw1 & Hm1 & Hk1 & _ & _ & Htr1).
  fold low high in Hid, Htr1. rewrite Hid. fold cb.
  destruct (ee_status_clear_run s1)
    as (s2 & Hclr & Hhw2 & Hm2 & Hk2 & _ & _ & _ & Htr2).
  rewrite Hclr.
  set (len' := if (len =? 0) || (mode =? MX_ERASE_MODE_CHIP) then 1 else len).
  assert (Hlen' : 0 < len').
  { subst len'. destruct (Z.eqb_spec len 0); cbn [orb]; [lia|].
    destruct (mode =? MX_ERASE_MODE_CHIP); lia. }
  destruct (Z.to_nat len') as [|gas] eqn:Hgas; [lia|].
  destruct (erase_pass_run gas fuel cb mode addr len' verbose 0 s2)
    as (rc & s3 & n & evs & Hrun & Hhw3 & Hm3 & Hk3 & Hev & Htr3 & Hsum & Hrc);
    try assumption.
  { apply get_chip_block_info_ok. }
  { rewrite Hhw2, Hhw1. exact Hclock. }
  rewrite Hrun. rewrite ee_read_mode_run.
  exists rc. eexists. exists n, evs.
  split; [reflexivity|]. step_drv.
  split; [subst mask; congruence|]. split; [exact Hev|].
  split; [|split].
  - rewrite Htr3, Htr2, Htr1, Hk3, Hk2, Hk1. unfold read_mode_events.
    fold mask. rewrite <- !app_assoc. reflexivity.
  - intros Hsec. specialize (Hsum Hsec). subst len' mode.
    change (MX_ERASE_MODE_SECTOR =? MX_ERASE_MODE_CHIP) with false in Hsum.
    rewrite orb_false_r in Hsum. exact Hsum.
  - exact Hrc.
Qed.

Lemma coarse_clock_live (fuel : nat) :
  (0 < fuel)%nat -> clock_live (hw coarse_clock_driver) fuel (2 ^ 32).
Proof.
  intros Hf. apply (sim_clock_live [] 4294967296 fuel (2 ^ 32) Hf).
  split; [apply Z.le_refl|reflexivity].
Qed.

(** X8.  On a platform whose timer advances, a sector-mode ee_erase()
    that starts inside the device sends
    the six-cycle unlock once, then one sector-erase command per erase
    unit back to back, then waits once: whatever the length, there is
    one command burst and one poll.  The units are those of the walk
    from [addr] that first covers the length. *)
Theorem sector_erase_is_one_command_burst
    (fuel : nat) (addr len verbose : Z) (s : driver) :
  0 <= len -> 0 <= addr < EE_DEVICE_SIZE ->
  clock_live (hw s) fuel (2 ^ 32) ->
  let low := wrap32 (bus_data (hw s) (n_reads s)) in
  let high := wrap32 (bus_data (hw s) (S (n_reads s))) in
  let cb := get_chip_block_info (fst (id_parts (ee_mode s) low high)) in
  let mask := ee_cmd_mask s in
  exists rc s' n evs,
    ee_erase fuel MX_ERASE_MODE_SECTOR addr len verbose s = Some (rc, s') /\
    Forall poll_event evs /\
    trace s' = trace s ++ id_events mask low high
               ++ status_clear_events mask
               ++ erase_unlock_events mask
               ++ erase_cmd_events mask (unit_chain cb addr (S n))
               ++ [EvDelayUsec 100] ++ evs
               ++ (if rc =? 0 then [] else status_clear_events mask)
               ++ read_mode_events mask /\
    sum_sizes (unit_chain cb addr n) < (if len =? 0 then 1 else len)
    <= sum_sizes (unit_chain cb addr (S n)).
Proof.
  intros Hlen Ha Hclock low high cb mask.
  destruct (ee_erase_run fuel MX_ERASE_MODE_SECTOR addr len verbose s
              ltac:(unfold MX_ERASE_MODE_SECTOR; lia) Hlen Ha Hclock)
    as (rc & s' & n & evs & Hrun & _ & Hev & Htr & Hsum & _).
  exists rc, s', n, evs. split; [exact Hrun|]. split; [exact Hev|].
  split; [exact Htr|]. exact (Hsum eq_refl).
Qed.

Lemma sector_erase_is_one_command_burst_witness :
  exists rc s' n evs,
    ee_erase 1 MX_ERASE_MODE_SECTOR 0x8000 0x10000 0 coarse_clock_driver
    = Some (rc, s') /\
    Forall poll_event evs /\
    trace s' = trace coarse_clock_driver ++ id_events 0xffff 0 0
               ++ status_clear_events 0xffff
               ++ erase_unlock_events 0xffff
               ++ erase_cmd_events 0xffff
                    (unit_chain chip_default 0x8000 (S n))
               ++ [EvDelayUsec 100] ++ evs
               ++ (if rc =? 0 then [] else status_clear_events 0xffff)
               ++ read_mode_events 0xffff /\
    sum_sizes (unit_chain chip_default 0x8000 n) < 0x10000
    <= sum_sizes (unit_chain chip_default 0x8000 (S n)).
Proof.
  exact (sector_erase_is_one_command_burst 1 0x8000 0x10000 0
           coarse_clock_driver ltac:(lia)
           ltac:(vm_compute; split; [discriminate|reflexivity])
           (coarse_clock_live 1 ltac:(lia))).
Defined.

Lemma chip_blocks_layout (cb : chip_blocks_t) :
  In cb chip_blocks -> sector_layout_ok cb = true.
Proof.
  unfold chip_blocks. cbn [In]. intros H.
  repeat (destruct H as [<- | H]; [vm_compute; reflexivity|]). contradiction.
Qed.

Lemma chip_blocks_sizes (cb : chip_blocks_t) :
  In cb chip_blocks -> cb_bsize cb = 32 /\ cb_ssize cb = 4.
Proof.
  unfold chip_blocks. cbn [In]. intros H.
  repeat (destruct H as [<- | H]; [split; reflexivity|]). contradiction.
Qed.

Lemma chip_blocks_geometry (cb : chip_blocks_t) :
  In cb chip_blocks -> geometry_ok cb.
Proof.
  intros H. destruct (chip_blocks_sizes cb H) as [Hb Hs].
  unfold geometry_ok. rewrite Hb, Hs. lia.
Qed.

(** The sector of a word depends on its sub-sector only. *)
Lemma spec_sector_start_sub (cb : chip_blocks_t) (b : Z) :
  In cb chip_blocks ->
  spec_sector_start cb b = spec_sector_start cb (4096 * (b / 4096)).
Proof.
  intros H. destruct (chip_blocks_sizes cb H) as [Hb Hs].
  unfold spec_sector_start. rewrite Hb, Hs.
  change (32 * 1024) with 32768. change (4 * 1024) with 4096.
  assert (E1 : 4096 * (b / 4096) / 32768 = b / 32768)
    by (Z.div_mod_to_equations; lia).
  assert (E2 : (4096 * (b / 4096)) mod 32768 / 4096 = b mod 32768 / 4096)
    by (Z.div_mod_to_equations; lia).
  rewrite E1, E2. reflexivity.
Qed.

Lemma sector_boundary_sub (cb : chip_blocks_t) (a : Z) :
  In cb chip_blocks -> spec_sector_start cb a = a -> a = 4096 * (a / 4096).
Proof.
  intros H. destruct (chip_blocks_sizes cb H) as [Hb Hs].
  unfold spec_sector_start. rewrite Hb, Hs.
  change (32 * 1024) with 32768. change (4 * 1024) with 4096.
  destruct (_ =? _); intros E; Z.div_mod_to_equations; lia.
Qed.

Lemma sector_at_boundary (cb : chip_blocks_t) (a : Z) :
  In cb chip_blocks -> spec_sector_start cb a = a ->
  0 <= a < EE_DEVICE_SIZE ->
  let u := unit_size cb a in
  erase_address cb a = a /\ 0 < u /\ a + u <= EE_DEVICE_SIZE /\
  spec_sector_start cb (a + u) = a + u /\
  forall b, a <= b < a + u -> spec_sector_start cb b = a.
Proof.
  intros Hin Hal Ha u.
  pose proof (chip_blocks_layout cb Hin) as Hok. unfold sector_layout_ok in Hok.
  rewrite forallb_forall in Hok.
  pose proof (sector_boundary_sub cb a Hin Hal) as Hsub.
  change EE_DEVICE_SIZE with 1048576 in Ha.
  specialize (Hok (Z.to_nat (a / 4096))).
  rewrite Z2Nat.id in Hok by (Z.div_mod_to_equations; lia).
  rewrite <- Hsub in Hok. fold u in Hok.
  rewrite Hal, Z.eqb_refl in Hok.
  assert (Hi : In (Z.to_nat (a / 4096)) (seq 0 256)).
  { apply in_seq. split; [lia|]. cbn [Nat.add].
    apply Nat2Z.inj_lt. rewrite Z2Nat.id by (Z.div_mod_to_equations; lia).
    change (Z.of_nat 256) with 256. Z.div_mod_to_equations; lia. }
  specialize (Hok Hi).
  rewrite !andb_true_iff in Hok.
  destruct Hok as (((((H1 & H2) & H3) & H4) & H5) & H6).
  apply Z.eqb_eq in H1, H2, H5. apply Z.ltb_lt in H3. apply Z.leb_le in H4.
  rewrite forallb_forall in H6.
  repeat (split; [assumption|]).
  intros b Hb. rewrite (spec_sector_start_sub cb b Hin).
  specialize (H6 (Z.to_nat (b / 4096 - a / 4096))).
  assert (Hj : 0 <= b / 4096 - a / 4096 < u / 4096)
    by (Z.div_mod_to_equations; lia).
  rewrite Z2Nat.id in H6 by lia.
  replace (a + 4096 * (b / 4096 - a / 4096)) with (4096 * (b / 4096)) in H6
    by lia.
  apply Z.eqb_eq, H6, in_seq. split; [lia|]. cbn [Nat.add].
  apply Nat2Z.inj_lt. rewrite !Z2Nat.id by lia. lia.
Qed.

Lemma sum_sizes_nonneg (cb : chip_blocks_t) (n : nat) :
  geometry_ok cb -> forall a, 0 <= sum_sizes (unit_chain cb a n).
Proof.
  intros Hcb. induction n as [|n IH]; intro a; unfold sum_sizes;
    cbn [unit_chain fold_right snd]; [lia|].
  pose proof (unit_size_pos cb a Hcb). specialize (IH (wrap32 (a + unit_size cb a))).
  unfold sum_sizes in IH. lia.
Qed.

Lemma aligned_chain (cb : chip_blocks_t) (n : nat) :
  In cb chip_blocks ->
  forall a,
    spec_sector_start cb a = a -> 0 <= a ->
    a + sum_sizes (unit_chain cb a n) < EE_DEVICE_SIZE ->
    (forall c, In c (map fst (unit_chain cb a (S n))) ->
       a <= c <= a + sum_sizes (unit_chain cb a n) /\
       spec_sector_start cb c = c) /\
    (forall b, a <= b < a + sum_sizes (unit_chain cb a (S n)) ->
       In (spec_sector_start cb b) (map fst (unit_chain cb a (S n)))).
Proof.
  intros Hin. pose proof (chip_blocks_geometry cb Hin) as Hcb.
  induction n as [|n IH]; intros a Hal Ha Hsum.
  - unfold sum_sizes in *. cbn [unit_chain fold_right snd map fst In] in *.
    destruct (sector_at_boundary cb a Hin Hal ltac:(lia))
      as (He & Hu & Hend & Hnext & Hsec).
    rewrite He. split.
    + intros c [<- | []]. split; [lia|exact Hal].
    + intros b Hb. left. symmetry. apply Hsec. lia.
  - pose proof (sum_sizes_nonneg cb n Hcb
                  (wrap32 (a + unit_size cb a))) as Hnn.
    assert (Hsum' : a + unit_size cb a
                    + sum_sizes (unit_chain cb (wrap32 (a + unit_size cb a)) n)
                    < EE_DEVICE_SIZE).
    { revert Hsum. unfold sum_sizes. cbn [unit_chain fold_right snd]. lia. }
    pose proof (unit_size_pos cb a Hcb) as Hup.
    destruct (sector_at_boundary cb a Hin Hal ltac:(lia))
      as (He & Hu & Hend & Hnext & Hsec).
    assert (Hw : wrap32 (a + unit_size cb a) = a + unit_size cb a).
    { unfold wrap32. apply Z.mod_small.
      change EE_DEVICE_SIZE with 1048576 in *. lia. }
    rewrite Hw in *.
    destruct (IH (a + unit_size cb a) Hnext ltac:(lia) Hsum') as [IH1 IH2].
    change (unit_chain cb a (S (S n)))
      with ((erase_address cb a, unit_size cb a)
            :: unit_chain cb (wrap32 (a + unit_size cb a)) (S n)).
    change (unit_chain cb a (S n))
      with ((erase_address cb a, unit_size cb a)
            :: unit_chain cb (wrap32 (a + unit_size cb a)) n).
    rewrite Hw, He.
    assert (Es : forall l, sum_sizes ((a, unit_size cb a) :: l)
                           = unit_size cb a + sum_sizes l) by reflexivity.
    rewrite !Es. cbn [map fst In]. split.
    + intros c [<- | Hc].
      * split; [lia|exact Hal].
      * destruct (IH1 c Hc) as [Hr Hc']. split; [lia|exact Hc'].
    + intros b Hb.
      destruct (Z.lt_ge_cases b (a + unit_size cb a)) as [Hlt|Hge].
      * left. symmetry. apply Hsec. lia.
      * right. apply IH2. lia.
Qed.

(** X9.  A sector-mode ee_erase() of a range that starts on a sector
    boundary and lies inside the device sends its erase commands to
    sector starts inside the range only, and to the sector of every
    word of the range. *)
Theorem aligned_erase_covers_exactly
    (fuel : nat) (addr len verbose : Z) (s : driver) :
  let low := wrap32 (bus_data (hw s) (n_reads s)) in
  let high := wrap32 (bus_data (hw s) (S (n_reads s))) in
  let cb := get_chip_block_info (fst (id_parts (ee_mode s) low high)) in
  let mask := ee_cmd_mask s in
  spec_sector_start cb addr = addr ->
  0 <= addr -> 0 < len -> addr + len <= EE_DEVICE_SIZE ->
  clock_live (hw s) fuel (2 ^ 32) ->
  exists rc s' starts evs,
    ee_erase fuel MX_ERASE_MODE_SECTOR addr len verbose s = Some (rc, s') /\
    Forall poll_event evs /\
    trace s' = trace s ++ id_events mask low high
               ++ status_clear_events mask
               ++ erase_unlock_events mask
               ++ map (fun c => EvWrite c (Z.land SECTOR_ERASE_CMD mask)) starts
               ++ [EvDelayUsec 100] ++ evs
               ++ (if rc =? 0 then [] else status_clear_events mask)
               ++ read_mode_events mask /\
    (forall b, addr <= b < addr + len -> In (spec_sector_start cb b) starts) /\
    (forall c, In c starts ->
               addr <= c < addr + len /\ spec_sector_start cb c = c).
Proof.
  intros low high cb mask Hal Ha Hlen Hend Hclock.
  destruct (ee_erase_run fuel MX_ERASE_MODE_SECTOR addr len verbose s
              ltac:(unfold MX_ERASE_MODE_SECTOR; lia) ltac:(lia)
              ltac:(lia) Hclock)
    as (rc & s' & n & evs & Hrun & _ & Hev & Htr & Hsum & _).
  specialize (Hsum eq_refl). fold low high cb mask in Htr, Hsum.
  destruct (Z.eqb_spec len 0) as [|_]; [lia|].
  assert (Hin : In cb chip_blocks) by apply get_chip_block_info_cases.
  destruct (aligned_chain cb n Hin addr Hal Ha ltac:(lia)) as [Hstarts Hcover].
  exists rc, s', (map fst (unit_chain cb addr (S n))), evs.
  split; [exact Hrun|]. split; [exact Hev|]. split; [|split].
  - rewrite Htr. unfold erase_pass_cmds, erase_cmd_events.
    change (MX_ERASE_MODE_SECTOR =? MX_ERASE_MODE_CHIP) with false.
    cbv iota. rewrite map_map. reflexivity.
  - intros b Hb. apply Hcover. lia.
  - intros c Hc. destruct (Hstarts c Hc) as [Hr Hs]. split; [lia|exact Hs].
Qed.

Lemma aligned_erase_covers_exactly_witness :
  exists rc s' starts evs,
    ee_erase 1 MX_ERASE_MODE_SECTOR 0x2000 0x7000 0 coarse_clock_driver
    = Some (rc, s') /\
    Forall poll_event evs /\
    trace s' = trace coarse_clock_driver ++ id_events 0xffff 0 0
               ++ status_clear_events 0xffff
               ++ erase_unlock_events 0xffff
               ++ map (fun c => EvWrite c (Z.land SECTOR_ERASE_CMD 0xffff))
                      starts
               ++ [EvDelayUsec 100] ++ evs
               ++ (if rc =? 0 then [] else status_clear_events 0xffff)
               ++ read_mode_events 0xffff /\
    (forall b, 0x2000 <= b < 0x2000 + 0x7000 ->
               In (spec_sector_start chip_default b) starts) /\
    (forall c, In c starts ->
               0x2000 <= c < 0x2000 + 0x7000 /\
               spec_sector_start chip_default c = c).
Proof.
  exact (aligned_erase_covers_exactly 1 0x2000 0x7000 0 coarse_clock_driver
           eq_refl ltac:(lia) ltac:(lia) ltac:(vm_compute; discriminate)
           (coarse_clock_live 1 ltac:(lia))).
Defined.

(** X10.  In chip mode ee_erase() does not use the address (beyond
    requiring it to be inside the device) nor the length: the call
    equals the one with address 0 and length 0, and it sends the
    chip-erase command once, after the unlock cycles. *)
Theorem chip_erase_ignores_address_and_length
    (fuel : nat) (addr len verbose : Z) (s : driver) :
  0 <= addr < EE_DEVICE_SIZE ->
  ee_erase fuel MX_ERASE_MODE_CHIP addr len verbose s
  = ee_erase fuel MX_ERASE_MODE_CHIP 0 0 verbose s /\
  (clock_live (hw s) fuel (2 ^ 32) ->
   let low := wrap32 (bus_data (hw s) (n_reads s)) in
   let high := wrap32 (bus_data (hw s) (S (n_reads s))) in
   let mask := ee_cmd_mask s in
   exists rc s' evs,
     ee_erase fuel MX_ERASE_MODE_CHIP addr len verbose s = Some (rc, s') /\
     Forall poll_event evs /\
     trace s' = trace s ++ id_events mask low high
                ++ status_clear_events mask
                ++ erase_unlock_events mask
                ++ [EvWrite 0x555 (Z.land 0x00100010 mask)]
                ++ [EvDelayUsec 100] ++ evs
                ++ (if rc =? 0 then [] else status_clear_events mask)
                ++ read_mode_events mask).
Proof.
  intros Ha.
  assert (Heq : ee_erase fuel MX_ERASE_MODE_CHIP addr len verbose s
                = ee_erase fuel MX_ERASE_MODE_CHIP 0 0 verbose s).
  { unfold ee_erase.
    change (MX_ERASE_MODE_SECTOR <? MX_ERASE_MODE_CHIP) with false.
    change (MX_ERASE_MODE_CHIP =? MX_ERASE_MODE_CHIP) with true.
    rewrite !orb_true_r. cbv iota. cbn [bind].
    destruct (ee_id s) as [[parts s1]|]; [|reflexivity].
    destruct (ee_status_clear s1) as [[[] s2]|]; [|reflexivity].
    change (Z.to_nat 1) with 1%nat. cbn [erase_passes].
    change (0 <? 1) with true. cbv iota.
    destruct (Z.leb_spec EE_DEVICE_SIZE addr); [lia|].
    change (EE_DEVICE_SIZE <=? 0) with false. cbv iota.
    change (MX_ERASE_MODE_CHIP =? MX_ERASE_MODE_CHIP) with true. cbv iota.
    step_drv.
    match goal with
    | |- context [ee_wait_for_done_status ?f ?T ?v ?m ?st] =>
        destruct (ee_wait_for_done_status f T v m st) as [[rc s3]|];
          [|reflexivity]
    end.
    destruct (negb (rc =? 0)); reflexivity. }
  split; [exact Heq|]. intros Hclock low high mask. rewrite Heq.
  destruct (ee_erase_run fuel MX_ERASE_MODE_CHIP 0 0 verbose s
              ltac:(vm_compute; split; discriminate) ltac:(lia)
              ltac:(vm_compute; split; [discriminate|reflexivity]) Hclock)
    as (rc & s' & n & evs & Hrun & _ & Hev & Htr & _ & _).
  exists rc, s', evs. split; [exact Hrun|]. split; [exact Hev|exact Htr].
Qed.

Lemma chip_erase_ignores_address_and_length_witness :
  ee_erase 4 MX_ERASE_MODE_CHIP 0x12345 77 0 blank_driver
  = ee_erase 4 MX_ERASE_MODE_CHIP 0 0 0 blank_driver.
Proof.
  exact (proj1 (chip_erase_ignores_address_and_length 4 0x12345 77 0
                  blank_driver
                  ltac:(vm_compute; split; [discriminate|reflexivity]))).
Defined.

(** X11.  On a platform whose timer advances, ee_erase() returns 0 or
    1 and nothing else.  0 means the
    monitor saw the erase complete, with [ee_status] normal; 1 is the
    answer to a bad mode, to a start address past the device, and to a
    monitor fault, which leaves [ee_status] at erase timeout or erase
    failure. *)
Theorem ee_erase_result_codes
    (fuel : nat) (mode addr len verbose : Z) (s : driver) :
  0 <= mode -> 0 <= len -> 0 <= addr ->
  clock_live (hw s) fuel (2 ^ 32) ->
  exists rc s',
    ee_erase fuel mode addr len verbose s = Some (rc, s') /\
    (rc = 0 \/ rc = 1) /\
    (rc = 0 ->
     mode <= MX_ERASE_MODE_SECTOR /\ addr < EE_DEVICE_SIZE /\
     ee_status s' = EE_STATUS_NORMAL) /\
    (rc = 1 -> mode <= MX_ERASE_MODE_SECTOR -> addr < EE_DEVICE_SIZE ->
     ee_status s' = EE_STATUS_ERASE_TIMEOUT \/
     ee_status s' = EE_STATUS_ERASE_FAILURE).
Proof.
  intros Hmode Hlen Ha Hclock.
  destruct (Z.lt_ge_cases MX_ERASE_MODE_SECTOR mode) as [Hbad|Hok].
  - unfold ee_erase. apply Z.ltb_lt in Hbad. rewrite Hbad. step_drv.
    apply Z.ltb_lt in Hbad.
    eexists _, _. split; [reflexivity|]. split; [right; reflexivity|].
    split; [discriminate|]. intros _ H. lia.
  - destruct (Z.lt_ge_cases addr EE_DEVICE_SIZE) as [Hin|Hout].
    + destruct (ee_erase_run fuel mode addr len verbose s
                  ltac:(lia) Hlen ltac:(lia) Hclock)
        as (rc & s' & n & evs & Hrun & _ & _ & _ & _ & Hrc).
      exists rc, s'. split; [exact Hrun|].
      destruct Hrc as [(-> & Hst)|(-> & Hst)].
      * split; [left; reflexivity|]. split; [auto|discriminate].
      * split; [right; reflexivity|]. split; [discriminate|auto].
    + destruct (ee_erase_rejects_start_past_end fuel mode addr len verbose s
                  ltac:(lia) Hlen Hout) as (s' & low & high & Hrun & _).
      exists 1, s'. split; [exact Hrun|]. split; [right; reflexivity|].
      split; [discriminate|]. intros _ _ H. lia.
Qed.

Lemma ee_erase_result_codes_witness :
  (exists s',
     ee_erase 1433 MX_ERASE_MODE_CHIP 0 0 0 slow_clock_driver = Some (0, s') /\
     ee_status s' = EE_STATUS_NORMAL) /\
  (exists s',
     ee_erase 1433 MX_ERASE_MODE_SECTOR 0x8000 1 0 slow_clock_driver
     = Some (1, s') /\
     (ee_status s' = EE_STATUS_ERASE_TIMEOUT \/
      ee_status s' = EE_STATUS_ERASE_FAILURE)).
Proof.
  assert (Hclock : clock_live (hw slow_clock_driver) 1433 (2 ^ 32))
    by (apply (sim_clock_reaches [] 3000000 1433 1432); lia).
  split.
  - destruct (ee_erase_result_codes 1433 MX_ERASE_MODE_CHIP 0 0 0
                slow_clock_driver ltac:(vm_compute; discriminate)
                ltac:(lia) ltac:(lia) Hclock)
      as (rc & s' & Hrun & _ & H0 & _).
    assert (Hc : exists s0,
               ee_erase 1433 MX_ERASE_MODE_CHIP 0 0 0 slow_clock_driver
               = Some (0, s0)) by (eexists; vm_compute; reflexivity).
    destruct Hc as (s0 & Hc). rewrite Hc in Hrun.
    injection Hrun as Hrc Hs. subst s0.
    exists s'. split; [exact Hc|]. apply H0. symmetry. exact Hrc.
  - destruct (ee_erase_result_codes 1433 MX_ERASE_MODE_SECTOR 0x8000 1 0
                slow_clock_driver ltac:(vm_compute; discriminate)
                ltac:(lia) ltac:(lia) Hclock)
      as (rc & s' & Hrun & _ & _ & H1).
    assert (Hc : exists s0,
               ee_erase 1433 MX_ERASE_MODE_SECTOR 0x8000 1 0 slow_clock_driver
               = Some (1, s0)) by (eexists; vm_compute; reflexivity).
    destruct Hc as (s0 & Hc). rewrite Hc in Hrun.
    injection Hrun as Hrc Hs. subst s0.
    exists s'. split; [exact Hc|].
    apply H1; [symmetry; exact Hrc|vm_compute; discriminate|reflexivity].
Defined.

Lemma irq_masked_app (a b : list event) (m : bool) :
  irq_masked (a ++ b) m = irq_masked b (irq_masked a m).
Proof. apply fold_left_app. Qed.

Lemma irq_masked_poll (evs : list event) (m : bool) :
  Forall poll_event evs -> irq_masked evs m = m.
Proof.
  induction 1 as [|e evs He _ IH]; [reflexivity|].
  destruct e; try contradiction; exact IH.
Qed.

Lemma irq_masked_erase_cmds (mask : Z) (units : list (Z * Z)) (m : bool) :
  irq_masked (erase_cmd_events mask units) m = m.
Proof. induction units as [|u units IH]; [reflexivity|exact IH]. Qed.

(** X12.  ee_erase() masks the interrupts for its unlock cycles and
    never unmasks them: whatever the outcome, the last mask or unmask
    in its bus traffic is a mask. *)
Theorem ee_erase_leaves_interrupts_masked
    (fuel : nat) (mode addr len verbose : Z) (s : driver) (before : bool) :
  0 <= mode <= MX_ERASE_MODE_SECTOR -> 0 <= len ->
  0 <= addr < EE_DEVICE_SIZE ->
  clock_live (hw s) fuel (2 ^ 32) ->
  exists rc s' evs,
    ee_erase fuel mode addr len verbose s = Some (rc, s') /\
    trace s' = trace s ++ evs /\
    irq_masked evs before = true.
Proof.
  intros Hmode Hlen Ha Hclock.
  destruct (ee_erase_run fuel mode addr len verbose s Hmode Hlen Ha Hclock)
    as (rc & s' & n & evs & Hrun & _ & Hev & Htr & _ & _).
  exists rc, s'. eexists. split; [exact Hrun|]. split; [exact Htr|].
  rewrite !irq_masked_app. rewrite (irq_masked_poll evs) by exact Hev.
  unfold erase_pass_cmds.
  destruct (mode =? MX_ERASE_MODE_CHIP); rewrite ?irq_masked_erase_cmds;
    destruct (rc =? 0); reflexivity.
Qed.

Lemma ee_erase_leaves_interrupts_masked_witness :
  exists rc s' evs,
    ee_erase 1 MX_ERASE_MODE_CHIP 0 0 0 coarse_clock_driver = Some (rc, s') /\
    trace s' = trace coarse_clock_driver ++ evs /\
    irq_masked evs false = true.
Proof.
  exact (ee_erase_leaves_interrupts_masked 1 MX_ERASE_MODE_CHIP 0 0 0
           coarse_clock_driver false
           ltac:(vm_compute; split; discriminate) ltac:(lia)
           ltac:(vm_compute; split; [discriminate|reflexivity])
           (coarse_clock_live 1 ltac:(lia))).
Defined.

(** ** The status report and the idle manager *)

Lemma ee_status_read_run (status_len : Z) (s : driver) :
  exists s',
    ee_status_read status_len s
    = Some ((snprintf status_len (status_text (ee_status s)),
             wrap16 (ee_status s)), s') /\
    ee_status s' = ee_status s /\ ee_cmd_mask s' = ee_cmd_mask s /\
    n_reads s' = S (n_reads s) /\
    trace s' = trace s
               ++ status_read_events (ee_cmd_mask s)
                    (wrap32 (bus_data (hw s) (n_reads s))).
Proof.
  unfold ee_status_read. cbn [bind].
  rewrite (ee_cmd_unlock s 0x555 0x00700070) by reflexivity.
  step_drv. rewrite ee_read_mode_run. step_drv.
  eexists. split; [reflexivity|]. step_drv. repeat split.
  unfold status_read_events. rewrite <- !app_assoc. reflexivity.
Qed.



(** X14.  ee_poll() after a command: when more than one second has
    passed on the timer, it turns the bus drivers off, waits 50
    microseconds and forgets the access time, so that a second
    ee_poll() does nothing; up to one second it changes nothing.  A
    command issued at timer value 0 is never followed up. *)
Theorem ee_poll_after_command (s : driver) (addr cmd : Z) :
  let t0 := wrap64 (timer_ticks (hw s) (n_ticks s)) in
  let t1 := wrap64 (timer_ticks (hw s) (S (n_ticks s))) in
  let idle := wrap64 (timer_tick_to_usec (hw s) (wrap64 (t1 - t0))) in
  exists s1,
    ee_cmd addr cmd s = Some (tt, s1) /\
    (t0 <> 0 -> 1000000 < idle ->
     exists s2,
       ee_poll s1 = Some (tt, s2) /\
       ee_enabled s2 = false /\ ee_last_access s2 = 0 /\
       ee_cmd_mask s2 = ee_cmd_mask s /\
       trace s2 = trace s1 ++ [EvBusDisable; EvDelayUsec 50] /\
       ee_poll s2 = Some (tt, s2)) /\
    (t0 <> 0 -> idle <= 1000000 ->
     exists s2,
       ee_poll s1 = Some (tt, s2) /\
       ee_enabled s2 = ee_enabled s /\ ee_last_access s2 = t0 /\
       trace s2 = trace s1) /\
    (t0 = 0 -> ee_poll s1 = Some (tt, s1)).
Proof.
  intros t0 t1 idle.
  destruct (ee_cmd_frame addr cmd s)
    as (s1 & Hrun & Hhw & _ & Hk & _ & Hen & _ & Hnt & Hla).
  fold t0 in Hla. exists s1. split; [exact Hrun|].
  assert (Hidle : wrap64 (timer_tick_to_usec (hw s1)
                    (wrap64 (wrap64 (timer_ticks (hw s1) (n_ticks s1))
                             - ee_last_access s1))) = idle)
    by (rewrite Hhw, Hnt, Hla; reflexivity).
  unfold ee_poll. step_drv. rewrite Hla.
  split; [|split].
  - intros H0 Hi. apply Z.eqb_neq in H0. rewrite H0. cbn [negb]. step_drv.
    rewrite <- Hla, Hidle.
    apply Z.ltb_lt in Hi. rewrite Hi. unfold ee_disable. step_drv.
    eexists. split; [reflexivity|]. step_drv.
    rewrite <- app_assoc. repeat split. exact Hk.
  - intros H0 Hi. apply Z.eqb_neq in H0. rewrite H0. cbn [negb]. step_drv.
    rewrite <- Hla, Hidle.
    destruct (Z.ltb_spec 1000000 idle); [lia|].
    eexists. split; [reflexivity|]. step_drv. repeat split; assumption.
  - intros H0. rewrite H0. reflexivity.
Qed.

Lemma ee_poll_after_command_witness :
  exists s1 s2,
    ee_cmd 0x555 0x00f000f0
           (set_n_ticks 1 slow_clock_driver) = Some (tt, s1) /\
    ee_poll s1 = Some (tt, s2) /\
    ee_enabled s2 = false /\ ee_last_access s2 = 0.
Proof.
  destruct (ee_poll_after_command (set_n_ticks 1 slow_clock_driver)
              0x555 0x00f000f0) as (s1 & Hcmd & Hidle & _).
  destruct (Hidle ltac:(vm_compute; discriminate)
                  ltac:(vm_compute; reflexivity))
    as (s2 & Hpoll & Hen & Hla & _).
  exists s1, s2. repeat split; assumption.
Defined.

(** ** Diagnostics *)

Lemma print_bits_loop_spec (value : Z) (count : nat) :
  forall bit,
    bit = Z.of_nat count - 1 ->
    (forall b, In b (print_bits_loop count value bit) <->
               0 <= b <= bit /\ Z.testbit value b = true) /\
    StronglySorted (fun a b => b < a) (print_bits_loop count value bit).
Proof.
  induction count as [|count IH]; intros bit Hbit.
  - cbn [print_bits_loop]. split; [|constructor].
    intros b. split; [intros []|]. intros [H _]. lia.
  - cbn [print_bits_loop].
    destruct (IH (bit - 1) ltac:(lia)) as [IHin IHs].
    change (Z.shiftl 1 bit) with (BIT bit). rewrite BIT_testbit by lia.
    split.
    + intros b. rewrite in_app_iff, IHin.
      destruct (Z.testbit value bit) eqn:Eb; cbn [In]; split.
      * intros [[<- | []]|[H1 H2]]; [split; [lia|exact Eb]|split; [lia|exact H2]].
      * intros [H1 H2]. destruct (Z.eq_dec b bit) as [->|]; [auto|right; split; [lia|exact H2]].
      * intros [[]|[H1 H2]]. split; [lia|exact H2].
      * intros [H1 H2]. right. split; [|exact H2].
        destruct (Z.eq_dec b bit) as [->|]; [congruence|lia].
    + destruct (Z.testbit value bit); cbn [app]; [|exact IHs].
      constructor; [exact IHs|]. apply Forall_forall. intros b Hb.
      apply IHin in Hb. lia.
Qed.

(** X15.  For a [high_bit] of at most 30, where the shift stays inside
    an [int], ee_print_bits() prints exactly the numbers of the bits of
    [value] that are set, from [high_bit] down to 0, each once and in
    descending order. *)
Theorem ee_print_bits_lists_set_bits (value high_bit : Z) :
  high_bit <= 30 ->
  (forall b, In b (ee_print_bits value high_bit) <->
             0 <= b <= high_bit /\ Z.testbit value b = true) /\
  StronglySorted (fun a b => b < a) (ee_print_bits value high_bit).
Proof.
  intros _.
  unfold ee_print_bits. destruct (Z.lt_ge_cases high_bit 0) as [Hneg|Hpos].
  - replace (Z.to_nat (high_bit + 1)) with 0%nat by lia. cbn [print_bits_loop].
    split; [|constructor]. intros b. split; [intros []|]. intros [H _]. lia.
  - apply print_bits_loop_spec. lia.
Qed.

Lemma ee_print_bits_lists_set_bits_witness :
  (forall b, In b (ee_print_bits 0x50 19) <->
             0 <= b <= 19 /\ Z.testbit 0x50 b = true) /\
  StronglySorted (fun a b => b < a) (ee_print_bits 0x50 19).
Proof.
  exact (ee_print_bits_lists_set_bits 0x50 19 ltac:(lia)).
Defined.

(** ** The bus snoop *)

Lemma ring_next_spec (x : Z) :
  0 <= x < CAPTURES ->
  ring_next x = (x + 1) mod CAPTURES /\ 0 <= ring_next x < CAPTURES.
Proof.
  unfold ring_next, CAPTURES, wrap32. intros Hx.
  rewrite (Z.mod_small (x + 1) (2 ^ 32)) by lia.
  destruct (Z.leb_spec 32 (x + 1)).
  - replace x with 31 by lia. split; [reflexivity|lia].
  - rewrite Z.mod_small by lia. lia.
Qed.

Lemma ring_slice_length (c : list Z) (n : nat) :
  forall from, List.length (ring_slice c from n) = n.
Proof. induction n as [|n IH]; intro from; cbn; [|rewrite IH]; reflexivity. Qed.

Lemma snoop_drain_spec (c : list Z) (n : nat) :
  forall gas cons prod,
    0 <= cons < CAPTURES -> 0 <= prod < CAPTURES ->
    n = Z.to_nat ((prod - cons) mod CAPTURES) -> (n <= gas)%nat ->
    snoop_drain gas c cons prod
    = (map SnoopAddr (ring_slice c cons n), prod).
Proof.
  induction n as [|n IH]; intros gas cons prod Hc Hp Hn Hgas.
  - assert (cons = prod) as ->
      by (unfold CAPTURES in *; Z.div_mod_to_equations; lia).
    destruct gas; cbn [snoop_drain]; rewrite Z.eqb_refl; reflexivity.
  - destruct gas as [|gas]; [lia|]. cbn [snoop_drain].
    destruct (Z.eqb_spec cons prod) as [->|Hne].
    { rewrite Z.sub_diag in Hn. discriminate Hn. }
    destruct (ring_next_spec cons Hc) as [Hnx Hnr].
    rewrite (IH gas (ring_next cons) prod Hnr Hp); [reflexivity| |lia].
    rewrite Hnx. unfold CAPTURES in *. Z.div_mod_to_equations; lia.
Qed.

Lemma store_length (l : list Z) : forall i v,
  List.length (store l i v) = List.length l.
Proof.
  induction l as [|x l IH]; intros [|i] v; cbn; try reflexivity.
  rewrite IH. reflexivity.
Qed.

Lemma nth_store_same (l : list Z) : forall i v d,
  (i < List.length l)%nat -> nth i (store l i v) d = v.
Proof.
  induction l as [|x l IH]; intros [|i] v d H; cbn in *; try lia.
  apply IH. lia.
Qed.

Lemma nth_store_other (l : list Z) : forall i j v d,
  i <> j -> nth j (store l i v) d = nth j l d.
Proof.
  induction l as [|x l IH]; intros [|i] [|j] v d H; cbn; try reflexivity;
    try congruence. apply IH. congruence.
Qed.

Lemma ring_slice_store (c : list Z) (p : Z) (v : Z) (n : nat) :
  forall from,
    0 <= from < CAPTURES -> 0 <= p < CAPTURES ->
    (forall k, 0 <= k < Z.of_nat n -> (from + k) mod CAPTURES <> p) ->
    ring_slice (store c (Z.to_nat p) v) from n = ring_slice c from n.
Proof.
  induction n as [|n IH]; intros from Hf Hp Hk; [reflexivity|].
  cbn [ring_slice]. destruct (ring_next_spec from Hf) as [Hnx Hnr].
  rewrite nth_store_other.
  - f_equal. apply IH; [exact Hnr|exact Hp|]. intros k Hk'.
    rewrite Hnx.
    specialize (Hk (k + 1) ltac:(lia)).
    replace (((from + 1) mod CAPTURES + k) mod CAPTURES)
      with ((from + (k + 1)) mod CAPTURES); [exact Hk|].
    rewrite Zplus_mod_idemp_l. f_equal. lia.
  - specialize (Hk 0 ltac:(lia)). unfold CAPTURES in *.
    rewrite Z.add_0_r, Z.mod_small in Hk by lia.
    intros E. apply Hk. apply Z2Nat.inj; lia.
Qed.

Lemma ring_slice_snoc (c : list Z) (n : nat) :
  forall from,
    0 <= from < CAPTURES ->
    ring_slice c from (S n)
    = ring_slice c from n
      ++ [nth (Z.to_nat ((from + Z.of_nat n) mod CAPTURES)) c 0].
Proof.
  induction n as [|n IH]; intros from Hf.
  - cbn [ring_slice app Z.of_nat].
    rewrite Z.add_0_r, Z.mod_small by (unfold CAPTURES in *; lia).
    reflexivity.
  - destruct (ring_next_spec from Hf) as [Hnx Hnr].
    change (ring_slice c from (S (S n)))
      with (nth (Z.to_nat from) c 0 :: ring_slice c (ring_next from) (S n)).
    rewrite (IH (ring_next from) Hnr). cbn [ring_slice app].
    assert (E : (ring_next from + Z.of_nat n) mod CAPTURES
                = (from + Z.of_nat (S n)) mod CAPTURES)
      by (rewrite Hnx, Zplus_mod_idemp_l; f_equal; lia).
    rewrite E. reflexivity.
Qed.

(** Capturing into a ring that is not full appends to the pending
    addresses. *)
Lemma ring_capture (c : list Z) (cons prod addr : Z) :
  0 <= cons < CAPTURES -> 0 <= prod < CAPTURES ->
  List.length c = Z.to_nat CAPTURES ->
  ring_next prod <> cons ->
  ring_slice (store c (Z.to_nat prod) addr) cons
    (Z.to_nat ((ring_next prod - cons) mod CAPTURES))
  = ring_slice c cons (Z.to_nat ((prod - cons) mod CAPTURES)) ++ [addr].
Proof.
  intros Hc Hp Hlen Hfull.
  destruct (ring_next_spec prod Hp) as [Hnx Hnr].
  set (n := Z.to_nat ((prod - cons) mod CAPTURES)).
  assert (Hn : Z.of_nat n = (prod - cons) mod CAPTURES).
  { subst n. rewrite Z2Nat.id; [reflexivity|].
    apply Z.mod_pos_bound. reflexivity. }
  assert (Hsn : Z.to_nat ((ring_next prod - cons) mod CAPTURES) = S n).
  { rewrite Hnx in *. apply Nat2Z.inj. rewrite Z2Nat.id, Nat2Z.inj_succ, Hn.
    - unfold CAPTURES in *. Z.div_mod_to_equations; lia.
    - apply Z.mod_pos_bound. reflexivity. }
  rewrite Hsn, ring_slice_snoc by exact Hc.
  assert (Hpos : (cons + Z.of_nat n) mod CAPTURES = prod).
  { rewrite Hn. unfold CAPTURES in *. Z.div_mod_to_equations; lia. }
  rewrite Hpos, nth_store_same by (rewrite Hlen; unfold CAPTURES in *; lia).
  f_equal. apply ring_slice_store; [exact Hc|exact Hp|].
  intros k Hk. rewrite Hn in Hk. unfold CAPTURES in *.
  Z.div_mod_to_equations; lia.
Qed.

Lemma ring_full_iff (cons prod : Z) :
  0 <= cons < CAPTURES -> 0 <= prod < CAPTURES ->
  (ring_next prod = cons <-> (prod - cons) mod CAPTURES = 31).
Proof.
  intros Hc Hp. destruct (ring_next_spec prod Hp) as [-> _].
  unfold CAPTURES in *. split; intro; Z.div_mod_to_equations; lia.
Qed.

Lemma ring_empty_iff (cons prod : Z) :
  0 <= cons < CAPTURES -> 0 <= prod < CAPTURES ->
  (cons = prod <-> (prod - cons) mod CAPTURES = 0).
Proof.
  intros Hc Hp. unfold CAPTURES in *. split; intro; Z.div_mod_to_equations; lia.
Qed.

Lemma ring_count_bound (st : snoop_state) :
  snoop_inv st -> (ring_count st <= 31)%nat.
Proof.
  intros _. unfold ring_count, CAPTURES.
  pose proof (Z.mod_pos_bound (sn_prod st - sn_cons st) 32 ltac:(lia)). lia.
Qed.

Lemma snoop_iter_refines (st : snoop_state) (i : snoop_input) :
  snoop_inv st ->
  snd (snoop_iter st i) = snd (queue_iter (queue_of st) i) /\
  match fst (snoop_iter st i), fst (queue_iter (queue_of st) i) with
  | None, None => True
  | Some st', Some q' => snoop_inv st' /\ queue_of st' = q'
  | _, _ => False
  end.
Proof.
  intros (Hc & Hp & Hlen).
  assert (Hinv : snoop_inv st) by exact (conj Hc (conj Hp Hlen)).
  unfold snoop_iter, queue_iter, oe_input.
  cbn [q_pending q_laddr q_iters q_no_data queue_of].
  destruct (oe_pin i); cbn [Z.eqb].
  - (* OE# high *)
    destruct (sn_no_data st <? 30); cbn [fst snd].
    + split; [reflexivity|]. split; [exact Hinv|reflexivity].
    + rewrite (snoop_drain_spec (sn_captures st) (ring_count st))
        by (try assumption; try reflexivity;
            pose proof (ring_count_bound st Hinv); unfold CAPTURES; cbn; lia).
      cbn [fst snd]. fold (ring_pending st).
      assert (Hout : (if negb (sn_cons st =? sn_prod st)
                      then map SnoopAddr (ring_pending st) ++ [SnoopNewline]
                      else [])
                     = match ring_pending st with
                       | [] => []
                       | _ :: _ => map SnoopAddr (ring_pending st)
                                   ++ [SnoopNewline]
                       end).
      { unfold ring_pending, ring_count.
        destruct (Z.eqb_spec (sn_cons st) (sn_prod st)) as [E|E].
        - rewrite E, Z.sub_diag. reflexivity.
        - pose proof (ring_empty_iff _ _ Hc Hp) as Hiff.
          destruct (Z.to_nat ((sn_prod st - sn_cons st) mod CAPTURES)) eqn:En;
            [|reflexivity].
          exfalso. apply E, Hiff.
          pose proof (Z.mod_pos_bound (sn_prod st - sn_cons st) CAPTURES
                        ltac:(reflexivity)). lia. }
      rewrite Hout. destruct (break_pending i); cbn [fst snd].
      * split; [reflexivity|exact I].
      * split; [reflexivity|]. split.
        -- unfold snoop_inv. cbn [sn_cons sn_prod sn_captures]. auto.
        -- unfold queue_of, ring_pending, ring_count.
           cbn [sn_cons sn_prod sn_captures sn_laddr sn_iters sn_no_data].
           rewrite Z.sub_diag. reflexivity.
  - (* OE# low *)
    destruct (address_pins i =? sn_laddr st) eqn:Ea; cbn [negb andb].
    + (* the address did not change *)
      apply Z.eqb_eq in Ea.
      destruct (30 <=? sn_iters st); [destruct (break_pending i)|];
        cbn [fst snd]; (split; [reflexivity|]); try exact I;
        (split; [exact Hinv|]); unfold queue_of, ring_pending, ring_count;
        cbn [sn_cons sn_prod sn_captures sn_laddr sn_iters sn_no_data];
        rewrite Ea; reflexivity.
    + pose proof (ring_full_iff _ _ Hc Hp) as Hfull.
      pose proof (ring_count_bound st Hinv) as Hcnt.
      unfold ring_pending. rewrite ring_slice_length.
      destruct (Z.eqb_spec (ring_next (sn_prod st)) (sn_cons st)) as [E|E].
      * (* FIFO full *)
        apply Hfull in E.
        assert (Hc31 : ring_count st = 31%nat)
          by (unfold ring_count; rewrite E; reflexivity).
        rewrite Hc31. cbn [Nat.leb fst snd]. split; [reflexivity|].
        split; [exact Hinv|reflexivity].
      * assert (Hlt : (ring_count st < 31)%nat).
        { unfold ring_count in *.
          assert ((sn_prod st - sn_cons st) mod CAPTURES <> 31)
            by (intro H31; apply E, Hfull, H31).
          pose proof (Z.mod_pos_bound (sn_prod st - sn_cons st) CAPTURES
                        ltac:(reflexivity)). unfold CAPTURES in *. lia. }
        destruct (Nat.leb_spec 31 (ring_count st)) as [|_]; [lia|].
        destruct (ring_next_spec _ Hp) as [_ Hnr].
        cbn [sn_cons sn_prod sn_captures sn_laddr sn_iters sn_no_data].
        destruct (30 <=? sn_iters st); [destruct (break_pending i)|];
          cbn [fst snd]; (split; [reflexivity|]); try exact I;
          (split; [unfold snoop_inv;
                   cbn [sn_cons sn_prod sn_captures];
                   rewrite store_length; auto|]);
          unfold queue_of, ring_pending, ring_count;
          cbn [sn_cons sn_prod sn_captures sn_laddr sn_iters sn_no_data];
          rewrite ring_capture by assumption; reflexivity.
Qed.

Lemma snoop_loop_refines (inputs : list snoop_input) :
  forall st,
    snoop_inv st ->
    fst (snoop_loop inputs st) = fst (queue_loop inputs (queue_of st)) /\
    match snd (snoop_loop inputs st), snd (queue_loop inputs (queue_of st)) with
    | None, None => True
    | Some st', Some q' => snoop_inv st' /\ queue_of st' = q'
    | _, _ => False
    end.
Proof.
  induction inputs as [|i inputs IH]; intros st Hinv.
  - cbn. auto.
  - cbn [snoop_loop queue_loop].
    destruct (snoop_iter_refines st i Hinv) as [Hout Hnext].
    destruct (snoop_iter st i) as [[st'|] out];
      destruct (queue_iter (queue_of st) i) as [[q'|] out'];
      cbn [fst snd] in *; try contradiction; subst out'.
    + destruct Hnext as [Hinv' <-].
      destruct (IH st' Hinv') as [Ho Hs]. cbn [fst snd].
      rewrite Ho. split; [reflexivity|exact Hs].
    + split; [reflexivity|exact I].
Qed.

(** X16.  The ring buffer of ee_snoop() behaves as a queue that holds
    at most 31 addresses: for every sequence of observations the
    output, the moment ee_snoop() returns and the pending addresses
    are those of [queue_loop], whatever the array held at entry. *)
Theorem ee_snoop_is_bounded_queue
    (captures : list Z) (inputs : list snoop_input) :
  List.length captures = Z.to_nat CAPTURES ->
  fst (ee_snoop captures inputs) = fst (queue_loop inputs queue_init) /\
  match snd (ee_snoop captures inputs), snd (queue_loop inputs queue_init) with
  | None, None => True
  | Some st, Some q => queue_of st = q
  | _, _ => False
  end.
Proof.
  intros Hlen.
  assert (Hinv : snoop_inv (snoop_init captures)).
  { unfold snoop_inv, snoop_init, CAPTURES in *. cbn. lia. }
  destruct (snoop_loop_refines inputs (snoop_init captures) Hinv) as [Ho Hs].
  split; [exact Ho|].
  change (ee_snoop captures inputs) with (snoop_loop inputs (snoop_init captures)).
  change queue_init with (queue_of (snoop_init captures)).
  destruct (snd (snoop_loop _ _)), (snd (queue_loop _ _)); try exact Hs.
  exact (proj2 Hs).
Qed.

Lemma ee_snoop_is_bounded_queue_witness :
  fst (ee_snoop (repeat 7 32) (busy_bus 3))
  = fst (queue_loop (busy_bus 3) queue_init) /\
  match snd (ee_snoop (repeat 7 32) (busy_bus 3)),
        snd (queue_loop (busy_bus 3) queue_init) with
  | None, None => True
  | Some st, Some q => queue_of st = q
  | _, _ => False
  end.
Proof.
  exact (ee_snoop_is_bounded_queue (repeat 7 32) (busy_bus 3) eq_refl).
Defined.

(** X17.  While ee_snoop() runs, both indices stay inside the array of
    32 captures and at most 31 captures are pending. *)
Theorem ee_snoop_indices_in_bounds
    (captures : list Z) (inputs : list snoop_input) (st : snoop_state) :
  List.length captures = Z.to_nat CAPTURES ->
  snd (ee_snoop captures inputs) = Some st ->
  0 <= sn_cons st < CAPTURES /\ 0 <= sn_prod st < CAPTURES /\
  List.length (sn_captures st) = Z.to_nat CAPTURES /\
  (List.length (ring_pending st) <= 31)%nat.
Proof.
  intros Hlen Hrun.
  assert (Hinv : snoop_inv (snoop_init captures)).
  { unfold snoop_inv, snoop_init, CAPTURES in *. cbn. lia. }
  destruct (snoop_loop_refines inputs (snoop_init captures) Hinv) as [_ Hs].
  change (ee_snoop captures inputs)
    with (snoop_loop inputs (snoop_init captures)) in Hrun.
  rewrite Hrun in Hs.
  destruct (snd (queue_loop _ _)); [|contradiction].
  destruct Hs as [Hi _]. pose proof Hi as (Hc & Hp & Hl).
  split; [exact Hc|]. split; [exact Hp|]. split; [exact Hl|].
  unfold ring_pending. rewrite ring_slice_length.
  apply ring_count_bound. exact Hi.
Qed.

Lemma ee_snoop_indices_in_bounds_witness :
  exists st,
    snd (ee_snoop (repeat 7 32) (busy_bus 40)) = Some st /\
    0 <= sn_cons st < CAPTURES /\ 0 <= sn_prod st < CAPTURES /\
    List.length (sn_captures st) = Z.to_nat CAPTURES /\
    (List.length (ring_pending st) <= 31)%nat.
Proof.
  eexists. split; [vm_compute; reflexivity|].
  apply (ee_snoop_indices_in_bounds (repeat 7 32) (busy_bus 40));
    [reflexivity|vm_compute; reflexivity].
Defined.

Lemma snoop_loop_app (a b : list snoop_input) :
  forall st,
    snoop_loop (a ++ b) st
    = match snd (snoop_loop a st) with
      | Some st' => (fst (snoop_loop a st) ++ fst (snoop_loop b st'),
                     snd (snoop_loop b st'))
      | None => snoop_loop a st
      end.
Proof.
  induction a as [|i a IH]; intros st.
  - cbn [app snoop_loop fst snd]. destruct (snoop_loop b st); reflexivity.
  - cbn [app snoop_loop]. destruct (snoop_iter st i) as [[st'|] out].
    + rewrite IH. destruct (snoop_loop a st') as [o [st''|]]; cbn [fst snd].
      * rewrite app_assoc. reflexivity.
      * reflexivity.
    + reflexivity.
Qed.

Lemma snoop_loop_full (more : list snoop_input) (st : snoop_state) :
  ring_next (sn_prod st) = sn_cons st ->
  Forall (fun i => oe_pin i = false /\ address_pins i <> sn_laddr st) more ->
  snoop_loop more st = ([], Some st).
Proof.
  intros Hfull. induction 1 as [|i more [Hoe Ha] _ IH]; [reflexivity|].
  cbn [snoop_loop]. unfold snoop_iter, oe_input. rewrite Hoe. cbn [Z.eqb].
  apply Z.eqb_neq in Ha. rewrite Ha. cbn [negb].
  rewrite Hfull, Z.eqb_refl. rewrite IH. reflexivity.
Qed.

(** X18.  Once the ring of ee_snoop() is full, passes that find OE# low
    and an address different from the last capture change nothing and
    never ask for a pending break: ee_snoop() does not return and
    prints nothing, however many such passes follow. *)
Theorem ee_snoop_full_ring_ignores_break
    (captures : list Z) (inputs more : list snoop_input)
    (out : list snoop_out) (st : snoop_state) :
  ee_snoop captures inputs = (out, Some st) ->
  ring_next (sn_prod st) = sn_cons st ->
  Forall (fun i => oe_pin i = false /\ address_pins i <> sn_laddr st) more ->
  ee_snoop captures (inputs ++ more) = (out, Some st).
Proof.
  unfold ee_snoop. intros Hrun Hfull Hmore.
  rewrite snoop_loop_app, Hrun. cbn [fst snd].
  rewrite (snoop_loop_full more st Hfull Hmore). cbn [fst snd].
  rewrite app_nil_r. reflexivity.
Qed.

Lemma ee_snoop_full_ring_ignores_break_witness :
  exists st,
    ee_snoop (repeat 0 32)
      (busy_bus 31 ++ [{| oe_pin := false; address_pins := 99;
                          break_pending := true |}])
    = ([], Some st) /\
    ring_pending st = map Z.of_nat (seq 1 31).
Proof.
  eexists. split.
  - apply (ee_snoop_full_ring_ignores_break (repeat 0 32) (busy_bus 31)).
    + vm_compute. reflexivity.
    + reflexivity.
    + repeat constructor. cbn. discriminate.
  - vm_compute. reflexivity.
Defined.

(** ** Socket pins *)

Ltac pins_unfold :=
  cbv beta iota zeta delta
    [Pins.address_output_enable Pins.address_output_disable
     Pins.data_output_enable Pins.data_output_disable Pins.pin_mode
     Pins.address_output Pins.address_input Pins.data_output Pins.data_input
     Pins.write_ODR Pins.write_BSRR Pins.write_CRL Pins.write_CRH
     Pins.gpio_update Pins.gpio_port_eqb
     Pins.GPIO_IDR Pins.GPIO_ODR Pins.GPIO_CRL Pins.GPIO_CRH
     Pins.SOCKET_A0_PORT Pins.SOCKET_A13_PORT Pins.SOCKET_A16_PORT
     Pins.SOCKET_D0_PORT Pins.SOCKET_D16_PORT Pins.SOCKET_D24_PORT
     Pins.SOCKET_D28_PORT Pins.SOCKET_D29_PORT Pins.SOCKET_D30_PORT
     Pins.CRL Pins.CRH Pins.ODR wrap32 wrap16 not32].

Lemma testbit_shiftl (a k m : Z) :
  Z.testbit (Z.shiftl a k) m = if 0 <=? m then Z.testbit a (m - k) else false.
Proof.
  destruct (Z.leb_spec 0 m); [apply Z.shiftl_spec; assumption|].
  apply Z.testbit_neg_r. assumption.
Qed.

Lemma testbit_shiftr (a k m : Z) :
  Z.testbit (Z.shiftr a k) m = if 0 <=? m then Z.testbit a (m + k) else false.
Proof.
  destruct (Z.leb_spec 0 m); [apply Z.shiftr_spec; assumption|].
  apply Z.testbit_neg_r. assumption.
Qed.

Lemma testbit_lnot (a m : Z) :
  Z.testbit (Z.lnot a) m = if 0 <=? m then negb (Z.testbit a m) else false.
Proof.
  destruct (Z.leb_spec 0 m); [apply Z.lnot_spec; assumption|].
  apply Z.testbit_neg_r. assumption.
Qed.

Lemma testbit_mod16 (a m : Z) :
  Z.testbit (a mod 2 ^ 16) m = if m <? 16 then Z.testbit a m else false.
Proof.
  destruct (Z.ltb_spec m 16); [apply Z.mod_pow2_bits_low; assumption|].
  apply Z.mod_pow2_bits_high. lia.
Qed.

Lemma testbit_mod32 (a m : Z) :
  Z.testbit (a mod 2 ^ 32) m = if m <? 32 then Z.testbit a m else false.
Proof.
  destruct (Z.ltb_spec m 32); [apply Z.mod_pow2_bits_low; assumption|].
  apply Z.mod_pow2_bits_high. lia.
Qed.

Lemma testbit_high (a k n : Z) :
  0 <= a < 2 ^ k -> 0 <= k <= n -> Z.testbit a n = false.
Proof.
  intros Ha Hk. rewrite <- (Z.mod_small a (2 ^ k)) by lia.
  apply Z.mod_pow2_bits_high. lia.
Qed.

Create Rewrite HintDb pin_bits.
#[local] Hint Rewrite Z.lor_spec Z.land_spec testbit_shiftl testbit_shiftr
  testbit_lnot testbit_mod16 testbit_mod32 : pin_bits.

#[local] Arguments Z.testbit a n : simpl nomatch.

(** Enumerates the bit positions below 32. *)
Ltac bit_cases n :=
  destruct n as [|n|n]; [| |lia];
  [|do 5 (try (destruct n as [n|n|]))]; try lia.

(** Equality of two words of at most 32 bits, bit by bit; [x] is below
    [2 ^ k] by [Hx]. *)
Ltac bits_equal x k Hx :=
  pins_unfold; apply Z.bits_inj'; intros n Hn;
  autorewrite with pin_bits;
  destruct (Z.lt_ge_cases n 32) as [Hlt|Hge];
  [ bit_cases n; cbn; rewrite ?(testbit_high x k _ Hx), ?Z.bits_0 by lia;
    btauto
  | repeat match goal with
           | |- context [?a <? ?b] =>
               destruct (Z.ltb_spec a b); try lia
           | |- context [?a <=? ?b] =>
               destruct (Z.leb_spec a b); try lia
           end;
    rewrite ?(testbit_high x k _ Hx), ?Z.bits_0 by lia; try btauto ].

(** Enumerates the 16 pins of a port. *)
Ltac pin_cases k :=
  destruct k as [|k|k]; [| |lia];
  [|do 4 (try (destruct k as [k|k|]))]; try lia.

(** Equality of two pin configurations (4 bits). *)
Ltac nibble_equal :=
  cbn [address_pin data_pin stray_pin Z.leb Z.eqb Z.compare Pos.compare
       Pos.compare_cont Pos.eqb andb orb];
  cbv iota; pins_unfold;
  cbn [Z.ltb Z.compare Pos.compare Pos.compare_cont]; cbv iota;
  apply Z.bits_inj'; intros n Hn;
  autorewrite with pin_bits;
  destruct (Z.lt_ge_cases n 4) as [Hlt|Hge];
  [ destruct n as [|n|n]; [| |lia];
    [|do 2 (try (destruct n as [n|n|]))]; try lia; cbn; btauto
  | rewrite !(testbit_high 15 4 n) by lia;
    rewrite ?(testbit_high 1 4 n), ?(testbit_high 8 4 n), ?Z.bits_0 by lia;
    rewrite ?andb_false_r; reflexivity ].

(** X19.  On both pin layouts a 20-bit address written with
    address_output() is what address_input() reads back, also after a
    data_output() in between. *)
Theorem address_pins_round_trip
    (rev : Pins.board_rev) (addr data : Z) (g : Pins.gpio_state) :
  0 <= addr < 2 ^ 20 ->
  Pins.address_input rev (Pins.address_output rev addr g) = addr /\
  Pins.address_input rev
    (Pins.data_output rev data (Pins.address_output rev addr g)) = addr.
Proof.
  intros Ha. destruct rev; split; bits_equal addr 20 Ha.
Qed.

Lemma address_pins_round_trip_witness :
  Pins.address_input Pins.BOARD_REV_1
    (Pins.address_output Pins.BOARD_REV_1 0xABCDE gpio_reset) = 0xABCDE /\
  Pins.address_input Pins.BOARD_REV_1
    (Pins.data_output Pins.BOARD_REV_1 0x12345678
       (Pins.address_output Pins.BOARD_REV_1 0xABCDE gpio_reset)) = 0xABCDE.
Proof.
  exact (address_pins_round_trip Pins.BOARD_REV_1 0xABCDE 0x12345678
           gpio_reset ltac:(lia)).
Defined.

(** X20.  On both pin layouts a 32-bit word written with data_output()
    is what data_input() reads back, also after an address_output() in
    between. *)
Theorem data_pins_round_trip
    (rev : Pins.board_rev) (addr data : Z) (g : Pins.gpio_state) :
  0 <= data < 2 ^ 32 ->
  Pins.data_input rev (Pins.data_output rev data g) = data /\
  Pins.data_input rev
    (Pins.address_output rev addr (Pins.data_output rev data g)) = data.
Proof.
  intros Hd. destruct rev; split; bits_equal data 32 Hd.
Qed.

Lemma data_pins_round_trip_witness :
  Pins.data_input Pins.BOARD_REV_1
    (Pins.data_output Pins.BOARD_REV_1 0x12345678 gpio_reset) = 0x12345678 /\
  Pins.data_input Pins.BOARD_REV_1
    (Pins.address_output Pins.BOARD_REV_1 0xABCDE
       (Pins.data_output Pins.BOARD_REV_1 0x12345678 gpio_reset))
  = 0x12345678.
Proof.
  exact (data_pins_round_trip Pins.BOARD_REV_1 0xABCDE 0x12345678
           gpio_reset ltac:(lia)).
Defined.

(** X21.  data_output_disable() leaves all data pins at 0.
    address_output_disable() leaves the address pins at 0 on
    BOARD_REV 1, but on BOARD_REV 2+ it does not touch the output
    latches: the pins keep the last address written. *)
Theorem output_disable_pulls
    (rev : Pins.board_rev) (addr : Z) (g : Pins.gpio_state) :
  0 <= addr < 2 ^ 20 ->
  Pins.data_input rev (Pins.data_output_disable rev g) = 0 /\
  Pins.address_input Pins.BOARD_REV_1
    (Pins.address_output_disable Pins.BOARD_REV_1 g) = 0 /\
  Pins.address_input Pins.BOARD_REV_2
    (Pins.address_output_disable Pins.BOARD_REV_2
       (Pins.address_output Pins.BOARD_REV_2 addr g))
  = addr.
Proof.
  intros Ha. split; [|split].
  - destruct rev; bits_equal addr 20 Ha.
  - bits_equal addr 20 Ha.
  - bits_equal addr 20 Ha.
Qed.

Lemma output_disable_pulls_witness :
  Pins.data_input Pins.BOARD_REV_2
    (Pins.data_output_disable Pins.BOARD_REV_2 gpio_reset) = 0 /\
  Pins.address_input Pins.BOARD_REV_1
    (Pins.address_output_disable Pins.BOARD_REV_1 gpio_reset) = 0 /\
  Pins.address_input Pins.BOARD_REV_2
    (Pins.address_output_disable Pins.BOARD_REV_2
       (Pins.address_output Pins.BOARD_REV_2 0x555 gpio_reset))
  = 0x555.
Proof.
  exact (output_disable_pulls Pins.BOARD_REV_2 0x555 gpio_reset ltac:(lia)).
Defined.

(** X22.  The four enable and disable functions set the configuration
    of every pin of their bus to 1 (push-pull output) or 8 (input with
    pull) and keep that of the other pins, with one exception: on
    BOARD_REV 2+ the two address functions also write configuration 0
    to PA0 and PC13-PC15. *)
Theorem output_enable_pin_modes
    (rev : Pins.board_rev) (g : Pins.gpio_state) (p : Pins.gpio_port)
    (k : Z) :
  0 <= k < 16 ->
  Pins.pin_mode (Pins.address_output_enable rev g) p k
  = (if address_pin rev p k then 1
     else if stray_pin rev p k then 0 else Pins.pin_mode g p k) /\
  Pins.pin_mode (Pins.address_output_disable rev g) p k
  = (if address_pin rev p k then 8
     else if stray_pin rev p k then 0 else Pins.pin_mode g p k) /\
  Pins.pin_mode (Pins.data_output_enable rev g) p k
  = (if data_pin rev p k then 1 else Pins.pin_mode g p k) /\
  Pins.pin_mode (Pins.data_output_disable rev g) p k
  = (if data_pin rev p k then 8 else Pins.pin_mode g p k).
Proof.
  intros Hk. destruct rev, p; pin_cases k; repeat split; nibble_equal.
Qed.

Lemma output_enable_pin_modes_witness :
  Pins.pin_mode (Pins.address_output_enable Pins.BOARD_REV_2 gpio_reset)
                Pins.GPIOC 13 = 0 /\
  Pins.pin_mode (Pins.address_output_disable Pins.BOARD_REV_2 gpio_reset)
                Pins.GPIOC 13 = 0 /\
  Pins.pin_mode (Pins.data_output_enable Pins.BOARD_REV_2 gpio_reset)
                Pins.GPIOC 13 = 4 /\
  Pins.pin_mode (Pins.data_output_disable Pins.BOARD_REV_2 gpio_reset)
                Pins.GPIOC 13 = 4.
Proof.
  exact (output_enable_pin_modes Pins.BOARD_REV_2 gpio_reset Pins.GPIOC 13
           ltac:(lia)).
Defined.
